(** * hhana: systematics-aware sample aggregation

    A shallow embedding of the sample hierarchy of the analysis package:
    [src/mva/samples.py] (module [samples] below: [Sample], [Data], [MC],
    [QCD]) and its later rewrite [src/mva/samples/sample.py] (module
    [sample] below: [Sample], [SystematicsSample], [MC]).

    Conventions of the embedding.
    - Python floats are idealised as exact rationals ([Qc]); the statements
      proved below are algebraic identities between the quantities the code
      computes and do not speak about rounding.
    - A Python exception is a value [Raise e] of the result type [res].
    - ROOT trees, PyTables tables and the constants of modules that are
      imported but defined elsewhere ([LUMI], [REGIONS], [iter_systematics],
      [WEIGHT_SYSTEMATICS], ...) are collected in the record [Env].
    - An in-place update of a Python object is written as state passing:
      the function returns the new object. *)

From Stdlib Require Import Ascii String QArith Qcanon Qround Qabs Lqa.
From stdpp Require Import base numbers strings pretty gmap list.

Open Scope Qc_scope.

(** ** Exceptions *)

Inductive exn : Type :=
| TypeError (msg : string)
| ValueError (msg : string)
| KeyError
| IndexError
| AttributeError
| ZeroDivisionError
| TableError (table : string).

Inductive res (A : Type) : Type :=
| Ok (a : A)
| Raise (e : exn).
Arguments Ok {A} a.
Arguments Raise {A} e.

#[global] Instance res_ret : MRet res := fun A a => Ok a.
#[global] Instance res_bind : MBind res := fun A B f m =>
  match m with Ok a => f a | Raise e => Raise e end.
#[global] Instance res_fmap : FMap res := fun A B f m =>
  match m with Ok a => Ok (f a) | Raise e => Raise e end.

#[global] Instance exn_eq_dec : EqDecision exn.
Proof. solve_decision. Defined.
#[global] Instance res_eq_dec `{EqDecision A} : EqDecision (res A).
Proof. solve_decision. Defined.

(** [d[k]] on a Python dict. *)
Definition getitem `{Countable K} {V} (d : gmap K V) (k : K) : res V :=
  match d !! k with Some v => Ok v | None => Raise KeyError end.

(** Python's true division on floats. *)
Definition pydiv (a b : Qc) : res Qc :=
  if decide (b = 0) then Raise ZeroDivisionError else Ok (a / b).

(** [reduce(np.multiply, l)]: no initial value, so the empty list raises. *)
Definition reduce_multiply (l : list Qc) : res Qc :=
  match l with
  | [] => Raise (TypeError "reduce() of empty sequence with no initial value")
  | x :: l' => Ok (foldl Qcmult x l')
  end.

Definition qsum (l : list Qc) : Qc := foldl Qcplus 0 l.

(** ** Systematic identifiers

    Either the string ['NOMINAL'] or a tuple of strings such as
    [('JES_UP',)]. *)

Inductive systematic : Type :=
| NOMINAL
| SysTuple (terms : list string).

#[global] Instance systematic_eq_dec : EqDecision systematic.
Proof. solve_decision. Defined.
#[global] Instance systematic_countable : Countable systematic.
Proof.
  refine (inj_countable'
            (fun s => match s with NOMINAL => None | SysTuple l => Some l end)
            (fun o => match o with None => NOMINAL | Some l => SysTuple l end) _).
  by intros [].
Defined.

Definition ZFIT_UP : systematic := SysTuple ["ZFIT_UP"].
Definition ZFIT_DOWN : systematic := SysTuple ["ZFIT_DOWN"].
Definition QCDFIT_UP : systematic := SysTuple ["QCDFIT_UP"].
Definition QCDFIT_DOWN : systematic := SysTuple ["QCDFIT_DOWN"].

(** ** Selections ([rootpy.tree.Cut])

    An empty cut selects everything; [CVar c] is the truth value of the
    column (or named predicate) [c]; [CKeyRange key n lo hi] is the cut
    ['((abs(key)%n)>=lo)&&((abs(key)%n)<hi)']. *)

Inductive Cut : Type :=
| CEmpty
| CVar (col : string)
| CAnd (a b : Cut)
| CKeyRange (key : string) (n lo hi : Z).

#[global] Instance Cut_eq_dec : EqDecision Cut.
Proof. solve_decision. Defined.

Definition cut_is_empty (c : Cut) : bool :=
  match c with CEmpty => true | _ => false end.

(** [a & b]: an empty operand is the unit. *)
Definition cut_and (a b : Cut) : Cut :=
  if cut_is_empty a then b else if cut_is_empty b then a else CAnd a b.

(** [a & cuts] where [cuts] may be [None]. *)
Definition cut_and_opt (a : Cut) (cuts : option Cut) : Cut :=
  cut_and a (default CEmpty cuts).

Fixpoint cut_cols (c : Cut) : list string :=
  match c with
  | CEmpty => []
  | CVar col => [col]
  | CAnd a b => cut_cols a ++ cut_cols b
  | CKeyRange key _ _ _ => [key]
  end.

(** ** Rows, tables and trees *)

Abbreviation Row := (gmap string Qc).

Definition row_get (r : Row) (col : string) : Qc := default 0 (r !! col).

(** [abs(v) % n] on a rational value: the remainder of the floor division. *)
Definition abs_mod (v : Qc) (n : Z) : Q :=
  (Qabs v - inject_Z (n * Qfloor (Qabs v / inject_Z n)))%Q.

Fixpoint cut_eval (c : Cut) (r : Row) : bool :=
  match c with
  | CEmpty => true
  | CVar col => negb (bool_decide (row_get r col = 0))
  | CAnd a b => cut_eval a r && cut_eval b r
  | CKeyRange key n lo hi =>
      Qle_bool (inject_Z lo) (abs_mod (row_get r key) n)
      && negb (Qle_bool (inject_Z hi) (abs_mod (row_get r key) n))
  end.

Record Table : Type := {
  tbl_name : string;
  tbl_cols : list string;
  tbl_rows : list Row;
  tbl_corrupt : bool
}.

Record Tree : Type := {
  tree_name : string;
  tree_rows : list Row
}.

(** The keyword arguments forwarded to the table: nothing, or [start] and
    [step]. *)
Definition kwargs : Type := option (nat * nat).

(** Rows [start, start+step, ...] of an indexed list. *)
Definition strided {A} (start step : nat) (l : list (nat * A)) : list (nat * A) :=
  filter (fun x => start <= x.1 /\ (x.1 - start) mod step = 0)%nat l.

Definition indexed {A} (l : list A) : list (nat * A) := imap pair l.

Definition table_range (t : Table) (kw : kwargs) : res (list (nat * Row)) :=
  match kw with
  | None => Ok (indexed (tbl_rows t))
  | Some (_, O) => Raise (ValueError "step must be positive")
  | Some (start, step) => Ok (strided start step (indexed (tbl_rows t)))
  end.

Definition cut_wf (t : Table) (sel : Cut) : bool :=
  bool_decide (Forall (fun c => c ∈ tbl_cols t) (cut_cols sel)).

(** [table.read] with the forwarded keyword arguments. *)
Definition table_read (t : Table) (kw : kwargs) : res (list (nat * Row)) :=
  if tbl_corrupt t then Raise (TableError (tbl_name t))
  else table_range t kw.

(** [table.read_where(selection, ...)]: the rows of the requested range
    that satisfy the selection, with their row numbers; a corrupted table or
    a selection over a column the table does not have raises. *)
Definition read_where (t : Table) (sel : Cut) (kw : kwargs) : res (list (nat * Row)) :=
  if tbl_corrupt t || negb (cut_wf t sel) then Raise (TableError (tbl_name t))
  else rows ← table_range t kw;
       mret (filter (fun x => cut_eval sel x.2 = true) rows).

(** ** Histograms

    The bin contents, and the Python attribute [systematics] when it has been
    set: a dict from systematic identifiers to sibling histograms. *)

Abbreviation bins := (list Qc).

Record Hist : Type := {
  h_bins : bins;
  h_systematics : option (gmap systematic bins)
}.

Definition bins_reset (b : bins) : bins := (fun _ => 0) <$> b.
Definition bins_add (a b : bins) : bins := zip_with Qcplus a b.
Definition bins_sub (a b : bins) : bins := zip_with Qcminus a b.
Definition bins_scale (a : bins) (s : Qc) : bins := (fun x => x * s) <$> a.
Definition Integral (b : bins) : Qc := qsum b.

(** [if k not in d: d[k] = h else: d[k] += h]. *)
Definition sys_accumulate (d : gmap systematic bins) (k : systematic) (h : bins)
  : gmap systematic bins :=
  match d !! k with
  | None => <[k := h]> d
  | Some h0 => <[k := bins_add h0 h]> d
  end.

(** The string handed to [TTree.Draw] as weighted selection:
    ['%f * %s * (%s)' % (weight, '*'.join(branches), selection)]. *)
Record WeightedSelection : Type := {
  ws_weight : Qc;
  ws_branches : list string;
  ws_cut : Cut
}.

(** ** Strings *)

(** [s.split(sep)] for a one-character separator. *)
Fixpoint split_on (sep : ascii) (s : string) : list string :=
  match s with
  | EmptyString => [EmptyString]
  | String c s' =>
      if decide (c = sep) then EmptyString :: split_on sep s'
      else match split_on sep s' with
           | p :: ps => String c p :: ps
           | [] => [String c EmptyString]
           end
  end.

Fixpoint join_with (sep : string) (l : list string) : string :=
  match l with
  | [] => EmptyString
  | [x] => x
  | x :: l' => x +:+ sep +:+ join_with sep l'
  end.

(** [s.rsplit(sep, 1)]: split once, at the last separator. *)
Definition rsplit1 (sep : ascii) (s : string) : list string :=
  match reverse (split_on sep s) with
  | lst :: (_ :: _) as front =>
      [join_with (String sep EmptyString) (reverse front); lst]
  | parts => reverse parts
  end.

Definition underscore : ascii := "_"%char.

(** A Python dict iterated in its [items()] order. *)
Definition pydict (V : Type) : Type := list (string * V).

Fixpoint pydict_get {V} (d : pydict V) (k : string) : res V :=
  match d with
  | [] => Raise KeyError
  | (k', v) :: d' => if decide (k' = k) then Ok v else pydict_get d' k
  end.

(** ** Categories *)

Record Category : Type := {
  cat_name : string;
  get_cuts : Z -> Cut
}.

(** ** Record arrays (numpy)

    The column names of the dtype and the rows; every row keeps the number it
    has in its table, and the array the position of its dataset in the
    sample, which identify a row of the backing store. *)

Record RecArray : Type := {
  ra_source : nat;
  ra_cols : list string;
  ra_rows : list (nat * Row)
}.

(** [rec[br]] for a column name: the dtype must have the field. *)
Definition rec_column (ra : RecArray) (col : string) : res (Row -> Qc) :=
  if decide (col ∈ ra_cols ra) then Ok (fun r => row_get r col)
  else Raise (ValueError "no field of that name").

(** [rec_append_fields(rec, names='weight', data=weights)]. *)
Definition rec_append_weight (ra : RecArray) (w : Row -> Qc) : RecArray :=
  {| ra_source := ra_source ra;
     ra_cols := ra_cols ra ++ ["weight"];
     ra_rows := (fun x => (x.1, <["weight" := w x.2]> x.2)) <$> ra_rows ra |}.

(** [rec_drop_fields(rec, names)]. *)
Definition rec_drop_fields (ra : RecArray) (names : list string) : RecArray :=
  {| ra_source := ra_source ra;
     ra_cols := filter (fun c => c ∉ names) (ra_cols ra);
     ra_rows := (fun x => (x.1, filter (fun kv => kv.1 ∉ names) x.2)) <$> ra_rows ra |}.

(** [rec[fields]] for a list of column names. *)
Definition rec_project (ra : RecArray) (fields : list string) : res RecArray :=
  if decide (Forall (fun c => c ∈ ra_cols ra) fields) then
    Ok {| ra_source := ra_source ra;
          ra_cols := fields;
          ra_rows := (fun x => (x.1, filter (fun kv => kv.1 ∈ fields) x.2))
                       <$> ra_rows ra |}
  else Raise (ValueError "no field of that name").

(** [np.hstack(recs)], every row with its dataset and row number. *)
Definition hstack (recs : list RecArray) : list (nat * nat * Row) :=
  concat ((fun ra => (fun x => (ra_source ra, x.1, x.2)) <$> ra_rows ra) <$> recs).

(** [fields + ['weight']] when the weight is asked for and not yet listed. *)
Definition fields_with_weight (include_weight : bool) (fields : option (list string))
  : option (list string) :=
  match fields with
  | Some fs =>
      if include_weight && negb (bool_decide ("weight" ∈ fs))
      then Some (fs ++ ["weight"]) else Some fs
  | None => None
  end.

(** Loops whose body may raise. *)
Fixpoint foldlM {A S} (f : S -> A -> res S) (s : S) (l : list A) : res S :=
  match l with
  | [] => Ok s
  | x :: l' => s' ← f s x; foldlM f s' l'
  end.

Fixpoint mapM_res {A B} (f : A -> res B) (l : list A) : res (list B) :=
  match l with
  | [] => Ok []
  | x :: l' => y ← f x; ys ← mapM_res f l'; mret (y :: ys)
  end.

(** A weight branch: a branch name, or (embedding) a cut used as a factor. *)
Inductive branch : Type :=
| BName (name : string)
| BCut (c : Cut).

Record WeightedSel : Type := {
  wsel_weight : Qc;
  wsel_branches : list branch;
  wsel_cut : Cut
}.

(** The expression argument of a draw: one expression or a list of them. *)
Inductive Expr : Type :=
| Expr1 (e : string)
| ExprList (es : list string).

(** ** Assertions

    [assert] and [raise RuntimeError], next to the exceptions above, in the
    constructors and in [QCD.records]. *)

Inductive error : Type :=
| AssertionError
| RuntimeError (msg : string)
| Exn (e : exn).

Inductive outcome (A : Type) : Type :=
| Return (a : A)
| Fail (e : error).
Arguments Return {A} a.
Arguments Fail {A} e.

#[global] Instance outcome_ret : MRet outcome := fun A a => Return a.
#[global] Instance outcome_bind : MBind outcome := fun A B f m =>
  match m with Return a => f a | Fail e => Fail e end.

Definition of_res {A} (r : res A) : outcome A :=
  match r with Ok a => Return a | Raise e => Fail (Exn e) end.

(** [assert cond]. *)
Definition py_assert (cond : bool) : outcome unit :=
  if cond then Return tt else Fail AssertionError.

(** [l.remove(x)] on a copy of the list: the first occurrence goes, or
    [ValueError]. *)
Fixpoint pylist_remove `{EqDecision A} (x : A) (l : list A) : res (list A) :=
  match l with
  | [] => Raise (ValueError "list.remove(x): x not in list")
  | y :: l' => if decide (y = x) then Ok l' else (y ::.) <$> pylist_remove x l'
  end.

(** [l[i]] on a list. *)
Definition list_getitem {A} (l : list A) (i : nat) : res A :=
  match l !! i with Some x => Ok x | None => Raise IndexError end.

(** [s.replace(old, new)] for one-character strings. *)
Fixpoint replace_char (old new : ascii) (s : string) : string :=
  match s with
  | EmptyString => EmptyString
  | String c s' => String (if decide (c = old) then new else c) (replace_char old new s')
  end.

(** [s.lower()] on ASCII letters. *)
Definition lower_char (c : ascii) : ascii :=
  let n := nat_of_ascii c in
  if (65 <=? n)%nat && (n <=? 90)%nat then ascii_of_nat (n + 32) else c.

Fixpoint lower (s : string) : string :=
  match s with
  | EmptyString => EmptyString
  | String c s' => String (lower_char c) (lower s')
  end.

(** * [src/mva/samples.py] *)

Module samples.

Inductive pyclass : Type :=
| C_Sample | C_Data | C_Signal | C_Background | C_MC | C_Ztautau
| C_MC_Ztautau | C_Embedded_Ztautau | C_EWK | C_Top | C_Diboson | C_Others
| C_Higgs | C_QCD.

#[global] Instance pyclass_eq_dec : EqDecision pyclass.
Proof. solve_decision. Defined.

(** The classes a class derives from, itself included. *)
Definition mro (c : pyclass) : list pyclass :=
  match c with
  | C_Sample => [C_Sample]
  | C_Data => [C_Data; C_Sample]
  | C_Signal => [C_Signal]
  | C_Background => [C_Background]
  | C_MC => [C_MC; C_Sample]
  | C_Ztautau => [C_Ztautau; C_Background]
  | C_MC_Ztautau => [C_MC_Ztautau; C_MC; C_Sample; C_Ztautau; C_Background]
  | C_Embedded_Ztautau =>
      [C_Embedded_Ztautau; C_MC; C_Sample; C_Ztautau; C_Background]
  | C_EWK => [C_EWK; C_MC; C_Sample; C_Background]
  | C_Top => [C_Top; C_MC; C_Sample; C_Background]
  | C_Diboson => [C_Diboson; C_MC; C_Sample; C_Background]
  | C_Others => [C_Others; C_MC; C_Sample; C_Background]
  | C_Higgs => [C_Higgs; C_MC; C_Sample; C_Signal]
  | C_QCD => [C_QCD; C_Sample; C_Background]
  end.

Definition issubclass (c d : pyclass) : bool := bool_decide (d ∈ mro c).

(** What the module imports from [systematics], [lumi], [regions] and ROOT. *)
Record Env : Type := {
  LUMI : Z -> Qc;
  REGIONS : gmap string Cut;
  WEIGHT_SYSTEMATICS : pydict (pydict (list string));
  EMBEDDING_SYSTEMATICS : pydict (pydict Cut);
  SYSTEMATICS_BY_WEIGHT : list systematic;
  (** [tree.Draw(expr, weighted_selection, hist=hist)] *)
  Draw : Tree -> string -> WeightedSel -> bins -> bins;
  (** [tree.draw(expr, selection, hist=hist)] *)
  draw : Tree -> Expr -> Cut -> bins -> bins;
  (** [tree.GetEntries(selection)] *)
  GetEntries : Tree -> Cut -> Qc
}.

Record Sample : Type := {
  s_class : pyclass;
  s_year : Z;
  s_scale : Qc;
  s_cuts : Cut
}.

Record Data : Type := {
  data_base :> Sample;
  data_data : Tree;
  data_h5data : Table
}.

(** A dataset of an [MC] sample; [None] is the flag to use [NOMINAL]. *)
Record Dataset : Type := {
  ds_name : string;
  ds_trees : gmap systematic (option Tree);
  ds_tables : gmap systematic (option Table);
  ds_events : gmap systematic (option Qc);
  ds_xs : Qc;
  ds_kfact : Qc;
  ds_effic : Qc
}.

Record MC : Type := {
  mc_base :> Sample;
  mc_scale_error : Qc;
  mc_systematics : bool;
  mc_datasets : list Dataset
}.

Record QCD : Type := {
  qcd_base :> Sample;
  qcd_data : Data;
  qcd_mc : list MC;
  qcd_data_scale : Qc;
  qcd_mc_scales : list Qc;
  qcd_scale_error : Qc;
  qcd_shape_region : string;
  qcd_systematics : bool
}.

(** [MC.__init__]: the bin of the cutflow histogram holding the weighted
    number of events. *)
Definition events_bin (self : pyclass) : Z :=
  if issubclass self C_Embedded_Ztautau then 0 else 1.

(** [Sample.check_systematic], a classmethod. *)
Definition check_systematic (cls : pyclass) (systematic : systematic) : res unit :=
  if bool_decide (systematic ≠ NOMINAL) && issubclass cls C_Data
  then Raise (TypeError "Do not apply systematics on data!")
  else Ok tt.

(** [Sample.get_sys_term_variation]; the check is called on [Sample]. *)
Definition get_sys_term_variation (systematic : systematic)
  : res (option string * string) :=
  _ ← check_systematic C_Sample systematic;
  match systematic with
  | NOMINAL => Ok (None, "NOMINAL")
  | SysTuple [] => Raise IndexError
  | SysTuple [t] =>
      match split_on underscore t with
      | [systerm; variation] => Ok (Some systerm, variation)
      | _ => Raise (ValueError "wrong number of values to unpack")
      end
  | SysTuple _ => Ok (None, "NOMINAL")
  end.

Definition WEIGHT_BRANCHES : list string :=
  ["mc_weight"; "pileup_weight"; "ggf_weight"].

Definition term_matches (term : string) (systerm : option string) : bool :=
  bool_decide (systerm = Some term).

(** [Sample.get_weight_branches]. *)
Definition get_weight_branches (E : Env) (self : pyclass)
    (systematic : systematic) (no_cuts only_cuts weighted : bool)
  : res (list branch) :=
  if negb weighted then Ok [BName "1.0"] else
  '(systerm, variation) ← get_sys_term_variation systematic;
  weight_branches ←
    (if negb only_cuts then
       foldlM (fun wb '(term, variations) =>
                 v ← pydict_get variations
                       (if term_matches term systerm then variation else "NOMINAL");
                 mret (wb ++ (BName <$> v)))
              (BName <$> WEIGHT_BRANCHES) (WEIGHT_SYSTEMATICS E)
     else Ok []);
  if negb no_cuts && issubclass self C_Embedded_Ztautau then
    foldlM (fun wb '(term, variations) =>
              v ← pydict_get variations
                    (if term_matches term systerm then variation else "NOMINAL");
              mret (if cut_is_empty v then wb else wb ++ [BCut v]))
           weight_branches (EMBEDDING_SYSTEMATICS E)
  else Ok weight_branches.

(** The terms [('%s_%s' % (type, variation),)] of a family of variations. *)
Definition variation_terms {V} (d : pydict (pydict V)) : list systematic :=
  '(type, variations) ← d;
  '(variation, _) ← variations;
  if decide (variation = "NOMINAL") then []
  else [SysTuple [type +:+ "_" +:+ variation]].

(** [Sample.iter_weight_branches]. *)
Definition iter_weight_branches (E : Env) (self : pyclass)
  : res (list (list branch * systematic)) :=
  mapM_res (fun term =>
              wb ← get_weight_branches E self term false false true;
              mret (wb, term))
           (variation_terms (WEIGHT_SYSTEMATICS E)
            ++ (if issubclass self C_Embedded_Ztautau
                then variation_terms (EMBEDDING_SYSTEMATICS E) else [])).

(** [Sample.cuts]. *)
Definition cuts (E : Env) (self : Sample) (category : Category)
    (region : string) (systematic : systematic) : res Cut :=
  sys_cut ←
    (if issubclass (s_class self) C_Embedded_Ztautau then
       '(systerm, variation) ← get_sys_term_variation systematic;
       foldlM (fun sys_cut '(term, variations) =>
                 v ← pydict_get variations
                       (if term_matches term systerm then variation else "NOMINAL");
                 mret (cut_and sys_cut v))
              CEmpty (EMBEDDING_SYSTEMATICS E)
     else Ok CEmpty);
  reg ← getitem (REGIONS E) region;
  mret (cut_and (cut_and (cut_and (get_cuts category (s_year self)) reg)
                         (s_cuts self)) sys_cut).

(** [Data.events]. *)
Definition Data_events (E : Env) (self : Data) (category : Category)
    (region : string) (cuts_arg : option Cut) : res Qc :=
  c ← cuts E self category region NOMINAL;
  mret (GetEntries E (data_data self) (cut_and_opt c cuts_arg)).

(** [Data.draw_into]. *)
Definition Data_draw_into (E : Env) (self : Data) (hist : Hist) (expr : Expr)
    (category : Category) (region : string) (cuts_arg : option Cut) : res Hist :=
  c ← cuts E self category region NOMINAL;
  mret {| h_bins := draw E (data_data self) expr (cut_and_opt c cuts_arg) (h_bins hist);
          h_systematics := h_systematics hist |}.

(** [Data.records]. *)
Definition Data_records (E : Env) (self : Data) (category : Category)
    (region : string) (fields : option (list string)) (cuts_arg : option Cut)
    (include_weight : bool) (systematic : systematic) (kw : kwargs)
  : res (list RecArray) :=
  let fields := fields_with_weight include_weight fields in
  _ ← check_systematic C_Sample systematic;
  c ← cuts E self category region NOMINAL;
  rows ← read_where (data_h5data self) (cut_and_opt c cuts_arg) kw;
  let rec := {| ra_source := 0; ra_cols := tbl_cols (data_h5data self);
                ra_rows := rows |} in
  let rec := if include_weight then rec_append_weight rec (fun _ => 1) else rec in
  rec ← match fields with Some fs => rec_project rec fs | None => Ok rec end;
  mret [rec].

(** [a / events] where [events] may be the [None] flag. *)
Definition div_events (a : Qc) (events : option Qc) : res Qc :=
  match events with
  | Some ev => pydiv a ev
  | None => Raise (TypeError "unsupported operand type(s) for /")
  end.

(** A method call on a tree that may be the [None] flag. *)
Definition the_tree (t : option Tree) : res Tree :=
  match t with Some t => Ok t | None => Raise AttributeError end.

(** [for expr in exprs: tree.Draw(expr, selection, hist=hist)]. *)
Definition draw_exprs (E : Env) (t : option Tree) (exprs : list string)
    (sel : WeightedSel) (hist : bins) : res bins :=
  match exprs with
  | [] => Ok hist
  | _ => t ← the_tree t; mret (foldl (fun h e => Draw E t e sel h) hist exprs)
  end.

(** [MC.events]. *)
Definition MC_events (E : Env) (self : MC) (category : Category)
    (region : string) (cuts_arg : option Cut) (systematic : systematic)
    (weighted : bool) (scale : Qc) (raw : bool) : res Qc :=
  total ← foldlM (fun total ds =>
      tree ← getitem (ds_trees ds) systematic;
      events ← getitem (ds_events ds) systematic;
      if raw then
        c ← cuts E self category region systematic;
        tree ← the_tree tree;
        mret (total + GetEntries E tree (cut_and_opt c cuts_arg))
      else
        weight ← div_events (LUMI E (s_year self) * s_scale self * ds_xs ds
                             * ds_kfact ds * ds_effic ds) events;
        wb ← get_weight_branches E (s_class self) systematic false false weighted;
        c ← cuts E self category region systematic;
        tree ← the_tree tree;
        mret (total + Integral (Draw E tree "1"
                {| wsel_weight := weight; wsel_branches := wb;
                   wsel_cut := cut_and_opt c cuts_arg |} [0])))
    0 (mc_datasets self);
  mret (total * scale).

Definition is_Ztautau (self : MC) : bool := issubclass (s_class self) C_Ztautau.

(** [MC.draw_into], the loop over the keys of [sys_trees]. *)
Definition sys_tree_step (E : Env) (self : MC) (selection : Cut)
    (exprs : list string) (weighted : bool) (scale : Qc) (ds : Dataset)
    (current_hist : bins) (sys_hists : gmap systematic bins)
    (sys_term : systematic) : res (gmap systematic bins) :=
  if decide (sys_term = NOMINAL) then Ok sys_hists else
  sys_tree ← getitem (ds_trees ds) sys_term;
  sys_event ← getitem (ds_events ds) sys_term;
  sys_hist ←
    match sys_tree with
    | Some t =>
        sys_weight ← div_events (LUMI E (s_year self) * scale * s_scale self
                                 * ds_xs ds * ds_kfact ds * ds_effic ds) sys_event;
        wb ← get_weight_branches E (s_class self) NOMINAL false false weighted;
        draw_exprs E (Some t) exprs
          {| wsel_weight := sys_weight; wsel_branches := wb; wsel_cut := selection |}
          (bins_reset current_hist)
    | None => Ok current_hist
    end;
  mret (sys_accumulate sys_hists sys_term sys_hist).

(** [MC.draw_into], the loop over the weight systematics. *)
Definition weight_step (E : Env) (selection : Cut) (exprs : list string)
    (nominal_tree : option Tree) (nominal_weight : Qc) (current_hist : bins)
    (sys_hists : gmap systematic bins) (it : list branch * systematic)
  : res (gmap systematic bins) :=
  sys_hist ← draw_exprs E nominal_tree exprs
    {| wsel_weight := nominal_weight; wsel_branches := it.1; wsel_cut := selection |}
    (bins_reset current_hist);
  mret (sys_accumulate sys_hists it.2 sys_hist).

(** [MC.draw_into], the fit errors of one dataset. *)
Definition fit_step (self : MC) (current_hist : bins)
    (sys_hists : gmap systematic bins) : res (gmap systematic bins) :=
  sys_hists ←
    (if is_Ztautau self then
       up ← pydiv (s_scale self + mc_scale_error self) (s_scale self);
       down ← pydiv (s_scale self - mc_scale_error self) (s_scale self);
       let up_fit := bins_scale current_hist up in
       let down_fit := bins_scale current_hist down in
       match sys_hists !! ZFIT_UP with
       | None => Ok (<[ZFIT_DOWN := down_fit]> (<[ZFIT_UP := up_fit]> sys_hists))
       | Some h_up =>
           let sys_hists := <[ZFIT_UP := bins_add h_up up_fit]> sys_hists in
           h_down ← getitem sys_hists ZFIT_DOWN;
           Ok (<[ZFIT_DOWN := bins_add h_down down_fit]> sys_hists)
       end
     else
       Ok (foldl (fun d t => sys_accumulate d t current_hist) sys_hists
                 [ZFIT_UP; ZFIT_DOWN]));
  mret (foldl (fun d t => sys_accumulate d t current_hist) sys_hists
              [QCDFIT_UP; QCDFIT_DOWN]).

(** The nominal fill of one dataset: [current_hist]. *)
Definition nominal_fill (E : Env) (self : MC) (selection : Cut)
    (exprs : list string) (weighted : bool) (scale : Qc) (hist : bins)
    (ds : Dataset) : res (option Tree * Qc * bins) :=
  nominal_tree ← getitem (ds_trees ds) NOMINAL;
  nominal_events ← getitem (ds_events ds) NOMINAL;
  nominal_weight ← div_events (LUMI E (s_year self) * scale * s_scale self
                               * ds_xs ds * ds_kfact ds * ds_effic ds) nominal_events;
  wb ← get_weight_branches E (s_class self) NOMINAL false false weighted;
  current_hist ← draw_exprs E nominal_tree exprs
    {| wsel_weight := nominal_weight; wsel_branches := wb; wsel_cut := selection |}
    (bins_reset hist);
  mret (nominal_tree, nominal_weight, current_hist).

(** [MC.draw_into], the body of the loop over the datasets. *)
Definition draw_into_dataset (E : Env) (self : MC) (selection : Cut)
    (exprs : list string) (weighted do_systematics : bool) (scale : Qc)
    (st : bins * gmap systematic bins) (ds : Dataset)
  : res (bins * gmap systematic bins) :=
  '(nominal_tree, nominal_weight, current_hist) ←
    nominal_fill E self selection exprs weighted scale st.1 ds;
  let hist := bins_add st.1 current_hist in
  if negb do_systematics then Ok (hist, st.2) else
  sys_hists ← foldlM (sys_tree_step E self selection exprs weighted scale ds current_hist)
                 st.2 (map_to_list (ds_trees ds)).*1;
  its ← iter_weight_branches E (s_class self);
  sys_hists ← foldlM (weight_step E selection exprs nominal_tree nominal_weight current_hist)
                 sys_hists its;
  sys_hists ← fit_step self current_hist sys_hists;
  mret (hist, sys_hists).

Definition exprs_of (expr : Expr) : list string :=
  match expr with Expr1 e => [e] | ExprList es => es end.

(** [MC.draw_into]. *)
Definition MC_draw_into (E : Env) (self : MC) (hist : Hist) (expr : Expr)
    (category : Category) (region : string) (cuts_arg : option Cut)
    (weighted systematics : bool) (scale : Qc) : res Hist :=
  let do_systematics := mc_systematics self && systematics in
  c ← cuts E self category region NOMINAL;
  st ← foldlM (draw_into_dataset E self (cut_and_opt c cuts_arg) (exprs_of expr)
                 weighted do_systematics scale)
         (h_bins hist, default ∅ (h_systematics hist)) (mc_datasets self);
  mret {| h_bins := st.1;
          h_systematics := if do_systematics then Some st.2 else h_systematics hist |}.

Definition is_fit_term (systematic : systematic) : bool :=
  bool_decide (systematic ∈ [ZFIT_UP; ZFIT_DOWN; QCDFIT_UP; QCDFIT_DOWN]).

Definition branch_column (rec : RecArray) (b : branch) : res (Row -> Qc) :=
  match b with
  | BName n => rec_column rec n
  | BCut _ => Raise (ValueError "no field of that name")
  end.

Definition branch_names (wb : list branch) : list string :=
  omap (fun b => match b with BName n => Some n | BCut _ => None end) wb.

(** The per-row product [reduce(np.multiply, [rec[br] for br in branches])]. *)
Definition branch_product (rec : RecArray) (wb : list branch) : res (Row -> Qc) :=
  cols ← mapM_res (branch_column rec) wb;
  match cols with
  | [] => Raise (TypeError "reduce() of empty sequence with no initial value")
  | c :: cols' => Ok (fun r => foldl (fun acc f => acc * f r) (c r) cols')
  end.

(** [MC.records], the table and the number of events used for a dataset. *)
Definition lookup_table (ds : Dataset) (systematic : systematic)
  : res (option Table * option Qc) :=
  if is_fit_term systematic then
    table ← getitem (ds_tables ds) NOMINAL;
    events ← getitem (ds_events ds) NOMINAL;
    mret (table, events)
  else
    table ← getitem (ds_tables ds) systematic;
    events ← getitem (ds_events ds) systematic;
    match table with
    | None =>
        table ← getitem (ds_tables ds) NOMINAL;
        events ← getitem (ds_events ds) NOMINAL;
        mret (table, events)
    | Some _ => mret (table, events)
    end.

(** The scale of a dataset weight: shifted for the fit terms of Ztautau. *)
Definition actual_scale (self : MC) (systematic : systematic) : Qc :=
  if is_Ztautau self then
    if decide (systematic = ZFIT_UP) then s_scale self + mc_scale_error self
    else if decide (systematic = ZFIT_DOWN) then s_scale self - mc_scale_error self
    else s_scale self
  else s_scale self.

(** [MC.records], the body of the loop over the datasets. *)
Definition records_dataset (E : Env) (self : MC) (table_selection : Cut)
    (weight_branches : list branch) (fields : option (list string))
    (include_weight : bool) (systematic : systematic) (scale : Qc) (kw : kwargs)
    (recs : list RecArray) (ids : nat * Dataset) : res (list RecArray) :=
  let ds := ids.2 in
  '(table, events) ← lookup_table ds systematic;
  weight ← div_events (scale * actual_scale self systematic * LUMI E (s_year self)
                       * ds_xs ds * ds_kfact ds * ds_effic ds) events;
  table ← match table with Some t => Ok t | None => Raise AttributeError end;
  rows ← read_where table table_selection kw;
  let rec := {| ra_source := ids.1; ra_cols := tbl_cols table; ra_rows := rows |} in
  rec ←
    (if include_weight then
       prod ← branch_product rec weight_branches;
       mret (rec_drop_fields (rec_append_weight rec (fun r => weight * prod r))
                             (branch_names weight_branches))
     else Ok rec);
  rec ← match fields with Some fs => rec_project rec fs | None => Ok rec end;
  mret (recs ++ [rec]).

(** [MC.records]. *)
Definition MC_records (E : Env) (self : MC) (category : Category)
    (region : string) (fields : option (list string)) (cuts_arg : option Cut)
    (include_weight : bool) (systematic : systematic) (scale : Qc) (kw : kwargs)
  : res (list RecArray) :=
  let fields := fields_with_weight include_weight fields in
  c ← cuts E self category region systematic;
  let table_selection := cut_and_opt c cuts_arg in
  weight_branches ← get_weight_branches E (s_class self) systematic true false true;
  let systematic :=
    if bool_decide (systematic ∈ SYSTEMATICS_BY_WEIGHT E) then NOMINAL
    else systematic in
  foldlM (records_dataset E self table_selection weight_branches fields
            include_weight systematic scale kw)
         [] (indexed (mc_datasets self)).

(** [QCD.sample_compatibility]. *)
Definition sample_compatibility (data : Data) (mc : list MC) : res unit :=
  match mc with
  | [] => Raise (ValueError "mc must contain at least one MC sample")
  | m0 :: _ =>
      let systematics := mc_systematics m0 in
      foldlM (fun _ (m : MC) =>
                if bool_decide (s_year data ≠ s_year m) then
                  Raise (ValueError "MC and Data years do not match")
                else if bool_decide (mc_systematics m ≠ systematics) then
                  Raise (ValueError
                    "two MC samples with inconsistent systematics setting")
                else Ok tt)
             tt mc
  end.

(** [QCD.__init__]; the attribute [scale] is reset to 1 after [Sample.__init__]
    has stored the argument. *)
Definition QCD_init (data : Data) (mc : list MC) (scale scale_error data_scale : Qc)
    (mc_scales : option (list Qc)) (shape_region : string) : res QCD :=
  _ ← sample_compatibility data mc;
  mc_scales ←
    match mc_scales with
    | Some l =>
        if bool_decide (length l ≠ length mc) then
          Raise (ValueError "length of MC scales must match number of MC")
        else Ok l
    | None => Ok ((fun _ => 1) <$> mc)
    end;
  systematics ← match mc with m0 :: _ => Ok (mc_systematics m0) | [] => Raise IndexError end;
  mret {| qcd_base := {| s_class := C_QCD; s_year := s_year data;
                         s_scale := 1; s_cuts := CEmpty |};
          qcd_data := data;
          qcd_mc := mc;
          qcd_data_scale := data_scale;
          qcd_mc_scales := mc_scales;
          qcd_scale_error := scale_error;
          qcd_shape_region := shape_region;
          qcd_systematics := systematics |}.

(** [QCD.events]. *)
Definition QCD_events (E : Env) (self : QCD) (category : Category)
    (region : string) (cuts_arg : option Cut) (systematic : systematic)
    (raw : bool) : res Qc :=
  data ← Data_events E (qcd_data self) category (qcd_shape_region self) cuts_arg;
  mc_subtract ← foldlM (fun mc_subtract '(mc_scale, mc) =>
      ev ← MC_events E mc category (qcd_shape_region self) cuts_arg
             systematic true mc_scale raw;
      mret (mc_subtract + ev))
    0 (zip (qcd_mc_scales self) (qcd_mc self));
  if raw then mret (qcd_data_scale self * data + mc_subtract)
  else mret ((qcd_data_scale self * data - mc_subtract) * s_scale self).

(** The normalisation applied to the entry of a systematic term. *)
Definition qcd_term_scale (self : QCD) (sys_term : systematic) : Qc :=
  if decide (sys_term = QCDFIT_UP) then s_scale self + qcd_scale_error self
  else if decide (sys_term = QCDFIT_DOWN) then s_scale self - qcd_scale_error self
  else s_scale self.

(** [QCD.draw_into] and [QCD.draw_array], the loop over
    [MC_bkg.systematics.items()]. *)
Definition qcd_propagate (self : QCD) (data_hist : bins)
    (hist_systematics : gmap systematic bins) (it : systematic * bins)
  : gmap systematic bins :=
  let scale := qcd_term_scale self it.1 in
  let qcd_hist :=
    bins_scale (bins_sub (bins_scale data_hist (qcd_data_scale self)) it.2) scale in
  sys_accumulate hist_systematics it.1 qcd_hist.

(** The histogram update shared by [QCD.draw_into] and [QCD.draw_array]:
    [h += (d_h * data_scale - mc_h) * scale], then the systematics. *)
Definition qcd_combine (self : QCD) (propagate : bool) (h mc_h d_h : Hist) : Hist :=
  let nominal :=
    bins_add (h_bins h)
      (bins_scale (bins_sub (bins_scale (h_bins d_h) (qcd_data_scale self))
                            (h_bins mc_h)) (s_scale self)) in
  match h_systematics mc_h with
  | Some mc_sys =>
      if propagate then
        {| h_bins := nominal;
           h_systematics :=
             Some (foldl (qcd_propagate self (h_bins d_h))
                         (default ∅ (h_systematics h)) (map_to_list mc_sys)) |}
      else {| h_bins := nominal; h_systematics := h_systematics h |}
  | None => {| h_bins := nominal; h_systematics := h_systematics h |}
  end.

Definition Clone_Reset (h : Hist) : Hist :=
  {| h_bins := bins_reset (h_bins h); h_systematics := None |}.

Definition Clone (h : Hist) : Hist :=
  {| h_bins := h_bins h; h_systematics := None |}.

(** [QCD.draw_into]. *)
Definition QCD_draw_into (E : Env) (self : QCD) (hist : Hist) (expr : Expr)
    (category : Category) (region : string) (cuts_arg : option Cut)
    (weighted systematics : bool) : res Hist :=
  MC_bkg ← foldlM (fun MC_bkg '(mc_scale, mc) =>
      MC_draw_into E mc MC_bkg expr category (qcd_shape_region self) cuts_arg
        weighted systematics mc_scale)
    (Clone_Reset hist) (zip (qcd_mc_scales self) (qcd_mc self));
  data_hist ← Data_draw_into E (qcd_data self) (Clone_Reset hist) expr category
                 (qcd_shape_region self) cuts_arg;
  mret (qcd_combine self true hist MC_bkg data_hist).

(** The [draw_array] methods of the components of a [QCD] sample, which fill
    the histograms of a dict in place through numpy; the arguments that
    [QCD.draw_array] only forwards ([field_scale], [weight_hist], [weight_clf],
    [scores]) are part of the closure. *)
Record ArrayFill : Type := {
  MC_draw_array :
    MC -> gmap string Hist -> Category -> string -> option Cut -> bool ->
    bool -> Qc -> res (gmap string Hist);
  Data_draw_array :
    Data -> gmap string Hist -> Category -> string -> option Cut -> bool ->
    bool -> res (gmap string Hist)
}.

(** [QCD.draw_array]. *)
Definition QCD_draw_array (F : ArrayFill) (self : QCD)
    (field_hist : gmap string Hist) (category : Category) (region : string)
    (cuts_arg : option Cut) (weighted systematics : bool)
  : res (gmap string Hist) :=
  let do_systematics := qcd_systematics self && systematics in
  field_hist_MC_bkg ← foldlM (fun fh '(mc_scale, mc) =>
      MC_draw_array F mc fh category (qcd_shape_region self) cuts_arg
        weighted systematics mc_scale)
    (Clone <$> field_hist) (zip (qcd_mc_scales self) (qcd_mc self));
  field_hist_data ← Data_draw_array F (qcd_data self) (Clone <$> field_hist)
                      category (qcd_shape_region self) cuts_arg weighted systematics;
  foldlM (fun fh '(expr, h) =>
            mc_h ← getitem field_hist_MC_bkg expr;
            d_h ← getitem field_hist_data expr;
            mret (<[expr := qcd_combine self do_systematics h mc_h d_h]> fh))
         field_hist (map_to_list field_hist).

(** [np.hstack(recs)], which needs at least one array. *)
Definition np_hstack (recs : list RecArray) : res (list (nat * nat * Row)) :=
  match recs with
  | [] => Raise (ValueError "need at least one array to concatenate")
  | _ => Ok (hstack recs)
  end.

(** [Sample.merged_records]; [records] is the method [records] of the class
    of [self] applied to every argument but the keyword arguments that it
    forwards to the tables. *)
Definition merged_records (records : kwargs -> res (list RecArray))
  : res (list (nat * nat * Row)) :=
  recs ← records None; np_hstack recs.

(** [Sample.partitioned_records]: partition [start] reads the rows
    [start, start + num_partitions, ...] of every table. *)
Definition partitioned_records (records : kwargs -> res (list RecArray))
    (num_partitions : nat) : res (list (list (nat * nat * Row))) :=
  mapM_res (fun start =>
              recs ← records (Some (start, num_partitions)); np_hstack recs)
           (seq 0 num_partitions).

(** The two methods on an [MC] sample; [records] is called with its default
    [scale=1.]. *)
Definition MC_merged_records (E : Env) (self : MC) (category : Category)
    (region : string) (fields : option (list string)) (cuts_arg : option Cut)
    (include_weight : bool) (systematic : systematic) : res (list (nat * nat * Row)) :=
  merged_records (MC_records E self category region fields cuts_arg include_weight
                    systematic 1).

Definition MC_partitioned_records (E : Env) (self : MC) (category : Category)
    (region : string) (fields : option (list string)) (cuts_arg : option Cut)
    (include_weight : bool) (systematic : systematic) (num_partitions : nat)
  : res (list (list (nat * nat * Row))) :=
  partitioned_records (MC_records E self category region fields cuts_arg
                         include_weight systematic 1) num_partitions.

(** [for partition in array: partition['weight'] *= s]: the field [weight]
    of every row is multiplied in place; a row without that field raises. *)
Definition rec_imul_weight (s : Qc) (ra : RecArray) : res RecArray :=
  match ra_rows ra with
  | [] => Ok ra
  | _ =>
      if decide ("weight" ∈ ra_cols ra) then
        Ok {| ra_source := ra_source ra;
              ra_cols := ra_cols ra;
              ra_rows := (fun x => (x.1, <["weight" := row_get x.2 "weight" * s]> x.2))
                           <$> ra_rows ra |}
      else Raise (ValueError "no field of that name")
  end.

(** [QCD.records]: the records of the data in the shape region, then those
    of every MC component with their weights negated, all weights multiplied
    by the normalisation of the systematic. *)
Definition QCD_records (E : Env) (self : QCD) (category : Category)
    (region : string) (fields : option (list string)) (cuts_arg : option Cut)
    (include_weight : bool) (systematic : systematic) (kw : kwargs)
  : outcome (list RecArray) :=
  _ ← py_assert include_weight;
  of_res (
    data_records ← Data_records E (qcd_data self) category (qcd_shape_region self)
                     fields cuts_arg include_weight NOMINAL kw;
    arrays ← foldlM (fun arrays '(mc_scale, mc) =>
        _arrays ← MC_records E mc category (qcd_shape_region self) fields cuts_arg
                    include_weight systematic mc_scale kw;
        _arrays ← mapM_res (rec_imul_weight (- (1))) _arrays;
        mret (arrays ++ _arrays))
      data_records (zip (qcd_mc_scales self) (qcd_mc self));
    mapM_res (rec_imul_weight (qcd_term_scale self systematic)) arrays).

(** *** Construction *)

(** [self.__class__.__name__]. *)
Definition class_name (c : pyclass) : string :=
  match c with
  | C_Sample => "Sample"
  | C_Data => "Data"
  | C_Signal => "Signal"
  | C_Background => "Background"
  | C_MC => "MC"
  | C_Ztautau => "Ztautau"
  | C_MC_Ztautau => "MC_Ztautau"
  | C_Embedded_Ztautau => "Embedded_Ztautau"
  | C_EWK => "EWK"
  | C_Top => "Top"
  | C_Diboson => "Diboson"
  | C_Others => "Others"
  | C_Higgs => "Higgs"
  | C_QCD => "QCD"
  end.

(** What [MC.__init__] reads: the sample database, the ROOT file and the
    HDF5 file of the student, the cross sections, and two constants of
    sibling modules. *)
Record Files : Type := {
  (** [samples_db.get_sample('hadhad', year, 'background', key)['samples']] *)
  get_sample : Z -> string -> res (list string);
  (** [self.db[name]], with its [xsec_kfact_effic] *)
  db : string -> res (Qc * Qc * Qc);
  (** [rfile.Get(name)] *)
  rfile_Get : string -> res Tree;
  (** [CachedTable.hook(getattr(h5file.root, name))] *)
  h5file_root : string -> res Table;
  (** [rfile.Get(name)[bin]] for a cutflow histogram *)
  cutflow : string -> Z -> res Qc;
  (** [samples_db.get_systematics('hadhad', year, name)]; [None] and an
      empty collection are both falsy and written [[]] *)
  get_systematics : Z -> string -> list (list string) * pydict string;
  SYSTEMATICS_TERMS : list (list string);
  (** [yellowhiggs.xsbr(energy, mass, mode, 'tautau')[0]] *)
  xsbr : Z -> Z -> string -> res Qc;
  TAUTAUHADHADBR : Qc
}.

(** [Sample.__init__]: the collision energy of a year. *)
Definition energy (year : Z) : Z := (if decide (year = 2011) then 7 else 8)%Z.

Definition MODES_DICT : pydict (string * string * string) :=
  [("gg", ("ggf", "PowHegPythia_", "PowHegPythia8_AU2CT10_"));
   ("VBF", ("vbf", "PowHegPythia_", "PowHegPythia8_AU2CT10_"));
   ("Z", ("zh", "Pythia", "Pythia8_AU2CTEQ6L1_"));
   ("W", ("wh", "Pythia", "Pythia8_AU2CTEQ6L1_"))].

(** The three dicts [trees], [tables] and [weighted_events] of a dataset
    under construction. *)
Record Dicts : Type := {
  d_trees : gmap systematic (option Tree);
  d_tables : gmap systematic (option Table);
  d_events : gmap systematic (option Qc)
}.

(** The three assignments [trees[k] = rfile.Get(name)],
    [tables[k] = CachedTable.hook(getattr(h5file.root, name))] and
    [weighted_events[k] = rfile.Get(name + '_cutflow')[events_bin]]. *)
Definition read_entry (F : Files) (events_bin : Z) (d : Dicts) (k : systematic)
    (name : string) : res Dicts :=
  tree ← rfile_Get F name;
  table ← h5file_root F name;
  events ← cutflow F (name +:+ "_cutflow") events_bin;
  mret {| d_trees := <[k := Some tree]> (d_trees d);
          d_tables := <[k := Some table]> (d_tables d);
          d_events := <[k := Some events]> (d_events d) |}.

(** [trees[term] = None; tables[term] = None; weighted_events[term] = None]. *)
Definition flag_entry (d : Dicts) (term : list string) : Dicts :=
  {| d_trees := <[SysTuple term := None]> (d_trees d);
     d_tables := <[SysTuple term := None]> (d_tables d);
     d_events := <[SysTuple term := None]> (d_events d) |}.

(** [set(term) & set(sys_term)] is not empty. *)
Definition overlap (term sys_term : list string) : bool :=
  existsb (fun x => bool_decide (x ∈ sys_term)) term.

(** The loop that merges a term of the database with the first unused term
    that shares a name with it, when that one is longer. *)
Definition merge_term (unused_terms : list (list string)) (sys_term : list string)
  : list string :=
  match list_find (fun term => overlap term sys_term = true) unused_terms with
  | Some (_, term) =>
      if decide (length sys_term < length term)%nat then term else sys_term
  | None => sys_term
  end.

(** [name.replace('.', '_').replace('-', '_')]. *)
Definition treename_of (name : string) : string :=
  replace_char "-" "_" (replace_char "." "_" name).

(** [MC.__init__], the body of the loop over [systematics_terms]. *)
Definition add_systematics_term (F : Files) (events_bin : Z) (treename : string)
    (st : Dicts * list (list string)) (sys_term : list string)
  : res (Dicts * list (list string)) :=
  let actual_sys_term := sys_term in
  let sys_term := merge_term st.2 sys_term in
  let sys_name := treename +:+ "_" +:+ join_with "_" actual_sys_term in
  d ← read_entry F events_bin st.1 (SysTuple sys_term) sys_name;
  unused_terms ← pylist_remove sys_term st.2;
  mret (d, unused_terms).

(** [MC.__init__], the body of the loop over [systematics_samples.items()]. *)
Definition add_systematics_sample (F : Files) (events_bin : Z)
    (st : Dicts * list (list string)) (it : string * string)
  : res (Dicts * list (list string)) :=
  let sys_term := split_on "," it.2 in
  _ ← db F it.1;
  let sample_name := treename_of it.1 in
  d ← read_entry F events_bin st.1 (SysTuple sys_term) sample_name;
  unused_terms ← pylist_remove sys_term st.2;
  mret (d, unused_terms).

(** [MC.__init__], the body of the loop over [enumerate(self.samples)];
    [masses] and [modes] are the attributes of a [Higgs] sample. *)
Definition init_dataset (F : Files) (cls : pyclass) (year : Z) (systematics : bool)
    (masses : list Z) (modes : list string) (it : nat * string) : res Dataset :=
  let i := it.1 in
  let name := it.2 in
  ds ← db F name;
  let treename := treename_of name in
  let events_bin := events_bin cls in
  d ← read_entry F events_bin {| d_trees := ∅; d_tables := ∅; d_events := ∅ |}
         NOMINAL treename;
  d ← (if systematics then
         let '(systematics_terms, systematics_samples) :=
           get_systematics F year name in
         st ← foldlM (add_systematics_term F events_bin treename)
                (d, SYSTEMATICS_TERMS F) systematics_terms;
         st ← foldlM (add_systematics_sample F events_bin) st systematics_samples;
         mret (foldl flag_entry st.1 st.2)
       else Ok d);
  '(xs, kfact, effic) ←
    (if issubclass cls C_Higgs then
       mass ← list_getitem masses i;
       mode ← list_getitem modes i;
       m ← pydict_get MODES_DICT mode;
       xs ← xsbr F (energy year) mass m.1.1;
       mret (xs * TAUTAUHADHADBR F, 1, 1)
     else if issubclass cls C_Embedded_Ztautau then Ok (1, 1, 1)
     else Ok ds);
  mret {| ds_name := name;
          ds_trees := d_trees d;
          ds_tables := d_tables d;
          ds_events := d_events d;
          ds_xs := xs; ds_kfact := kfact; ds_effic := effic |}.

(** [MC.__init__]; [samples], [masses] and [modes] are the attributes that
    the constructor of a [Signal] subclass has set before it calls this
    one. *)
Definition MC_init (F : Files) (cls : pyclass) (year : Z) (systematics : bool)
    (scale : Qc) (cuts : option Cut) (samples : list string) (masses : list Z)
    (modes : list string) : outcome MC :=
  samples ←
    (if issubclass cls C_Background then
       of_res (get_sample F year (lower (class_name cls)))
     else if issubclass cls C_Signal then
       _ ← py_assert (bool_decide (0 < length samples)%nat); Return samples
     else Fail (Exn (TypeError ("MC sample " +:+ class_name cls
                                +:+ " does not inherit from Signal or Background"))));
  datasets ← of_res (mapM_res (init_dataset F cls year systematics masses modes)
                       (indexed samples));
  Return {| mc_base := {| s_class := cls; s_year := year; s_scale := scale;
                          s_cuts := default CEmpty cuts |};
            mc_scale_error := 0;
            mc_systematics := systematics;
            mc_datasets := datasets |}.

(** [range(100, 155, 5)]. *)
Definition MASS_POINTS : list Z :=
  [100; 105; 110; 115; 120; 125; 130; 135; 140; 145; 150]%Z.

Definition MODES : list string := ["Z"; "W"; "gg"; "VBF"].

Record Higgs : Type := {
  higgs_base :> MC;
  higgs_name : string;
  higgs_samples : list string;
  higgs_masses : list Z;
  higgs_modes : list string
}.

(** [Higgs.__init__], the choice of [masses] (and, with the other constants,
    of [modes]) from the two optional arguments. *)
Definition choose `{EqDecision A} (points : list A) (one : option A)
    (many : option (list A)) : outcome (list A) :=
  match many with
  | None =>
      match one with
      | Some x => _ ← py_assert (bool_decide (x ∈ points)); Return [x]
      | None => Return points
      end
  | Some xs =>
      _ ← py_assert (bool_decide (0 < length xs)%nat);
      _ ← py_assert (forallb (fun x => bool_decide (x ∈ points)) xs);
      _ ← py_assert (bool_decide (length (remove_dups xs) = length xs));
      Return xs
  end.

(** ['%s%sH%d_tautauhh.%s' % (generator, mode, mass, suffix)]. *)
Definition sample_name (generator mode : string) (mass : Z) (suffix : string) : string :=
  generator +:+ mode +:+ "H" +:+ pretty mass +:+ "_tautauhh." +:+ suffix.

(** [Higgs.__init__]. *)
Definition Higgs_init (F : Files) (year : Z) (mode : option string)
    (modes : option (list string)) (mass : option Z) (masses : option (list Z))
    (systematics : bool) (scale : Qc) (cuts : option Cut) : outcome Higgs :=
  masses ← choose MASS_POINTS mass masses;
  modes ← choose MODES mode modes;
  let name :=
    match modes with
    | [m] => "Signal_" +:+ m
    | _ => "Signal"
    end in
  '(suffix, generator_index) ←
    (if decide (year = 2011%Z) then Return ("mc11c", 1%nat)
     else if decide (year = 2012%Z) then Return ("mc12a", 2%nat)
     else Fail (Exn (ValueError ("No Higgs defined for year " +:+ pretty year))));
  entries ← of_res (foldlM (fun acc mode =>
      m ← pydict_get MODES_DICT mode;
      let generator := if decide (generator_index = 1%nat) then m.1.2 else m.2 in
      mret (acc ++ ((fun mass => (sample_name generator mode mass suffix, mass, mode))
                      <$> masses)))
    [] modes);
  let samples := (fun e : string * Z * string => e.1.1) <$> entries in
  let masses := (fun e : string * Z * string => e.1.2) <$> entries in
  let modes := (fun e : string * Z * string => e.2) <$> entries in
  mc ← MC_init F C_Higgs year systematics scale cuts samples masses modes;
  Return {| higgs_base := mc;
            higgs_name := name;
            higgs_samples := samples;
            higgs_masses := masses;
            higgs_modes := modes |}.

(** The property [Higgs.mode]. *)
Definition Higgs_mode (self : Higgs) : outcome string :=
  match higgs_modes self with
  | [m] => Return m
  | _ => Fail (RuntimeError "Attempting to access mode for composite Higgs sample")
  end.

End samples.

(** * [src/mva/samples/sample.py] *)

Module sample.

(** The classes of the module; [Ztautau] lives in a sibling module, and a
    sample records whether it is an instance of it. *)
Inductive pyclass : Type :=
| C_Sample | C_SystematicsSample | C_MC.

#[global] Instance pyclass_eq_dec : EqDecision pyclass.
Proof. solve_decision. Defined.

Record Dataset : Type := {
  ds_name : string;
  ds_trees : gmap systematic Tree;
  ds_tables : gmap systematic Table;
  ds_events : gmap systematic Qc;
  ds_xs : Qc;
  ds_kfact : Qc;
  ds_effic : Qc
}.

Record Sample : Type := {
  s_class : pyclass;
  s_Ztautau : bool;
  s_Embedded_Ztautau : bool;
  s_year : Z;
  s_scale : Qc;
  s_scale_error : Qc;
  s_cuts : Cut;
  s_trigger : bool;
  s_systematics : bool;
  s_datasets : list Dataset
}.

(** What the module imports from [systematics], [lumi], [regions] and ROOT,
    the order in which the interpreter iterates a dict, and the method
    [iter_weight_branches], which [draw_into] calls on [self] and no class of
    the module defines. *)
Record Env : Type := {
  LUMI : Z -> Qc;
  REGIONS : gmap string Cut;
  SYSTEMATICS_BY_WEIGHT : list systematic;
  iter_systematics : bool -> Z -> option (list string) -> list systematic;
  dict_items : forall V : Type, pydict V -> pydict V;
  iter_weight_branches : Sample -> res (list (list string * systematic));
  Draw : Tree -> string -> WeightedSel -> bins -> bins
}.

(** [SystematicsSample.__init__]: the bin of the cutflow histogram holding
    the weighted number of events. *)
Definition events_bin (self : Sample) : Z :=
  if s_Embedded_Ztautau self then 1 else 2.

Definition is_SystematicsSample (self : Sample) : bool :=
  bool_decide (s_class self ≠ C_Sample).

(** [SystematicsSample.get_sys_term_variation]. *)
Definition get_sys_term_variation (systematic : systematic)
  : res (option string * string) :=
  match systematic with
  | NOMINAL => Ok (None, "NOMINAL")
  | SysTuple [] => Raise IndexError
  | SysTuple [t] =>
      match rsplit1 underscore t with
      | [systerm; variation] => Ok (Some systerm, variation)
      | _ => Raise (ValueError "wrong number of values to unpack")
      end
  | SysTuple _ => Ok (None, "NOMINAL")
  end.

(** [weight_fields]: a new list at every call. *)
Definition weight_fields (self : Sample) : list string :=
  match s_class self with
  | C_MC => [] ++ ["mc_weight"; "pileup_weight"; "ggf_weight"]
  | _ => []
  end.

Definition variations3 (up down nominal : list string) : pydict (list string) :=
  [("UP", up); ("DOWN", down); ("NOMINAL", nominal)].

(** [d.update({k: v})] on a dict kept in insertion order. *)
Fixpoint pydict_update {V} (d : pydict V) (k : string) (v : V) : pydict V :=
  match d with
  | [] => [(k, v)]
  | (k', v') :: d' =>
      if decide (k' = k) then (k, v) :: d' else (k', v') :: pydict_update d' k v
  end.

(** [weight_systematics]: a new dict at every call. *)
Definition weight_systematics (self : Sample) : pydict (pydict (list string)) :=
  let base :=
    [("FAKERATE",
      variations3 ["tau1_fakerate_sf_high"; "tau2_fakerate_sf_high"]
                  ["tau1_fakerate_sf_low"; "tau2_fakerate_sf_low"]
                  ["tau1_fakerate_sf"; "tau2_fakerate_sf"]);
     ("TAUID",
      variations3 ["tau1_id_sf_high"; "tau2_id_sf_high"]
                  ["tau1_id_sf_low"; "tau2_id_sf_low"]
                  ["tau1_id_sf"; "tau2_id_sf"])] in
  match s_class self with
  | C_MC =>
      pydict_update base "TRIGGER"
        (variations3 ["tau1_trigger_sf_high"; "tau2_trigger_sf_high"]
                     ["tau1_trigger_sf_low"; "tau2_trigger_sf_low"]
                     ["tau1_trigger_sf"; "tau2_trigger_sf"])
  | _ => base
  end.

(** [cut_systematics]. *)
Definition cut_systematics (self : Sample) : pydict (pydict Cut) := [].

Definition term_matches (term : string) (systerm : option string) : bool :=
  bool_decide (systerm = Some term).

(** [l.remove(x)]: the first occurrence, or [ValueError]. *)
Fixpoint list_remove (x : string) (l : list string) : res (list string) :=
  match l with
  | [] => Raise (ValueError "list.remove(x): x not in list")
  | y :: l' => if decide (y = x) then Ok l' else (y ::.) <$> list_remove x l'
  end.

(** The trigger correction at the end of [Sample.weights]. *)
Definition trigger_hack (self : Sample) (weight_fields : list string)
  : res (list string) :=
  if negb (s_trigger self) && bool_decide ("tau1_trigger_sf" ∈ weight_fields) then
    wf ← list_remove "tau1_trigger_sf" weight_fields;
    wf ← list_remove "tau2_trigger_sf" wf;
    mret (wf ++ ["tau1_trigger_eff"; "tau2_trigger_eff"])
  else Ok weight_fields.

(** [Sample.weights], read as a function of its arguments. *)
Definition weights (E : Env) (self : Sample) (systematic : systematic)
  : res (list string) :=
  wf ←
    (if is_SystematicsSample self then
       '(systerm, variation) ← get_sys_term_variation systematic;
       foldlM (fun wf '(term, variations) =>
                 v ← pydict_get variations
                       (if term_matches term systerm then variation else "NOMINAL");
                 mret (wf ++ v))
              (weight_fields self) (dict_items E _ (weight_systematics self))
     else Ok (weight_fields self));
  trigger_hack self wf.

(** [Sample.cuts], read as a function of its arguments. *)
Definition cuts (E : Env) (self : Sample) (category : option Category)
    (region : option string) (systematic : systematic) : res Cut :=
  let c := s_cuts self in
  let c := match category with
           | Some cat => cut_and c (get_cuts cat (s_year self))
           | None => c
           end in
  c ← match region with
      | Some r => reg ← getitem (REGIONS E) r; mret (cut_and c reg)
      | None => Ok c
      end;
  let c := if s_trigger self then cut_and c (CVar "trigger") else c in
  if is_SystematicsSample self then
    '(systerm, variation) ← get_sys_term_variation systematic;
    foldlM (fun c '(term, variations) =>
              v ← pydict_get variations
                    (if term_matches term systerm then variation else "NOMINAL");
              mret (cut_and c v))
           c (dict_items E _ (cut_systematics self))
  else Ok c.

(** *** The same two methods with their Python objects

    [weights] extends the list that [weight_fields] returns in place, and
    [cuts] and-assigns into a copy of [self._cuts].  The store holds the
    lists and cuts; a location is a position in it. *)

Inductive obj : Type :=
| OList (l : list string)
| OCut (c : Cut).

Abbreviation heap := (list obj).

Definition M (A : Type) : Type := heap -> res A * heap.

#[global] Instance M_ret : MRet M := fun A a h => (Ok a, h).
#[global] Instance M_bind : MBind M := fun A B f m h =>
  match m h with
  | (Ok a, h') => f a h'
  | (Raise e, h') => (Raise e, h')
  end.

Definition lift {A} (r : res A) : M A := fun h => (r, h).

Definition new (o : obj) : M nat := fun h => (Ok (length h), h ++ [o]).

Definition get_list (l : nat) : M (list string) := fun h =>
  match h !! l with
  | Some (OList x) => (Ok x, h)
  | _ => (Raise (TypeError "not a list"), h)
  end.

Definition get_cut (l : nat) : M Cut := fun h =>
  match h !! l with
  | Some (OCut c) => (Ok c, h)
  | _ => (Raise (TypeError "not a Cut"), h)
  end.

Definition set_obj (l : nat) (o : obj) : M unit := fun h => (Ok tt, <[l := o]> h).

(** [l += xs] on a list object. *)
Definition list_iadd (l : nat) (xs : list string) : M unit :=
  x ← get_list l; set_obj l (OList (x ++ xs)).

(** [c &= other] on a cut object. *)
Definition cut_iand (l : nat) (other : Cut) : M unit :=
  c ← get_cut l; set_obj l (OCut (cut_and c other)).

Fixpoint forM_ {A} (f : A -> M unit) (l : list A) : M unit :=
  match l with
  | [] => mret tt
  | x :: l' => _ ← f x; forM_ f l'
  end.

Definition weight_fields_st (self : Sample) : M nat :=
  match s_class self with
  | C_MC =>
      base ← new (OList []);
      x ← get_list base;
      new (OList (x ++ ["mc_weight"; "pileup_weight"; "ggf_weight"]))
  | _ => new (OList [])
  end.

Definition trigger_hack_st (self : Sample) (wf : nat) : M unit :=
  x ← get_list wf;
  if negb (s_trigger self) && bool_decide ("tau1_trigger_sf" ∈ x) then
    x1 ← lift (list_remove "tau1_trigger_sf" x);
    _ ← set_obj wf (OList x1);
    x2 ← lift (list_remove "tau2_trigger_sf" x1);
    _ ← set_obj wf (OList x2);
    set_obj wf (OList (x2 ++ ["tau1_trigger_eff"; "tau2_trigger_eff"]))
  else mret tt.

(** [Sample.weights]; the result is the location of the returned list. *)
Definition weights_st (E : Env) (self : Sample) (systematic : systematic) : M nat :=
  wf ← weight_fields_st self;
  _ ← (if is_SystematicsSample self then
         '(systerm, variation) ← lift (get_sys_term_variation systematic);
         forM_ (fun '(term, variations) =>
                  v ← lift (pydict_get variations
                        (if term_matches term systerm then variation else "NOMINAL"));
                  list_iadd wf v)
               (dict_items E _ (weight_systematics self))
       else mret tt);
  _ ← trigger_hack_st self wf;
  mret wf.

(** [Sample.cuts]; [self_cuts] is the location of [self._cuts], the result
    the location of the returned cut. *)
Definition cuts_st (E : Env) (self : Sample) (self_cuts : nat)
    (category : option Category) (region : option string)
    (systematic : systematic) : M nat :=
  c0 ← get_cut self_cuts;
  c ← new (OCut c0);
  _ ← match category with
      | Some cat => cut_iand c (get_cuts cat (s_year self))
      | None => mret tt
      end;
  _ ← match region with
      | Some r => reg ← lift (getitem (REGIONS E) r); cut_iand c reg
      | None => mret tt
      end;
  _ ← (if s_trigger self then cut_iand c (CVar "trigger") else mret tt);
  _ ← (if is_SystematicsSample self then
         '(systerm, variation) ← lift (get_sys_term_variation systematic);
         forM_ (fun '(term, variations) =>
                  v ← lift (pydict_get variations
                        (if term_matches term systerm then variation else "NOMINAL"));
                  cut_iand c v)
               (dict_items E _ (cut_systematics self))
       else mret tt);
  mret c.

(** The value of a returned location in a store. *)
Definition list_at (h : heap) (r : res nat) : res (list string) :=
  l ← r; match h !! l with Some (OList x) => Ok x | _ => Raise (TypeError "not a list") end.

Definition cut_at (h : heap) (r : res nat) : res Cut :=
  l ← r; match h !! l with Some (OCut c) => Ok c | _ => Raise (TypeError "not a Cut") end.

(** *** Retrieval *)

(** [try: sys_tables[systematic]; sys_events[systematic]
     except KeyError: the NOMINAL pair]. *)
Definition lookup_or_nominal {V} (d : gmap systematic V) (events : gmap systematic Qc)
    (systematic : systematic) : res (V * Qc) :=
  match d !! systematic, events !! systematic with
  | Some v, Some ev => Ok (v, ev)
  | _, _ => v ← getitem d NOMINAL; ev ← getitem events NOMINAL; mret (v, ev)
  end.

(** The scale of a dataset weight: shifted for the fit terms of Ztautau. *)
Definition actual_scale (self : Sample) (systematic : systematic) : Qc :=
  if s_Ztautau self then
    if decide (systematic = ZFIT_UP) then s_scale self + s_scale_error self
    else if decide (systematic = ZFIT_DOWN) then s_scale self - s_scale_error self
    else s_scale self
  else s_scale self.

(** The per-row product [reduce(np.multiply, [rec[br] for br in branches])]. *)
Definition branch_product (rec : RecArray) (wb : list string) : res (Row -> Qc) :=
  cols ← mapM_res (rec_column rec) wb;
  match cols with
  | [] => Raise (TypeError "reduce() of empty sequence with no initial value")
  | c :: cols' => Ok (fun r => foldl (fun acc f => acc * f r) (c r) cols')
  end.

(** The read of [SystematicsSample.records]. *)
Definition read_table (table : Table) (table_selection : Cut) (kw : kwargs)
  : res (list (nat * Row)) :=
  if cut_is_empty table_selection then table_read table kw
  else read_where table table_selection kw.

(** [SystematicsSample.records], from the rows read to the record array:
    the weight column, then the projection on the fields. *)
Definition weighted_record (source : nat) (table : Table) (weight : Qc)
    (weight_branches : list string) (fields : option (list string))
    (include_weight : bool) (rows : list (nat * Row)) : res RecArray :=
  let rec := {| ra_source := source; ra_cols := tbl_cols table; ra_rows := rows |} in
  rec ←
    (if include_weight then
       prod ← branch_product rec weight_branches;
       mret (rec_append_weight rec (fun r => weight * prod r))
     else Ok rec);
  match fields with Some fs => rec_project rec fs | None => Ok rec end.

(** [SystematicsSample.records], the body of the loop over the datasets, with
    [return_idx=False]; a read that raises is printed and the dataset is left
    out ([continue]). *)
Definition records_dataset (E : Env) (self : Sample) (table_selection : Cut)
    (weight_branches : list string) (fields : option (list string))
    (include_weight : bool) (systematic : systematic) (scale : Qc) (kw : kwargs)
    (recs : list RecArray) (ids : nat * Dataset) : res (list RecArray) :=
  let ds := ids.2 in
  '(table, events) ← lookup_or_nominal (ds_tables ds) (ds_events ds) systematic;
  weight ← pydiv (scale * actual_scale self systematic * LUMI E (s_year self)
                  * ds_xs ds * ds_kfact ds * ds_effic ds) events;
  match read_table table table_selection kw with
  | Raise _ => Ok recs
  | Ok rows =>
      rec ← weighted_record ids.1 table weight weight_branches fields
              include_weight rows;
      mret (recs ++ [rec])
  end.

(** [SystematicsSample.records]. *)
Definition records (E : Env) (self : Sample) (category : option Category)
    (region : option string) (fields : option (list string))
    (cuts_arg : option Cut) (include_weight : bool) (systematic : systematic)
    (scale : Qc) (kw : kwargs) : res (list RecArray) :=
  let fields := fields_with_weight include_weight fields in
  c ← cuts E self category region systematic;
  let table_selection := cut_and_opt c cuts_arg in
  weight_branches ← weights E self systematic;
  let systematic :=
    if bool_decide (systematic ∈ SYSTEMATICS_BY_WEIGHT E) then NOMINAL
    else systematic in
  foldlM (records_dataset E self table_selection weight_branches fields
            include_weight systematic scale kw)
         [] (indexed (s_datasets self)).

(** [np.hstack(recs)], which needs at least one array. *)
Definition np_hstack (recs : list RecArray) : res (list (nat * nat * Row)) :=
  match recs with
  | [] => Raise (ValueError "need at least one array to concatenate")
  | _ => Ok (hstack recs)
  end.

(** The cut of partition [start] on the values of [key]. *)
Definition partition_cut (key : string) (num_partitions start : nat) : Cut :=
  CKeyRange key (Z.of_nat num_partitions) (Z.of_nat start) (Z.of_nat (start + 1)).

(** [Sample.partitioned_records] on a [SystematicsSample], with
    [return_idx=False]. *)
Definition partitioned_records (E : Env) (self : Sample)
    (category : option Category) (region : option string)
    (fields : option (list string)) (cuts_arg : option Cut)
    (include_weight : bool) (systematic : systematic) (key : option string)
    (num_partitions : nat) : res (list (list (nat * nat * Row))) :=
  mapM_res (fun start =>
      recs ←
        match key with
        | None =>
            records E self category region fields cuts_arg include_weight
              systematic 1 (Some (start, num_partitions))
        | Some k =>
            records E self category region fields
              (Some (cut_and_opt (partition_cut k num_partitions start) cuts_arg))
              include_weight systematic 1 None
        end;
      np_hstack recs)
    (seq 0 num_partitions).

(** *** Histograms *)

Definition draw_exprs (E : Env) (t : Tree) (exprs : list string)
    (sel : WeightedSel) (hist : bins) : bins :=
  foldl (fun h e => Draw E t e sel h) hist exprs.

(** [SystematicsSample.draw_into], the loop over the systematic terms. *)
Definition sys_term_step (E : Env) (self : Sample) (selection : Cut)
    (exprs : list string) (scale : Qc) (ds : Dataset) (current_hist : bins)
    (sys_hists : gmap systematic bins) (sys_term : systematic)
  : res (gmap systematic bins) :=
  sys_hist ←
    match ds_trees ds !! sys_term with
    | Some sys_tree =>
        sys_event ← getitem (ds_events ds) sys_term;
        sys_weight ← pydiv (LUMI E (s_year self) * scale * s_scale self
                            * ds_xs ds * ds_kfact ds * ds_effic ds) sys_event;
        wb ← weights E self NOMINAL;
        mret (draw_exprs E sys_tree exprs
                {| wsel_weight := sys_weight; wsel_branches := BName <$> wb;
                   wsel_cut := selection |}
                (bins_reset current_hist))
    | None =>
        if s_Ztautau self then
          if decide (sys_term = ZFIT_UP) then
            f ← pydiv (s_scale self + s_scale_error self) (s_scale self);
            mret (bins_scale current_hist f)
          else if decide (sys_term = ZFIT_DOWN) then
            f ← pydiv (s_scale self - s_scale_error self) (s_scale self);
            mret (bins_scale current_hist f)
          else Ok current_hist
        else Ok current_hist
    end;
  mret (sys_accumulate sys_hists sys_term sys_hist).

(** [SystematicsSample.draw_into], the loop over the weight systematics. *)
Definition weight_step (E : Env) (selection : Cut) (exprs : list string)
    (nominal_tree : Tree) (nominal_weight : Qc) (current_hist : bins)
    (sys_hists : gmap systematic bins) (it : list string * systematic)
  : gmap systematic bins :=
  sys_accumulate sys_hists it.2
    (draw_exprs E nominal_tree exprs
       {| wsel_weight := nominal_weight; wsel_branches := BName <$> it.1;
          wsel_cut := selection |}
       (bins_reset current_hist)).

(** The nominal fill of one dataset: [current_hist]. *)
Definition nominal_fill (E : Env) (self : Sample) (selection : Cut)
    (exprs : list string) (scale : Qc) (hist : bins) (ds : Dataset)
  : res (Tree * Qc * bins) :=
  nominal_tree ← getitem (ds_trees ds) NOMINAL;
  nominal_events ← getitem (ds_events ds) NOMINAL;
  nominal_weight ← pydiv (LUMI E (s_year self) * scale * s_scale self
                          * ds_xs ds * ds_kfact ds * ds_effic ds) nominal_events;
  wb ← weights E self NOMINAL;
  mret (nominal_tree, nominal_weight,
        draw_exprs E nominal_tree exprs
          {| wsel_weight := nominal_weight; wsel_branches := BName <$> wb;
             wsel_cut := selection |}
          (bins_reset hist)).

(** [SystematicsSample.draw_into], the body of the loop over the datasets. *)
Definition draw_into_dataset (E : Env) (self : Sample) (selection : Cut)
    (exprs : list string) (do_systematics : bool)
    (systematics_components : option (list string)) (scale : Qc)
    (st : bins * gmap systematic bins) (ds : Dataset)
  : res (bins * gmap systematic bins) :=
  '(nominal_tree, nominal_weight, current_hist) ←
    nominal_fill E self selection exprs scale st.1 ds;
  let hist := bins_add st.1 current_hist in
  if negb do_systematics then Ok (hist, st.2) else
  sys_hists ← foldlM (sys_term_step E self selection exprs scale ds current_hist)
                 st.2 (iter_systematics E false (s_year self) systematics_components);
  its ← iter_weight_branches E self;
  mret (hist,
        foldl (weight_step E selection exprs nominal_tree nominal_weight current_hist)
              sys_hists its).

Definition exprs_of (expr : Expr) : list string :=
  match expr with Expr1 e => [e] | ExprList es => es end.

(** [SystematicsSample.draw_into]. *)
Definition draw_into (E : Env) (self : Sample) (hist : Hist) (expr : Expr)
    (category : option Category) (region : option string) (cuts_arg : option Cut)
    (systematics : bool) (systematics_components : option (list string))
    (scale : Qc) : res Hist :=
  let do_systematics := s_systematics self && systematics in
  c ← cuts E self category region NOMINAL;
  st ← foldlM (draw_into_dataset E self (cut_and_opt c cuts_arg) (exprs_of expr)
                 do_systematics systematics_components scale)
         (h_bins hist, default ∅ (h_systematics hist)) (s_datasets self);
  mret {| h_bins := st.1;
          h_systematics := if do_systematics then Some st.2 else h_systematics hist |}.

(** [SystematicsSample.events]; [Draw_cut] is [tree.Draw(expr, selection,
    hist=hist)] with a plain cut, and the histogram created when none is
    given has one bin. *)
Definition events (E : Env) (Draw_cut : Tree -> string -> Cut -> bins -> bins)
    (self : Sample) (category : option Category) (region : option string)
    (cuts_arg : option Cut) (systematic : systematic) (weighted : bool)
    (hist : option bins) (scale : Qc) : res bins :=
  foldlM (fun hist ds =>
      '(tree, events) ← lookup_or_nominal (ds_trees ds) (ds_events ds) systematic;
      if weighted then
        weight ← pydiv (LUMI E (s_year self) * s_scale self * ds_xs ds
                        * ds_kfact ds * ds_effic ds) events;
        wb ← weights E self systematic;
        c ← cuts E self category region systematic;
        mret (Draw E tree "1"
                {| wsel_weight := weight * scale; wsel_branches := BName <$> wb;
                   wsel_cut := cut_and_opt c cuts_arg |} hist)
      else
        c ← cuts E self category region systematic;
        mret (Draw_cut tree "1" (cut_and_opt c cuts_arg) hist))
    (default [0] hist) (s_datasets self).

(** *** Construction *)

(** The three dicts [trees], [tables] and [weighted_events] of a dataset
    under construction. *)
Record Dicts : Type := {
  d_trees : gmap systematic Tree;
  d_tables : gmap systematic Table;
  d_events : gmap systematic Qc
}.

(** The three assignments [trees[k] = rfile[name]],
    [tables[k] = CachedTable.hook(getattr(h5file.root, name))] and
    [weighted_events[k] = rfile[name + '_cutflow'][events_bin].value]. *)
Definition read_entry (F : samples.Files) (events_bin : Z) (d : Dicts)
    (k : systematic) (name : string) : res Dicts :=
  tree ← samples.rfile_Get F name;
  table ← samples.h5file_root F name;
  events ← samples.cutflow F (name +:+ "_cutflow") events_bin;
  mret {| d_trees := <[k := tree]> (d_trees d);
          d_tables := <[k := table]> (d_tables d);
          d_events := <[k := events]> (d_events d) |}.

(** [SystematicsSample.__init__], the body of the loop over
    [enumerate(self.samples)]; [xsec_kfact_effic] is the method of that name
    when the class of [self] has one. *)
Definition init_dataset (F : samples.Files) (embedded : bool) (year : Z)
    (systematics : bool) (xsec_kfact_effic : option (nat -> res (Qc * Qc * Qc)))
    (it : nat * string) : res Dataset :=
  let i := it.1 in
  let name := it.2 in
  ds ← samples.db F name;
  let treename := samples.treename_of name in
  let events_bin := (if embedded then 1 else 2)%Z in
  d ← read_entry F events_bin {| d_trees := ∅; d_tables := ∅; d_events := ∅ |}
         NOMINAL treename;
  d ← (if systematics then
         let '(systematics_terms, systematics_samples) :=
           samples.get_systematics F year name in
         d ← foldlM (fun d sys_term =>
                read_entry F events_bin d (SysTuple sys_term)
                  (treename +:+ "_" +:+ join_with "_" sys_term))
              d systematics_terms;
         foldlM (fun d (it : string * string) =>
                   let sys_term := split_on "," it.2 in
                   _ ← samples.db F it.1;
                   read_entry F events_bin d (SysTuple sys_term)
                     (samples.treename_of it.1))
                d systematics_samples
       else Ok d);
  '(xs, kfact, effic) ←
    match xsec_kfact_effic with
    | Some method => method i
    | None => Ok ds
    end;
  mret {| ds_name := name;
          ds_trees := d_trees d;
          ds_tables := d_tables d;
          ds_events := d_events d;
          ds_xs := xs; ds_kfact := kfact; ds_effic := effic |}.

(** [SystematicsSample.__init__]; [background], [signal], [Ztautau] and
    [embedded] say whether the class of [self] derives from the classes of
    these names, [class_name] is its name, [samples] the attribute a [Signal]
    subclass has set, and the remaining arguments are those of
    [Sample.__init__]. *)
Definition SystematicsSample_init (F : samples.Files) (cls : pyclass)
    (background signal Ztautau embedded : bool) (class_name : string)
    (xsec_kfact_effic : option (nat -> res (Qc * Qc * Qc))) (year : Z)
    (systematics : bool) (scale scale_error : Qc) (cuts : option Cut)
    (trigger : bool) (samples : list string) : outcome Sample :=
  samples ←
    (if background then of_res (samples.get_sample F year (lower class_name))
     else if signal then
       _ ← py_assert (bool_decide (0 < length samples)%nat); Return samples
     else Fail (Exn (TypeError ("MC sample " +:+ class_name
                                +:+ " does not inherit from Signal or Background"))));
  datasets ← of_res (mapM_res (init_dataset F embedded year systematics
                                 xsec_kfact_effic) (indexed samples));
  Return {| s_class := cls;
            s_Ztautau := Ztautau;
            s_Embedded_Ztautau := embedded;
            s_year := year;
            s_scale := scale;
            s_scale_error := scale_error;
            s_cuts := default CEmpty cuts;
            s_trigger := trigger;
            s_systematics := systematics;
            s_datasets := datasets |}.

(** [s.replace(old, new)] for a non-empty [old]: the occurrences of [old]
    from the left, none overlapping; [skip] counts the characters of the
    occurrence just replaced that are still to be passed. *)
Fixpoint replace_from (old new : string) (skip : nat) (s : string) : string :=
  match s with
  | EmptyString => EmptyString
  | String c s' =>
      match skip with
      | S k => replace_from old new k s'
      | O =>
          if String.prefix old s
          then new +:+ replace_from old new (String.length old - 1) s'
          else String c (replace_from old new 0 s')
      end
  end.

(** [s.replace(old, new)]; an empty [old] matches before every character
    and at the end. *)
Definition str_replace (old new s : string) : string :=
  match old with
  | EmptyString =>
      new +:+ (fix go (s : string) : string :=
                 match s with
                 | EmptyString => EmptyString
                 | String c s' => String c (new +:+ go s')
                 end) s
  | _ => replace_from old new 0 s
  end.

(** The renamings of [get_workspace_np_name], in the order they are
    applied. *)
Definition NP_RENAMINGS : list (string * string) :=
  [("JES_Detector_2012", "JES_2012_Detector1");
   ("JES_EtaMethod_2012", "JES_2012_Eta_StatMethod");
   ("JES_EtaModelling_2012", "JES_Eta_Modelling");
   ("JES_FlavComp_TAU_G_2012", "JES_FlavComp_TAU_G");
   ("JES_FlavComp_TAU_Q_2012", "JES_FlavComp_TAU_Q");
   ("JES_FlavResp_2012", "JES_FlavResp");
   ("JES_Modelling_2012", "JES_2012_Modelling1");
   ("JES_PURho_TAU_GG_2012", "JES_2012_PileRho_TAU_GG");
   ("JES_PURho_TAU_QG_2012", "JES_2012_PileRho_TAU_QG");
   ("JES_PURho_TAU_QQ_2012", "JES_2012_PileRho_TAU_QQ");
   ("FAKERATE_2012", "TAU_JFAKE_2012");
   ("TAUID_2012", "TAU_ID_2012");
   ("ISOL_2012", "ANA_EMB_ISOL");
   ("MFS_2012", "ANA_EMB_MFS");
   ("MET_RESOSOFTTERMS_2012", "MET_RESOSOFT");
   ("MET_SCALESOFTTERMS_2012", "MET_SCALESOFT")].

(** [get_workspace_np_name]. *)
Definition get_workspace_np_name (sample : Sample) (syst : string) (year : Z)
  : string :=
  let npname := "ATLAS_" +:+ syst +:+ "_" +:+ pretty year in
  let npname := foldl (fun npname r => str_replace r.1 r.2 npname) npname NP_RENAMINGS in
  if s_Embedded_Ztautau sample
  then str_replace "TRIGGER" "TRIGGER_EMB_HH" npname
  else str_replace "TRIGGER" "TRIGGER_HH" npname.

(** [systematics_components], of [SystematicsSample] and of [MC]; the class
    [Sample] has no such method. *)
Definition systematics_components (self : Sample) : res (list string) :=
  let common :=
    ["MET_RESOSOFTTERMS"; "MET_SCALESOFTTERMS"; "TAUID"; "TRIGGER"; "FAKERATE"] in
  let components :=
    if decide (s_year self = 2011%Z)
    then common ++ ["TES_TRUE_FINAL"; "TES_FAKE_FINAL"]
    else common ++ ["TES_TRUE_INSITUINTERPOL"; "TES_TRUE_SINGLEPARTICLEINTERPOL";
                    "TES_TRUE_MODELING"; "TES_FAKE_TOTAL"] in
  match s_class self with
  | C_Sample => Raise AttributeError
  | C_SystematicsSample => Ok components
  | C_MC =>
      Ok (components ++ ["JES_Modelling"; "JES_Detector"; "JES_EtaModelling";
                         "JES_EtaMethod"; "JES_PURho"; "JES_FlavComp";
                         "JES_FlavResp"; "JER"])
  end.

End sample.

(** * [src/mva/samples/higgs.py] *)

Module higgs.

Definition TAUTAUHADHADBR : Qc := Q2Qc (4197744 # 10000000).

(** [range(100, 155, 5)]. *)
Definition MASS_POINTS : list Z :=
  [100; 105; 110; 115; 120; 125; 130; 135; 140; 145; 150]%Z.

Definition MODES : list string := ["Z"; "W"; "gg"; "VBF"].

Definition MODES_DICT : pydict (string * string * string) :=
  [("gg", ("ggf", "PowHegPythia_", "PowHegPyth8_AU2CT10_"));
   ("VBF", ("vbf", "PowHegPythia_", "PowHegPythia8_AU2CT10_"));
   ("Z", ("zh", "Pythia", "Pythia8_AU2CTEQ6L1_"));
   ("W", ("wh", "Pythia", "Pythia8_AU2CTEQ6L1_"))].

(** The attributes that [Higgs.__init__] sets. *)
Record Higgs : Type := {
  hg_name : string;
  hg_samples : list string;
  hg_masses : list Z;
  hg_modes : list string;
  hg_mode : option string;
  hg_mass : option Z
}.

(** [set(l1) == set(l2)]. *)
Definition set_eq (l1 l2 : list string) : bool :=
  forallb (fun x => bool_decide (x ∈ l2)) l1
  && forallb (fun x => bool_decide (x ∈ l1)) l2.

(** [Higgs.__init__], up to the call of the constructor of the base class;
    [sample_pattern] stands for [sample_pattern.format], which may raise. *)
Definition Higgs_init (year : Z) (mode : option string)
    (modes : option (list string)) (mass : option Z) (masses : option (list Z))
    (sample_pattern : option (Z -> res string)) : outcome Higgs :=
  masses ← samples.choose MASS_POINTS mass masses;
  modes ← samples.choose MODES mode modes;
  let name := "Signal" in
  let name :=
    match modes with
    | [m] => name +:+ "_" +:+ m
    | _ => if bool_decide (length modes = 2%nat) && set_eq modes ["W"; "Z"]
           then name +:+ "_" +:+ "V" else name
    end in
  let name :=
    match masses with
    | [m] => name +:+ "_" +:+ pretty m
    | _ => name
    end in
  '(suffix, generator_index) ←
    (if decide (year = 2011%Z) then Return ("mc11c", 1%nat)
     else if decide (year = 2012%Z) then Return ("mc12a", 2%nat)
     else Fail (Exn (ValueError ("No Higgs defined for year " +:+ pretty year))));
  entries ←
    match sample_pattern with
    | Some format =>
        _ ← py_assert (bool_decide (length modes = 1%nat));
        of_res (foldlM (fun acc mass =>
                          mode ← list_getitem modes 0;
                          name ← format mass;
                          mret (acc ++ [(name +:+ "." +:+ suffix, mass, mode)]))
                       [] masses)
    | None =>
        of_res (foldlM (fun acc mode =>
            m ← pydict_get MODES_DICT mode;
            let generator := if decide (generator_index = 1%nat) then m.1.2 else m.2 in
            mret (acc ++ ((fun mass =>
                             (samples.sample_name generator mode mass suffix, mass, mode))
                            <$> masses)))
          [] modes)
    end;
  let samples := (fun e : string * Z * string => e.1.1) <$> entries in
  let masses := (fun e : string * Z * string => e.1.2) <$> entries in
  let modes := (fun e : string * Z * string => e.2) <$> entries in
  Return {| hg_name := name;
            hg_samples := samples;
            hg_masses := masses;
            hg_modes := modes;
            hg_mode := match modes with [m] => Some m | _ => None end;
            hg_mass := match masses with [m] => Some m | _ => None end |}.

(** [Higgs.xsec_kfact_effic]; [xsbr] is
    [yellowhiggs.xsbr(energy, mass, mode, 'tautau')[0]], and the debug
    message reads [self.samples[isample]]. *)
Definition xsec_kfact_effic (xsbr : Z -> Z -> string -> res Qc) (energy : Z)
    (self : Higgs) (isample : nat) : res (Qc * Qc * Qc) :=
  mass ← list_getitem (hg_masses self) isample;
  mode ← list_getitem (hg_modes self) isample;
  m ← pydict_get MODES_DICT mode;
  xs ← xsbr energy mass m.1.1;
  _ ← list_getitem (hg_samples self) isample;
  mret (xs * TAUTAUHADHADBR, 1, 1).

End higgs.

(** * Notions used in the statements *)

(** The datasets [records] leaves out: the table and the weight are there
    and the read raises. *)
Definition read_skipped (E : sample.Env) (self : sample.Sample) (selection : Cut)
    (systematic : systematic) (scale : Qc) (kw : kwargs)
    (ids : nat * sample.Dataset) : bool :=
  match sample.lookup_or_nominal (sample.ds_tables ids.2) (sample.ds_events ids.2)
          systematic with
  | Ok (table, events) =>
      match pydiv (scale * sample.actual_scale self systematic
                   * sample.LUMI E (sample.s_year self) * sample.ds_xs ids.2
                   * sample.ds_kfact ids.2 * sample.ds_effic ids.2) events,
            sample.read_table table selection kw with
      | Ok _, Raise _ => true
      | _, _ => false
      end
  | Raise _ => false
  end.






(** The rows of partition [i] under the two policies. *)
Definition in_index_partition {A} (N i : nat) (x : nat * A) : bool :=
  bool_decide (x.1 mod N = i)%nat.





(** A character occurs in a string. *)
Fixpoint occurs (c : ascii) (s : string) : bool :=
  match s with
  | EmptyString => false
  | String c' s' => bool_decide (c' = c) || occurs c s'
  end.

(** The interpreter iterates the items of a dict in some order. *)
Definition dict_order (E : sample.Env) : Prop :=
  forall V (d : pydict V), sample.dict_items E V d ≡ₚ d.

(** The rows of a record array whose row number is [i] modulo [N]. *)
Definition restrict (N i : nat) (ra : RecArray) : RecArray :=
  {| ra_source := ra_source ra;
     ra_cols := ra_cols ra;
     ra_rows := filter (fun x => in_index_partition N i x = true) (ra_rows ra) |}.

(** The column [weight] of a list of record arrays. *)
Definition weights_of (recs : list RecArray) : list Qc :=
  (fun x : nat * Row => row_get x.2 "weight") <$> concat (ra_rows <$> recs).

(** The three dicts of a dataset have the same keys, and a key is flagged in
    all of them or in none. *)
Definition aligned (trees : gmap systematic (option Tree))
    (tables : gmap systematic (option Table))
    (events : gmap systematic (option Qc)) : Prop :=
  forall k,
    match trees !! k, tables !! k, events !! k with
    | None, None, None => True
    | Some None, Some None, Some None => True
    | Some (Some _), Some (Some _), Some (Some _) => True
    | _, _, _ => False
    end.

(** The dicts of a dataset under construction once the nominal entry is
    read. *)
Definition dicts_ok (d : samples.Dicts) : Prop :=
  aligned (samples.d_trees d) (samples.d_tables d) (samples.d_events d)
  /\ exists t, samples.d_trees d !! NOMINAL = Some (Some t).

(** The invariant of the two loops of [MC.__init__] over the terms of the
    database: every known term is still unused or has its entry, and the
    unused terms are known. *)
Definition terms_ok (F : samples.Files) (st : samples.Dicts * list (list string))
  : Prop :=
  dicts_ok st.1
  /\ (forall term, term ∈ samples.SYSTEMATICS_TERMS F ->
        term ∈ st.2 \/ is_Some (samples.d_trees st.1 !! SysTuple term))
  /\ (forall term, term ∈ st.2 -> term ∈ samples.SYSTEMATICS_TERMS F).

(** The three dicts of a dataset of [sample.py] have the same keys. *)
Definition same_keys (d : sample.Dicts) : Prop :=
  forall k, (is_Some (sample.d_trees d !! k) <-> is_Some (sample.d_tables d !! k))
            /\ (is_Some (sample.d_tables d !! k) <-> is_Some (sample.d_events d !! k)).

(** The entries the constructor of [Higgs] appends for the chosen modes and
    masses: the name of the sample, the mass and the mode, mode by mode. *)
Definition grid (year : Z) (modes : list string) (masses : list Z)
  : list (string * Z * string) :=
  mode ← modes;
  mass ← masses;
  match pydict_get samples.MODES_DICT mode with
  | Ok m =>
      [(samples.sample_name (if decide (year = 2011%Z) then m.1.2 else m.2) mode mass
          (if decide (year = 2011%Z) then "mc11c" else "mc12a"),
        mass, mode)]
  | Raise _ => []
  end.

(** A dict of families of variations as the code expects it: the names of
    the families are distinct, every family has a ['NOMINAL'] entry, and
    neither the names of the families nor those of the variations hold an
    underscore. *)
Definition families_ok {V} (d : pydict (pydict V)) : Prop :=
  NoDup d.*1
  /\ forall type variations, (type, variations) ∈ d ->
       occurs underscore type = false
       /\ (exists v, pydict_get variations "NOMINAL" = Ok v)
       /\ forall variation x, (variation, x) ∈ variations ->
            occurs underscore variation = false.

(** A record array with the field [weight] of every row multiplied by [s]. *)
Definition rescale (s : Qc) (ra : RecArray) : RecArray :=
  {| ra_source := ra_source ra;
     ra_cols := ra_cols ra;
     ra_rows := (fun x : nat * Row => (x.1, alter (fun w => w * s) "weight" x.2))
                  <$> ra_rows ra |}.

(** The generator and the suffix of the names of the Higgs samples of
    [higgs.py] for a year. *)
Definition higgs_generator (year : Z) (mode : string) : string :=
  match pydict_get higgs.MODES_DICT mode with
  | Ok m => if decide (year = 2011%Z) then m.1.2 else m.2
  | Raise _ => ""
  end.

Definition higgs_suffix (year : Z) : string :=
  if decide (year = 2011%Z) then "mc11c" else "mc12a".

(** The entries the constructor of [Higgs] of [higgs.py] appends without a
    pattern: the name of the sample, the mass and the mode, mode by mode. *)
Definition higgs_grid (year : Z) (modes : list string) (masses : list Z)
  : list (string * Z * string) :=
  mode ← modes;
  mass ← masses;
  [(samples.sample_name (higgs_generator year mode) mode mass (higgs_suffix year),
    mass, mode)].

(** * A small analysis used in the examples *)

Module demo.

Definition row (kv : list (string * Qc)) : Row := list_to_map kv.

Definition two : Qc := 1 + 1.
Definition three : Qc := two + 1.
Definition tenth : Qc := Q2Qc (1 # 10).

Definition scale_factors : list (string * Qc) :=
  [("tau1_fakerate_sf", 1); ("tau2_fakerate_sf", 1);
   ("tau1_id_sf", 1); ("tau2_id_sf", two)].

Definition rows : list Row :=
  [row ([("EventNumber", 0); ("OS", 1)] ++ scale_factors);
   row ([("EventNumber", 1); ("OS", 1)] ++ scale_factors);
   row ([("EventNumber", two); ("OS", 0)] ++ scale_factors);
   row ([("EventNumber", three); ("OS", 1)] ++ scale_factors)].

Definition tree : Tree := {| tree_name := "tree"; tree_rows := rows |}.

Definition selected (t : Tree) (c : Cut) : list Row :=
  filter (fun r => cut_eval c r = true) (tree_rows t).

Definition category : Category :=
  {| cat_name := "presel"; get_cuts := fun _ => CEmpty |}.

Definition REGIONS : gmap string Cut :=
  <["OS" := CVar "OS"]> (<["SS" := CEmpty]> ∅).

(** A [Draw] that adds the weighted number of selected rows to every bin. *)
Definition Draw (t : Tree) (e : string) (sel : WeightedSel) (h : bins) : bins :=
  (fun x => x + wsel_weight sel * qsum ((fun _ => 1) <$> selected t (wsel_cut sel)))
    <$> h.

Definition GetEntries (t : Tree) (c : Cut) : Qc :=
  qsum ((fun _ => 1) <$> selected t c).

Definition samples_env : samples.Env :=
  {| samples.LUMI := fun _ => 1;
     samples.REGIONS := REGIONS;
     samples.WEIGHT_SYSTEMATICS := [];
     samples.EMBEDDING_SYSTEMATICS := [];
     samples.SYSTEMATICS_BY_WEIGHT := [];
     samples.Draw := Draw;
     samples.draw := fun t _ c h => Draw t "" {| wsel_weight := 1; wsel_branches := [];
                                                  wsel_cut := c |} h;
     samples.GetEntries := GetEntries |}.

Definition data : samples.Data :=
  {| samples.data_base := {| samples.s_class := samples.C_Data; samples.s_year := 2012;
                             samples.s_scale := 1; samples.s_cuts := CEmpty |};
     samples.data_data := tree;
     samples.data_h5data := {| tbl_name := "data12"; tbl_cols := ["EventNumber"; "OS"];
                               tbl_rows := rows; tbl_corrupt := false |} |}.

Definition dataset : samples.Dataset :=
  {| samples.ds_name := "ewk";
     samples.ds_trees := <[NOMINAL := Some tree]> ∅;
     samples.ds_tables := ∅;
     samples.ds_events := <[NOMINAL := Some two]> ∅;
     samples.ds_xs := 1; samples.ds_kfact := 1; samples.ds_effic := 1 |}.

Definition ewk : samples.MC :=
  {| samples.mc_base := {| samples.s_class := samples.C_EWK; samples.s_year := 2012;
                           samples.s_scale := 1; samples.s_cuts := CEmpty |};
     samples.mc_scale_error := 0;
     samples.mc_systematics := true;
     samples.mc_datasets := [dataset] |}.

Definition qcd (scale data_scale mc_scale : Qc) : samples.QCD :=
  {| samples.qcd_base := {| samples.s_class := samples.C_QCD; samples.s_year := 2012;
                            samples.s_scale := scale; samples.s_cuts := CEmpty |};
     samples.qcd_data := data;
     samples.qcd_mc := [ewk];
     samples.qcd_data_scale := data_scale;
     samples.qcd_mc_scales := [mc_scale];
     samples.qcd_scale_error := tenth;
     samples.qcd_shape_region := "SS";
     samples.qcd_systematics := true |}.

Definition hist0 : Hist := {| h_bins := [0]; h_systematics := None |}.

(** Components whose [draw_array] leaves the histograms as they are. *)
Definition array_fill : samples.ArrayFill :=
  {| samples.MC_draw_array := fun _ fh _ _ _ _ _ _ => Ok fh;
     samples.Data_draw_array := fun _ fh _ _ _ _ _ => Ok fh |}.

(** An embedded Ztautau sample of [sample.py]: scale 1, fit error 0.1, one
    dataset with a nominal tree only. *)
Definition table (corrupt : bool) : Table :=
  {| tbl_name := "ztautau"; tbl_cols := ["EventNumber"; "OS"] ++ scale_factors.*1;
     tbl_rows := rows; tbl_corrupt := corrupt |}.

Definition sample_dataset (corrupt : bool) : sample.Dataset :=
  {| sample.ds_name := "ztautau";
     sample.ds_trees := <[NOMINAL := tree]> ∅;
     sample.ds_tables := <[NOMINAL := table corrupt]> ∅;
     sample.ds_events := <[NOMINAL := two]> ∅;
     sample.ds_xs := 1; sample.ds_kfact := 1; sample.ds_effic := 1 |}.

Definition ztautau (corrupt : bool) : sample.Sample :=
  {| sample.s_class := sample.C_SystematicsSample;
     sample.s_Ztautau := true;
     sample.s_Embedded_Ztautau := true;
     sample.s_year := 2012;
     sample.s_scale := 1;
     sample.s_scale_error := tenth;
     sample.s_cuts := CEmpty;
     sample.s_trigger := false;
     sample.s_systematics := true;
     sample.s_datasets := [sample_dataset corrupt] |}.

Definition sample_env : sample.Env :=
  {| sample.LUMI := fun _ => 1;
     sample.REGIONS := REGIONS;
     sample.SYSTEMATICS_BY_WEIGHT := [];
     sample.iter_systematics := fun _ _ _ => [ZFIT_UP; ZFIT_DOWN; SysTuple ["JES_UP"]];
     sample.dict_items := fun _ d => d;
     sample.iter_weight_branches := fun _ => Ok [];
     sample.Draw := Draw |}.

End demo.

(** * A second analysis: samples read from tables, and the files they are
    built from *)

Module examples.

Definition weight_columns : list (string * Qc) :=
  [("mc_weight", 1); ("pileup_weight", demo.two); ("ggf_weight", 1);
   ("tau_id_sf", 1); ("tau_id_sf_high", demo.two); ("tau_id_sf_low", 1)].

Definition rows : list Row :=
  [demo.row ([("EventNumber", 0); ("OS", 1)] ++ weight_columns);
   demo.row ([("EventNumber", 1); ("OS", 1)] ++ weight_columns);
   demo.row ([("EventNumber", demo.two); ("OS", 0)] ++ weight_columns)].

Definition table (name : string) : Table :=
  {| tbl_name := name;
     tbl_cols := ["EventNumber"; "OS"] ++ weight_columns.*1;
     tbl_rows := rows;
     tbl_corrupt := false |}.

Definition tree (name : string) : Tree := {| tree_name := name; tree_rows := rows |}.

(** One family of weight systematics, on the identification of the taus. *)
Definition samples_env : samples.Env :=
  {| samples.LUMI := fun _ => 1;
     samples.REGIONS := demo.REGIONS;
     samples.WEIGHT_SYSTEMATICS :=
       [("TAUID", [("UP", ["tau_id_sf_high"]); ("DOWN", ["tau_id_sf_low"]);
                   ("NOMINAL", ["tau_id_sf"])])];
     samples.EMBEDDING_SYSTEMATICS := [];
     samples.SYSTEMATICS_BY_WEIGHT := [SysTuple ["TAUID_UP"]; SysTuple ["TAUID_DOWN"]];
     samples.Draw := demo.Draw;
     samples.draw := fun t _ c h =>
       demo.Draw t "" {| wsel_weight := 1; wsel_branches := []; wsel_cut := c |} h;
     samples.GetEntries := demo.GetEntries |}.

Definition dataset : samples.Dataset :=
  {| samples.ds_name := "ewk";
     samples.ds_trees := <[NOMINAL := Some (tree "ewk")]> ∅;
     samples.ds_tables := <[NOMINAL := Some (table "ewk")]> ∅;
     samples.ds_events := <[NOMINAL := Some demo.two]> ∅;
     samples.ds_xs := 1; samples.ds_kfact := 1; samples.ds_effic := 1 |}.

Definition ewk : samples.MC :=
  {| samples.mc_base := {| samples.s_class := samples.C_EWK; samples.s_year := 2012;
                           samples.s_scale := 1; samples.s_cuts := CEmpty |};
     samples.mc_scale_error := 0;
     samples.mc_systematics := true;
     samples.mc_datasets := [dataset] |}.

Definition qcd : samples.QCD :=
  {| samples.qcd_base := {| samples.s_class := samples.C_QCD; samples.s_year := 2012;
                            samples.s_scale := demo.two; samples.s_cuts := CEmpty |};
     samples.qcd_data := demo.data;
     samples.qcd_mc := [ewk];
     samples.qcd_data_scale := 1;
     samples.qcd_mc_scales := [1];
     samples.qcd_scale_error := demo.tenth;
     samples.qcd_shape_region := "SS";
     samples.qcd_systematics := true |}.

(** The files of a student: every name is there; the database lists the
    background [ewk] with one sample and its two variations of the jet
    energy scale. *)
Definition files (terms : list (list string)) : samples.Files :=
  {| samples.get_sample := fun _ key =>
       if decide (key = "ewk") then Ok ["ewk.mc12a"] else Raise KeyError;
     samples.db := fun _ => Ok (demo.two, 1, 1);
     samples.rfile_Get := fun name => Ok (tree name);
     samples.h5file_root := fun name => Ok (table name);
     samples.cutflow := fun _ _ => Ok demo.three;
     samples.get_systematics := fun _ _ => (terms, []);
     samples.SYSTEMATICS_TERMS := [["JES_UP"]; ["JES_DOWN"]; ["TAUID_UP"]];
     samples.xsbr := fun _ _ _ => Ok demo.tenth;
     samples.TAUTAUHADHADBR := Q2Qc (4197744 # 10000000) |}.

Definition jes_terms : list (list string) := [["JES_UP"]; ["JES_DOWN"]].

(** A sample of [sample.py] without datasets. *)
Definition no_datasets : sample.Sample :=
  {| sample.s_class := sample.C_MC;
     sample.s_Ztautau := false;
     sample.s_Embedded_Ztautau := false;
     sample.s_year := 2012;
     sample.s_scale := 1;
     sample.s_scale_error := 0;
     sample.s_cuts := CEmpty;
     sample.s_trigger := false;
     sample.s_systematics := true;
     sample.s_datasets := [] |}.

End examples.

(** * Properties *)

(** ** Results and loops *)

Lemma bind_Ok {A B} (m : res A) (f : A -> res B) (b : B) :
  m ≫= f = Ok b <-> exists a, m = Ok a /\ f a = Ok b.
Proof.
  destruct m as [a|e]; simpl.
  - split; [eauto|]. by intros (a' & [= <-] & ?).
  - split; [done|]. by intros (? & ? & _).
Qed.

Lemma getitem_Some `{Countable K} {V} (d : gmap K V) (k : K) (v : V) :
  d !! k = Some v -> getitem d k = Ok v.
Proof. unfold getitem. by intros ->. Qed.

Lemma getitem_None `{Countable K} {V} (d : gmap K V) (k : K) :
  d !! k = None -> getitem d k = Raise KeyError.
Proof. unfold getitem. by intros ->. Qed.

Lemma foldlM_app {A S} (f : S -> A -> res S) (s : S) (l1 l2 : list A) :
  foldlM f s (l1 ++ l2) = foldlM f s l1 ≫= fun s' => foldlM f s' l2.
Proof.
  revert s. induction l1 as [|x l1 IH]; intros s; simpl; [done|].
  destruct (f s x); simpl; [apply IH | done].
Qed.

Lemma qsum_snoc (l : list Qc) (x : Qc) : qsum (l ++ [x]) = qsum l + x.
Proof. unfold qsum. by rewrite foldl_app. Qed.

Lemma foldl_Qcplus_shift (l : list Qc) (a b : Qc) :
  foldl Qcplus (a + b) l = a + foldl Qcplus b l.
Proof.
  revert b. induction l as [|x l IH]; intros b; simpl; [done|].
  by rewrite <- IH, Qcplus_assoc.
Qed.

Lemma qsum_cons (x : Qc) (l : list Qc) : qsum (x :: l) = x + qsum l.
Proof.
  unfold qsum. simpl. rewrite (Qcplus_comm 0 x). apply foldl_Qcplus_shift.
Qed.

Ltac by_compute := refine (bool_decide_unpack _ _); vm_compute; exact I.

(** ** [QCD.events] *)

Section QCD_events.
Import samples.
Context (E : Env).

(** [MC.events] multiplies its total by [scale] on return. *)
Lemma MC_events_scale mc category region cuts_arg systematic weighted raw scale v :
  MC_events E mc category region cuts_arg systematic weighted 1 raw = Ok v ->
  MC_events E mc category region cuts_arg systematic weighted scale raw
  = Ok (v * scale).
Proof.
  unfold MC_events. destruct (foldlM _ _ _) as [total|e]; simpl; [|done].
  intros [= <-]. f_equal. ring.
Qed.

Lemma mc_subtract_loop category region cuts_arg systematic raw
    (scales : list Qc) (mcs : list MC) (vs : list Qc) (acc : Qc) :
  Forall2 (fun mc v =>
    MC_events E mc category region cuts_arg systematic true 1 raw = Ok v) mcs vs ->
  foldlM (fun mc_subtract '(mc_scale, mc) =>
            ev ← MC_events E mc category region cuts_arg systematic true mc_scale raw;
            mret (mc_subtract + ev))
         acc (zip scales mcs)
  = Ok (acc + qsum (zip_with Qcmult scales vs)).
Proof.
  intros H. revert scales acc.
  induction H as [|mc v mcs vs Hv _ IH]; intros scales acc.
  - destruct scales; simpl; f_equal; unfold qsum; simpl; ring.
  - destruct scales as [|s scales]; simpl.
    + f_equal. unfold qsum. simpl. ring.
    + rewrite (MC_events_scale _ _ _ _ _ _ _ s v Hv). simpl.
      rewrite IH, qsum_cons. f_equal. ring.
Qed.

Lemma zip_with_ones (vs : list Qc) :
  zip_with Qcmult (replicate (length vs) 1) vs = vs.
Proof. induction vs as [|v vs IH]; simpl; [done|]. rewrite IH. f_equal. ring. Qed.

(** C1. QCD subtraction law: when the data sample and every MC component
    return their event counts, [QCD.events] with [raw=False] returns
    [(data_scale * data - sum_i mc_scale_i * mc_i) * scale]; with
    [data_scale = 1], all MC scales 1 and [scale = 1] this is the data count
    minus the sum of the MC counts, all taken in the shape region. *)
Theorem QCD_events_subtraction (self : QCD) category region cuts_arg systematic
    (data : Qc) (mc_events : list Qc) :
  Data_events E (qcd_data self) category (qcd_shape_region self) cuts_arg = Ok data ->
  Forall2 (fun mc v =>
    MC_events E mc category (qcd_shape_region self) cuts_arg systematic true 1 false
    = Ok v) (qcd_mc self) mc_events ->
  QCD_events E self category region cuts_arg systematic false
  = Ok ((qcd_data_scale self * data
         - qsum (zip_with Qcmult (qcd_mc_scales self) mc_events)) * s_scale self)
  /\ (qcd_data_scale self = 1 ->
      qcd_mc_scales self = replicate (length (qcd_mc self)) 1 ->
      s_scale self = 1 ->
      QCD_events E self category region cuts_arg systematic false
      = Ok (data - qsum mc_events)).
Proof.
  intros Hd Hmc.
  assert (QCD_events E self category region cuts_arg systematic false
          = Ok ((qcd_data_scale self * data
                 - qsum (zip_with Qcmult (qcd_mc_scales self) mc_events))
                * s_scale self)) as Hgen.
  { unfold QCD_events. rewrite Hd. simpl.
    rewrite (mc_subtract_loop _ _ _ _ _ _ _ _ _ Hmc). simpl.
    f_equal. ring. }
  split; [exact Hgen|].
  intros Hds Hsc Hs. rewrite Hgen, Hds, Hsc, Hs.
  rewrite (Forall2_length _ _ _ Hmc), zip_with_ones. f_equal. ring.
Qed.

(** C10. With [raw=True], [QCD.events] returns [data_scale] times the data
    count plus the sum of the raw counts of the MC components (each
    multiplied by its own [mc_scale], as [MC.events] does on return); the
    normalisation [scale] of the QCD sample does not enter, so the result is
    the same for any two samples that differ only in it. *)
Theorem QCD_events_raw (self : QCD) category region cuts_arg systematic
    (data : Qc) (mc_raw : list Qc) :
  Data_events E (qcd_data self) category (qcd_shape_region self) cuts_arg = Ok data ->
  Forall2 (fun mc v =>
    MC_events E mc category (qcd_shape_region self) cuts_arg systematic true 1 true
    = Ok v) (qcd_mc self) mc_raw ->
  QCD_events E self category region cuts_arg systematic true
  = Ok (qcd_data_scale self * data
        + qsum (zip_with Qcmult (qcd_mc_scales self) mc_raw))
  /\ (qcd_mc_scales self = replicate (length (qcd_mc self)) 1 ->
      QCD_events E self category region cuts_arg systematic true
      = Ok (qcd_data_scale self * data + qsum mc_raw))
  /\ (forall other : QCD,
        qcd_data other = qcd_data self -> qcd_mc other = qcd_mc self ->
        qcd_data_scale other = qcd_data_scale self ->
        qcd_mc_scales other = qcd_mc_scales self ->
        qcd_shape_region other = qcd_shape_region self ->
        QCD_events E other category region cuts_arg systematic true
        = QCD_events E self category region cuts_arg systematic true).
Proof.
  intros Hd Hmc.
  assert (QCD_events E self category region cuts_arg systematic true
          = Ok (qcd_data_scale self * data
                + qsum (zip_with Qcmult (qcd_mc_scales self) mc_raw))) as Hgen.
  { unfold QCD_events. rewrite Hd. simpl.
    rewrite (mc_subtract_loop _ _ _ _ _ _ _ _ _ Hmc). simpl.
    f_equal. ring. }
  split; [exact Hgen|]. split.
  - intros Hsc. rewrite Hgen, Hsc.
    by rewrite (Forall2_length _ _ _ Hmc), zip_with_ones.
  - intros other H1 H2 H3 H4 H5. unfold QCD_events.
    by rewrite H1, H2, H3, H4, H5.
Qed.
End QCD_events.

Lemma QCD_events_subtraction_witness :
  samples.QCD_events demo.samples_env (demo.qcd 1 1 1) demo.category "OS" None
    NOMINAL false
  = Ok (demo.two + demo.two - qsum [demo.two]).
Proof.
  refine (proj2 (QCD_events_subtraction demo.samples_env (demo.qcd 1 1 1)
                   demo.category "OS" None NOMINAL (demo.two + demo.two)
                   [demo.two] _ _) _ _ _).
  - by_compute.
  - repeat constructor.
  - reflexivity.
  - reflexivity.
  - reflexivity.
Defined.

Lemma QCD_events_raw_witness :
  samples.QCD_events demo.samples_env (demo.qcd demo.two 1 demo.two) demo.category
    "OS" None NOMINAL true
  = Ok (1 * (demo.two + demo.two)
        + qsum (zip_with Qcmult [demo.two] [demo.two + demo.two])).
Proof.
  refine (proj1 (QCD_events_raw demo.samples_env (demo.qcd demo.two 1 demo.two)
                   demo.category "OS" None NOMINAL (demo.two + demo.two)
                   [demo.two + demo.two] _ _)).
  - by_compute.
  - repeat constructor.
Defined.

(** ** Configuration *)




Section Configuration.
Import samples.

(** Every caller writes [Sample.check_systematic(systematic)], so the class
    tested against [Data] is [Sample] and the check passes. *)
Lemma check_systematic_on_Sample (systematic : systematic) :
  check_systematic C_Sample systematic = Ok tt.
Proof. unfold check_systematic. by rewrite andb_false_r. Qed.

(** The check itself rejects a systematic on the class [Data]. *)
Lemma check_systematic_on_Data (systematic : systematic) :
  systematic <> NOMINAL ->
  check_systematic C_Data systematic
  = Raise (TypeError "Do not apply systematics on data!").
Proof.
  intros H. unfold check_systematic.
  by rewrite (bool_decide_eq_true_2 _ H).
Qed.

(** C8, the code at the failing input: [Data.records] with the systematic
    [('JES_UP',)] raises no [TypeError]; it returns what it returns for
    ['NOMINAL']. *)
Theorem Data_records_accepts_systematic :
  Data_records demo.samples_env demo.data demo.category "OS" None None true
    (SysTuple ["JES_UP"]) None
  = Data_records demo.samples_env demo.data demo.category "OS" None None true
      NOMINAL None
  /\ exists recs,
      Data_records demo.samples_env demo.data demo.category "OS" None None true
        (SysTuple ["JES_UP"]) None = Ok recs.
Proof. split; [reflexivity|]. eexists. reflexivity. Qed.

(** The other configuration errors are raised by [QCD.__init__]. *)
Lemma sample_compatibility_loop (data : Data) (systematics : bool) (mc : list MC) :
  foldlM (fun _ (m : MC) =>
            if bool_decide (s_year data ≠ s_year m) then
              Raise (ValueError "MC and Data years do not match")
            else if bool_decide (mc_systematics m ≠ systematics) then
              Raise (ValueError
                "two MC samples with inconsistent systematics setting")
            else Ok tt) tt mc = Ok tt
  <-> Forall (fun m : MC => s_year m = s_year data
                            /\ mc_systematics m = systematics) mc.
Proof.
  induction mc as [|m mc IH]; simpl; [by split; [constructor|]|].
  rewrite Forall_cons. repeat case_bool_decide; simpl.
  - split; [done|]. by intros [[? _] _].
  - split; [done|]. by intros [[_ ?] _].
  - rewrite IH. split; [by intros ?; split|by intros [_ ?]].
Qed.

Lemma QCD_init_checks data mc scale scale_error data_scale mc_scales region :
  (mc = [] ->
   QCD_init data mc scale scale_error data_scale mc_scales region
   = Raise (ValueError "mc must contain at least one MC sample"))
  /\ (forall self,
        QCD_init data mc scale scale_error data_scale mc_scales region = Ok self ->
        mc <> []
        /\ Forall (fun m : MC => s_year m = s_year data
                                 /\ mc_systematics m = qcd_systematics self) mc)
  /\ ((exists m : MC, m ∈ mc /\ s_year m <> s_year data) ->
      exists e, QCD_init data mc scale scale_error data_scale mc_scales region
                = Raise e)
  /\ ((exists m m' : MC, m ∈ mc /\ m' ∈ mc
                         /\ mc_systematics m <> mc_systematics m') ->
      exists e, QCD_init data mc scale scale_error data_scale mc_scales region
                = Raise e).
Proof.
  assert (forall self,
    QCD_init data mc scale scale_error data_scale mc_scales region = Ok self ->
    mc <> []
    /\ Forall (fun m : MC => s_year m = s_year data
                             /\ mc_systematics m = qcd_systematics self) mc) as Hok.
  { intros self. unfold QCD_init, sample_compatibility.
    destruct mc as [|m0 mc']; [done|].
    destruct (foldlM _ _ _) as [[]|e] eqn:Hloop; [|done].
    apply sample_compatibility_loop in Hloop. simpl.
    destruct (_ : res (list Qc)) as [l|e]; [|done]. simpl.
    intros [= <-]. by split. }
  split; [by intros ->|]. split; [exact Hok|]. split.
  - intros (m & Hin & Hy).
    destruct (QCD_init _ _ _ _ _ _ _) as [self|e] eqn:Hq; [|by eexists].
    destruct (Hok self eq_refl) as [_ Hall].
    rewrite Forall_forall in Hall. by destruct (Hall m Hin).
  - intros (m & m' & Hin & Hin' & Hs).
    destruct (QCD_init _ _ _ _ _ _ _) as [self|e] eqn:Hq; [|by eexists].
    destruct (Hok self eq_refl) as [_ Hall].
    rewrite Forall_forall in Hall.
    destruct (Hall m Hin) as [_ ?], (Hall m' Hin') as [_ ?]. congruence.
Qed.
End Configuration.

(** ** Systematics of the QCD estimate *)

Lemma sys_accumulate_lookup_eq (d : gmap systematic bins) k h :
  sys_accumulate d k h !! k
  = Some (match d !! k with None => h | Some h0 => bins_add h0 h end).
Proof.
  unfold sys_accumulate. destruct (d !! k); by rewrite lookup_insert_eq.
Qed.

Lemma sys_accumulate_lookup_ne (d : gmap systematic bins) k k' h :
  k <> k' -> sys_accumulate d k h !! k' = d !! k'.
Proof.
  intros Hne. unfold sys_accumulate.
  destruct (d !! k); by rewrite lookup_insert_ne.
Qed.

Section QCD_systematics.
Import samples.

Lemma qcd_propagate_other self d_h (l : list (systematic * bins)) hs k :
  k ∉ l.*1 -> foldl (qcd_propagate self d_h) hs l !! k = hs !! k.
Proof.
  revert hs. induction l as [|[k' sh] l IH]; intros hs Hk; simpl; [done|].
  simpl in Hk. rewrite not_elem_of_cons in Hk. destruct Hk as [Hne Hk].
  rewrite IH by done. unfold qcd_propagate. simpl.
  by apply sys_accumulate_lookup_ne.
Qed.

Lemma qcd_propagate_entry self d_h (l : list (systematic * bins)) hs k sh :
  NoDup l.*1 -> (k, sh) ∈ l ->
  foldl (qcd_propagate self d_h) hs l !! k
  = Some (let qcd_hist :=
            bins_scale (bins_sub (bins_scale d_h (qcd_data_scale self)) sh)
                       (qcd_term_scale self k) in
          match hs !! k with None => qcd_hist | Some h0 => bins_add h0 qcd_hist end).
Proof.
  revert hs. induction l as [|[k' sh'] l IH]; intros hs Hnd Hin.
  - by apply elem_of_nil in Hin.
  - simpl in Hnd. apply NoDup_cons in Hnd as [Hk' Hnd].
    apply elem_of_cons in Hin as [[= <- <-]|Hin]; simpl.
    + rewrite qcd_propagate_other by done.
      unfold qcd_propagate. simpl. apply sys_accumulate_lookup_eq.
    + assert (k <> k') as Hne.
      { intros ->. apply Hk'. apply list_elem_of_fmap. by exists (k', sh). }
      rewrite IH by done. unfold qcd_propagate. simpl.
      by rewrite sys_accumulate_lookup_ne.
Qed.

(** The three cases of the normalisation of a systematic entry. *)
Lemma qcd_term_scale_cases self k :
  (k = QCDFIT_UP -> qcd_term_scale self k = s_scale self + qcd_scale_error self)
  /\ (k = QCDFIT_DOWN ->
      qcd_term_scale self k = s_scale self - qcd_scale_error self)
  /\ (k <> QCDFIT_UP -> k <> QCDFIT_DOWN -> qcd_term_scale self k = s_scale self).
Proof.
  unfold qcd_term_scale. repeat split; intros; repeat case_decide; try done.
  by subst.
Qed.

(** What [qcd_combine] leaves in the nominal histogram and in the entry of
    every systematic term of the MC-subtracted histogram. *)
Lemma qcd_combine_spec (self : QCD) (h mc_h d_h : Hist) mc_sys :
  h_systematics mc_h = Some mc_sys ->
  let r := qcd_combine self true h mc_h d_h in
  h_bins r
  = bins_add (h_bins h)
      (bins_scale (bins_sub (bins_scale (h_bins d_h) (qcd_data_scale self))
                            (h_bins mc_h)) (s_scale self))
  /\ forall k sys_hist, mc_sys !! k = Some sys_hist ->
     exists s,
       (k = QCDFIT_UP -> s = s_scale self + qcd_scale_error self)
       /\ (k = QCDFIT_DOWN -> s = s_scale self - qcd_scale_error self)
       /\ (k <> QCDFIT_UP -> k <> QCDFIT_DOWN -> s = s_scale self)
       /\ h_systematics r ≫= (fun d => d !! k)
          = Some (let qcd_hist :=
                    bins_scale (bins_sub (bins_scale (h_bins d_h)
                                  (qcd_data_scale self)) sys_hist) s in
                  match h_systematics h ≫= (fun d => d !! k) with
                  | None => qcd_hist
                  | Some h0 => bins_add h0 qcd_hist
                  end).
Proof.
  intros Hsys. unfold qcd_combine. rewrite Hsys. simpl. split; [done|].
  intros k sys_hist Hk. exists (qcd_term_scale self k).
  destruct (qcd_term_scale_cases self k) as (H1 & H2 & H3).
  repeat split; [done..|].
  rewrite (qcd_propagate_entry self _ _ _ k sys_hist).
  - by destruct (h_systematics h).
  - apply NoDup_fst_map_to_list.
  - by apply elem_of_map_to_list.
Qed.

Lemma draw_array_loop (self : QCD) (do_systematics : bool)
    (mc_fh d_fh : gmap string Hist) (l : list (string * Hist))
    (fh : gmap string Hist) :
  NoDup l.*1 ->
  (forall expr h, (expr, h) ∈ l -> is_Some (mc_fh !! expr) /\ is_Some (d_fh !! expr)) ->
  exists r,
    foldlM (fun fh '(expr, h) =>
              mc_h ← getitem mc_fh expr;
              d_h ← getitem d_fh expr;
              mret (<[expr := qcd_combine self do_systematics h mc_h d_h]> fh))
           fh l = Ok r
    /\ (forall expr, expr ∉ l.*1 -> r !! expr = fh !! expr)
    /\ (forall expr h mc_h d_h, (expr, h) ∈ l ->
          mc_fh !! expr = Some mc_h -> d_fh !! expr = Some d_h ->
          r !! expr = Some (qcd_combine self do_systematics h mc_h d_h)).
Proof.
  revert fh. induction l as [|[expr h] l IH]; intros fh Hnd Hall.
  - exists fh. split; [done|]. split; [done|].
    intros ? ? ? ? Hin. by apply elem_of_nil in Hin.
  - simpl in Hnd. apply NoDup_cons in Hnd as [Hexpr Hnd].
    destruct (Hall expr h) as [[mc_h Hmc] [d_h Hd]]; [left|].
    simpl. rewrite (getitem_Some _ _ _ Hmc), (getitem_Some _ _ _ Hd). simpl.
    destruct (IH (<[expr := qcd_combine self do_systematics h mc_h d_h]> fh) Hnd)
      as (r & Hr & Hother & Hentry).
    { intros e' h' ?. apply (Hall e' h'). by right. }
    exists r. split; [done|]. split.
    + intros e He. simpl in He. rewrite not_elem_of_cons in He.
      destruct He as [Hne He]. rewrite Hother by done.
      by rewrite lookup_insert_ne.
    + intros e h' mc_h' d_h' Hin Hmc' Hd'.
      apply elem_of_cons in Hin as [[= -> ->]|Hin].
      * rewrite Hother by done. rewrite lookup_insert_eq. congruence.
      * by apply Hentry.
Qed.

(** C5. When the fills of the MC components and of the data sample return,
    [QCD.draw_into] and [QCD.draw_array] (with systematics on) return, and
    for every systematic term [k] of the MC-subtracted histogram the entry
    of [k] receives [(data_scale * data_hist - sys_hist) * s], where
    [data_hist] is the data histogram of the nominal and [s] is
    [scale + scale_error] for [('QCDFIT_UP',)], [scale - scale_error] for
    [('QCDFIT_DOWN',)] and [scale] for every other term. *)
Theorem QCD_systematics_propagation (E : Env) (F : ArrayFill) (self : QCD)
    category region cuts_arg weighted systematics :
  (forall (hist MC_bkg data_hist : Hist) expr mc_sys,
     foldlM (fun MC_bkg '(mc_scale, mc) =>
               MC_draw_into E mc MC_bkg expr category (qcd_shape_region self)
                 cuts_arg weighted systematics mc_scale)
            (Clone_Reset hist) (zip (qcd_mc_scales self) (qcd_mc self))
     = Ok MC_bkg ->
     Data_draw_into E (qcd_data self) (Clone_Reset hist) expr category
       (qcd_shape_region self) cuts_arg = Ok data_hist ->
     h_systematics MC_bkg = Some mc_sys ->
     exists r,
       QCD_draw_into E self hist expr category region cuts_arg weighted systematics
       = Ok r
       /\ h_bins r
          = bins_add (h_bins hist)
              (bins_scale (bins_sub (bins_scale (h_bins data_hist)
                             (qcd_data_scale self)) (h_bins MC_bkg)) (s_scale self))
       /\ forall k sys_hist, mc_sys !! k = Some sys_hist ->
          exists s,
            (k = QCDFIT_UP -> s = s_scale self + qcd_scale_error self)
            /\ (k = QCDFIT_DOWN -> s = s_scale self - qcd_scale_error self)
            /\ (k <> QCDFIT_UP -> k <> QCDFIT_DOWN -> s = s_scale self)
            /\ h_systematics r ≫= (fun d => d !! k)
               = Some (let qcd_hist :=
                         bins_scale (bins_sub (bins_scale (h_bins data_hist)
                                       (qcd_data_scale self)) sys_hist) s in
                       match h_systematics hist ≫= (fun d => d !! k) with
                       | None => qcd_hist
                       | Some h0 => bins_add h0 qcd_hist
                       end))
  /\ (forall (field_hist mc_fh d_fh : gmap string Hist),
        qcd_systematics self && systematics = true ->
        foldlM (fun fh '(mc_scale, mc) =>
                  MC_draw_array F mc fh category (qcd_shape_region self) cuts_arg
                    weighted systematics mc_scale)
               (Clone <$> field_hist) (zip (qcd_mc_scales self) (qcd_mc self))
        = Ok mc_fh ->
        Data_draw_array F (qcd_data self) (Clone <$> field_hist) category
          (qcd_shape_region self) cuts_arg weighted systematics = Ok d_fh ->
        (forall expr, is_Some (field_hist !! expr) ->
                      is_Some (mc_fh !! expr) /\ is_Some (d_fh !! expr)) ->
        exists r,
          QCD_draw_array F self field_hist category region cuts_arg weighted
            systematics = Ok r
          /\ forall expr h mc_h d_h mc_sys,
               field_hist !! expr = Some h -> mc_fh !! expr = Some mc_h ->
               d_fh !! expr = Some d_h -> h_systematics mc_h = Some mc_sys ->
               exists h',
                 r !! expr = Some h'
                 /\ forall k sys_hist, mc_sys !! k = Some sys_hist ->
                    exists s,
                      (k = QCDFIT_UP -> s = s_scale self + qcd_scale_error self)
                      /\ (k = QCDFIT_DOWN ->
                          s = s_scale self - qcd_scale_error self)
                      /\ (k <> QCDFIT_UP -> k <> QCDFIT_DOWN -> s = s_scale self)
                      /\ h_systematics h' ≫= (fun d => d !! k)
                         = Some (let qcd_hist :=
                                   bins_scale (bins_sub (bins_scale (h_bins d_h)
                                                 (qcd_data_scale self)) sys_hist) s in
                                 match h_systematics h ≫= (fun d => d !! k) with
                                 | None => qcd_hist
                                 | Some h0 => bins_add h0 qcd_hist
                                 end)).
Proof.
  split.
  - intros hist MC_bkg data_hist expr mc_sys Hmc Hdata Hsys.
    exists (qcd_combine self true hist MC_bkg data_hist).
    split; [unfold QCD_draw_into; by rewrite Hmc, Hdata|].
    by apply qcd_combine_spec.
  - intros field_hist mc_fh d_fh Hdo Hmc Hdata Hkeys.
    destruct (draw_array_loop self true mc_fh d_fh (map_to_list field_hist)
                field_hist) as (r & Hr & _ & Hentry).
    { apply NoDup_fst_map_to_list. }
    { intros expr h Hin. apply Hkeys. apply elem_of_map_to_list in Hin. eauto. }
    exists r. split.
    { unfold QCD_draw_array. rewrite Hmc, Hdata, Hdo. exact Hr. }
    intros expr h mc_h d_h mc_sys Hh Hmch Hdh Hsys.
    exists (qcd_combine self true h mc_h d_h). split.
    { apply Hentry; [by apply elem_of_map_to_list|done..]. }
    by apply qcd_combine_spec.
Qed.
End QCD_systematics.

Lemma QCD_systematics_propagation_witness :
  exists r data_hist sys_hist,
    samples.QCD_draw_into demo.samples_env (demo.qcd 1 1 1) demo.hist0 (Expr1 "x")
      demo.category "OS" None true true = Ok r
    /\ h_systematics r ≫= (fun d => d !! QCDFIT_UP)
       = Some (bins_scale (bins_sub (bins_scale data_hist 1) sys_hist)
                          (1 + demo.tenth)).
Proof.
  destruct (proj1 (QCD_systematics_propagation demo.samples_env demo.array_fill
                     (demo.qcd 1 1 1) demo.category "OS" None true true)
              demo.hist0 _ _ (Expr1 "x") _ eq_refl eq_refl eq_refl)
    as (r & Hr & _ & Hk).
  destruct (Hk QCDFIT_UP _ eq_refl) as (s & Hup & _ & _ & Hs).
  exists r. eexists. eexists. split; [exact Hr|].
  rewrite Hs, (Hup eq_refl). reflexivity.
Defined.

(** ** Loops over systematic terms *)


(** Loops in which a step only touches the entry of its own term. *)
Section term_loops.
Context {A : Type} (key : A -> systematic).
Context (f : gmap systematic bins -> A -> res (gmap systematic bins)).
Hypothesis f_other :
  forall sh a sh' k, f sh a = Ok sh' -> k <> key a -> sh' !! k = sh !! k.

Lemma foldlM_other sh l sh' k :
  foldlM f sh l = Ok sh' -> k ∉ key <$> l -> sh' !! k = sh !! k.
Proof.
  revert sh. induction l as [|a l IH]; intros sh; simpl.
  - by intros [= <-].
  - intros H Hk. apply bind_Ok in H as (sh1 & Hf & Hl).
    rewrite not_elem_of_cons in Hk. destruct Hk as [Hne Hk].
    rewrite (IH _ Hl Hk). by apply (f_other _ a).
Qed.

End term_loops.

Lemma not_elem_of_map_keys `{Countable K} {V} (m : gmap K V) (k : K) :
  m !! k = None -> k ∉ (map_to_list m).*1.
Proof.
  intros Hk Hin. apply list_elem_of_fmap in Hin as ([k' v] & -> & Hin).
  apply elem_of_map_to_list in Hin. simpl in Hk. congruence.
Qed.


Lemma foldl_accumulate_other (d : gmap systematic bins) (l : list systematic) h k :
  k ∉ l -> foldl (fun d t => sys_accumulate d t h) d l !! k = d !! k.
Proof.
  revert d. induction l as [|t l IH]; intros d Hk; simpl; [done|].
  rewrite not_elem_of_cons in Hk. destruct Hk as [Hne Hk].
  rewrite IH by done. by apply sys_accumulate_lookup_ne.
Qed.

Section Dataset_loops.
Import samples.



Lemma sys_tree_step_other E self selection exprs weighted scale ds current_hist
    sh t sh' k :
  sys_tree_step E self selection exprs weighted scale ds current_hist sh t = Ok sh' ->
  k <> t -> sh' !! k = sh !! k.
Proof.
  unfold sys_tree_step. intros H Hne. case_decide; [by injection H as <-|].
  apply bind_Ok in H as (tr & _ & H). apply bind_Ok in H as (ev & _ & H).
  apply bind_Ok in H as (h & _ & [= <-]). by apply sys_accumulate_lookup_ne.
Qed.

Lemma samples_weight_step_other E selection exprs tree w current_hist sh it sh' k :
  weight_step E selection exprs tree w current_hist sh it = Ok sh' ->
  k <> it.2 -> sh' !! k = sh !! k.
Proof.
  unfold weight_step. intros H Hne.
  apply bind_Ok in H as (h & _ & [= <-]). by apply sys_accumulate_lookup_ne.
Qed.



(** The body of the dataset loop of [draw_into] in [samples.py], split into
    its four parts. *)
Lemma samples_dataset_split E (self : MC) selection exprs weighted scale
    hb sh ds hb' sh' :
  draw_into_dataset E self selection exprs weighted true scale (hb, sh) ds
  = Ok (hb', sh') ->
  exists tree w current_hist sh1 its sh2,
    nominal_fill E self selection exprs weighted scale hb ds
    = Ok (tree, w, current_hist)
    /\ hb' = bins_add hb current_hist
    /\ foldlM (sys_tree_step E self selection exprs weighted scale ds current_hist)
         sh (map_to_list (ds_trees ds)).*1 = Ok sh1
    /\ iter_weight_branches E (s_class self) = Ok its
    /\ foldlM (weight_step E selection exprs tree w current_hist) sh1 its = Ok sh2
    /\ fit_step self current_hist sh2 = Ok sh'.
Proof.
  intros H. unfold draw_into_dataset in H. simpl in H.
  apply bind_Ok in H as ([[tree w] cur] & Hfill & H). simpl in H.
  apply bind_Ok in H as (sh1 & Hloop1 & H).
  apply bind_Ok in H as (its & Hits & H).
  apply bind_Ok in H as (sh2 & Hloop2 & H).
  apply bind_Ok in H as (sh3 & Hfit & [= <- <-]).
  by exists tree, w, cur, sh1, its, sh2.
Qed.
End Dataset_loops.

(** ** Missing variations *)


Section Fallback.

Lemma lookup_or_nominal_missing {V} (d : gmap systematic V)
    (events : gmap systematic Qc) systematic :
  d !! systematic = None ->
  sample.lookup_or_nominal d events systematic
  = sample.lookup_or_nominal d events NOMINAL.
Proof.
  intros Hd. unfold sample.lookup_or_nominal, getitem. rewrite Hd.
  destruct (d !! NOMINAL), (events !! NOMINAL); done.
Qed.



End Fallback.


(** ** Fit errors of Ztautau *)

Section Ztautau_fit.
Import samples.



End Ztautau_fit.


(** ** A table read that raises *)

(** C3, as stated, fails: the table of the only dataset is corrupted, its
    read raises, and [records] returns normally, without that dataset. *)
Lemma read_failure_not_raised :
  sample.read_table (demo.table true) (CVar "OS") None
  = Raise (TableError "ztautau")
  /\ sample.records demo.sample_env (demo.ztautau true) (Some demo.category)
       (Some "OS") None None true NOMINAL 1 None = Ok [].
Proof. split; reflexivity. Qed.

Section Read_failure.

Lemma records_dataset_skipped E self selection wb fields iw systematic scale kw
    recs ids :
  read_skipped E self selection systematic scale kw ids = true ->
  sample.records_dataset E self selection wb fields iw systematic scale kw recs ids
  = Ok recs.
Proof.
  unfold read_skipped, sample.records_dataset.
  destruct (sample.lookup_or_nominal _ _ _) as [[table events]|]; [|done]. simpl.
  destruct (pydiv _ _); [|done]. simpl.
  by destruct (sample.read_table _ _ _).
Qed.

Lemma records_loop_skips E self selection wb fields iw systematic scale kw recs
    (l : list (nat * sample.Dataset)) :
  foldlM (sample.records_dataset E self selection wb fields iw systematic scale kw)
         recs l
  = foldlM (sample.records_dataset E self selection wb fields iw systematic scale kw)
           recs
           (filter (fun ids => read_skipped E self selection systematic scale kw ids
                               = false) l).
Proof.
  revert recs. induction l as [|ids l IH]; intros recs; [done|].
  rewrite filter_cons. case_decide as Hs; simpl.
  - destruct (sample.records_dataset _ _ _ _ _ _ _ _ _ _ _); simpl; [apply IH|done].
  - apply not_false_is_true in Hs.
    rewrite records_dataset_skipped by done. simpl. apply IH.
Qed.

(** C3, amended.  In [SystematicsSample.records] ([sample.py]) a dataset
    whose read raises is left out and the loop goes on: the call returns what
    it returns on the datasets whose read does not raise.  In [MC.records]
    ([samples.py]) the read is not guarded and the exception of the table
    reaches the caller. *)
Theorem records_read_failure :
  (forall E self selection wb fields iw systematic scale kw recs ids table events
          weight e,
     sample.lookup_or_nominal (sample.ds_tables ids.2) (sample.ds_events ids.2)
       systematic = Ok (table, events) ->
     pydiv (scale * sample.actual_scale self systematic
            * sample.LUMI E (sample.s_year self) * sample.ds_xs ids.2
            * sample.ds_kfact ids.2 * sample.ds_effic ids.2) events = Ok weight ->
     sample.read_table table selection kw = Raise e ->
     sample.records_dataset E self selection wb fields iw systematic scale kw recs ids
     = Ok recs)
  /\ (forall E self selection wb fields iw systematic scale kw recs l,
        foldlM (sample.records_dataset E self selection wb fields iw systematic
                  scale kw) recs l
        = foldlM (sample.records_dataset E self selection wb fields iw systematic
                    scale kw) recs
            (filter (fun ids => read_skipped E self selection systematic scale kw ids
                                = false) l))
  /\ (forall E self selection wb fields iw systematic scale kw recs ids table events
             weight e,
        samples.lookup_table ids.2 systematic = Ok (Some table, events) ->
        samples.div_events
          (scale * samples.actual_scale self systematic
           * samples.LUMI E (samples.s_year (samples.mc_base self))
           * samples.ds_xs ids.2 * samples.ds_kfact ids.2 * samples.ds_effic ids.2)
          events = Ok weight ->
        read_where table selection kw = Raise e ->
        samples.records_dataset E self selection wb fields iw systematic scale kw
          recs ids = Raise e).
Proof.
  split; [|split].
  - intros E self selection wb fields iw systematic scale kw recs ids table events
      weight e Hl Hw Hr.
    apply records_dataset_skipped. unfold read_skipped. by rewrite Hl, Hw, Hr.
  - intros. apply records_loop_skips.
  - intros E self selection wb fields iw systematic scale kw recs ids table events
      weight e Hl Hw Hr.
    unfold samples.records_dataset. rewrite Hl. simpl. rewrite Hw. simpl.
    by rewrite Hr.
Qed.
End Read_failure.

Lemma records_read_failure_witness :
  sample.records_dataset demo.sample_env (demo.ztautau true) (CVar "OS")
    ["tau1_id_sf"] None true NOMINAL 1 None [] (0%nat, demo.sample_dataset true)
  = Ok [].
Proof.
  eapply (proj1 records_read_failure); reflexivity.
Defined.

(** ** Determinism of the cut and weight resolution *)

Section Store.
Import sample.

Lemma M_bind_Ok {A B} (m : M A) (f : A -> M B) h a h' :
  m h = (Ok a, h') -> (m ≫= f) h = f a h'.
Proof. unfold mbind, M_bind. by intros ->. Qed.

Lemma M_bind_Raise {A B} (m : M A) (f : A -> M B) h e h' :
  m h = (Raise e, h') -> (m ≫= f) h = (Raise e, h').
Proof. unfold mbind, M_bind. by intros ->. Qed.

Lemma get_list_last (h0 : heap) x :
  get_list (length h0) (h0 ++ [OList x]) = (Ok x, h0 ++ [OList x]).
Proof. unfold get_list. by rewrite list_lookup_middle. Qed.

Lemma get_cut_last (h0 : heap) c :
  get_cut (length h0) (h0 ++ [OCut c]) = (Ok c, h0 ++ [OCut c]).
Proof. unfold get_cut. by rewrite list_lookup_middle. Qed.

Lemma set_obj_last (h0 : heap) o o' :
  set_obj (length h0) o' (h0 ++ [o]) = (Ok tt, h0 ++ [o']).
Proof.
  unfold set_obj. f_equal.
  rewrite insert_app_r_alt by done. by rewrite Nat.sub_diag.
Qed.

Lemma list_iadd_last (h0 : heap) x xs :
  list_iadd (length h0) xs (h0 ++ [OList x]) = (Ok tt, h0 ++ [OList (x ++ xs)]).
Proof.
  unfold list_iadd. rewrite (M_bind_Ok _ _ _ _ _ (get_list_last h0 x)).
  apply set_obj_last.
Qed.

Lemma cut_iand_last (h0 : heap) c other :
  cut_iand (length h0) other (h0 ++ [OCut c])
  = (Ok tt, h0 ++ [OCut (cut_and c other)]).
Proof.
  unfold cut_iand. rewrite (M_bind_Ok _ _ _ _ _ (get_cut_last h0 c)).
  apply set_obj_last.
Qed.

(** The loop of [weights] on the store against the loop on values. *)
Lemma weights_loop_st (h0 : heap) systerm variation
    (items : pydict (pydict (list string))) (cur : list string) :
  exists cur',
    forM_ (fun '(term, variations) =>
             v ← lift (pydict_get variations
                   (if term_matches term systerm then variation else "NOMINAL"));
             list_iadd (length h0) v)
          items (h0 ++ [OList cur])
    = ((fun _ => tt) <$>
         foldlM (fun wf '(term, variations) =>
                   v ← pydict_get variations
                         (if term_matches term systerm then variation else "NOMINAL");
                   mret (wf ++ v)) cur items,
       h0 ++ [OList cur'])
    /\ forall wf,
         foldlM (fun wf '(term, variations) =>
                   v ← pydict_get variations
                         (if term_matches term systerm then variation else "NOMINAL");
                   mret (wf ++ v)) cur items = Ok wf -> cur' = wf.
Proof.
  revert cur. induction items as [|[term variations] items IH]; intros cur.
  - exists cur. split; [done|]. by intros wf [= <-].
  - simpl. destruct (pydict_get variations _) as [v|e] eqn:Hv.
    + destruct (IH (cur ++ v)) as (cur' & Hrun & Hval).
      exists cur'. split; [|exact Hval].
      erewrite M_bind_Ok; [exact Hrun|].
      erewrite M_bind_Ok; [apply list_iadd_last|done].
    + exists cur. split; [|done].
      erewrite M_bind_Raise; [done|].
      reflexivity.
Qed.

Lemma cuts_loop_st (h0 : heap) systerm variation
    (items : pydict (pydict Cut)) (cur : Cut) :
  exists cur',
    forM_ (fun '(term, variations) =>
             v ← lift (pydict_get variations
                   (if term_matches term systerm then variation else "NOMINAL"));
             cut_iand (length h0) v)
          items (h0 ++ [OCut cur])
    = ((fun _ => tt) <$>
         foldlM (fun c '(term, variations) =>
                   v ← pydict_get variations
                         (if term_matches term systerm then variation else "NOMINAL");
                   mret (cut_and c v)) cur items,
       h0 ++ [OCut cur'])
    /\ forall c,
         foldlM (fun c '(term, variations) =>
                   v ← pydict_get variations
                         (if term_matches term systerm then variation else "NOMINAL");
                   mret (cut_and c v)) cur items = Ok c -> cur' = c.
Proof.
  revert cur. induction items as [|[term variations] items IH]; intros cur.
  - exists cur. split; [done|]. by intros c [= <-].
  - simpl. destruct (pydict_get variations _) as [v|e] eqn:Hv.
    + destruct (IH (cut_and cur v)) as (cur' & Hrun & Hval).
      exists cur'. split; [|exact Hval].
      erewrite M_bind_Ok; [exact Hrun|].
      erewrite M_bind_Ok; [apply cut_iand_last|done].
    + exists cur. split; [|done].
      erewrite M_bind_Raise; [done|].
      reflexivity.
Qed.
Lemma trigger_hack_st_spec (self : Sample) (h0 : heap) x :
  exists x',
    trigger_hack_st self (length h0) (h0 ++ [OList x])
    = ((fun _ => tt) <$> trigger_hack self x, h0 ++ [OList x'])
    /\ forall wf, trigger_hack self x = Ok wf -> x' = wf.
Proof.
  unfold trigger_hack_st, trigger_hack.
  rewrite (M_bind_Ok _ _ _ _ _ (get_list_last h0 x)).
  destruct (negb (s_trigger self) && bool_decide ("tau1_trigger_sf" ∈ x)).
  - destruct (list_remove "tau1_trigger_sf" x) as [x1|e] eqn:H1; simpl.
    + erewrite M_bind_Ok; [|done].
      rewrite (M_bind_Ok _ _ _ _ _ (set_obj_last h0 _ (OList x1))).
      destruct (list_remove "tau2_trigger_sf" x1) as [x2|e] eqn:H2; simpl.
      * erewrite M_bind_Ok; [|done].
        rewrite (M_bind_Ok _ _ _ _ _ (set_obj_last h0 _ (OList x2))).
        rewrite set_obj_last. eexists. split; [done|]. by intros wf [= <-].
      * exists x1. split; [|done]. by erewrite M_bind_Raise.
    + exists x. split; [|done]. by erewrite M_bind_Raise.
  - exists x. split; [done|]. by intros wf [= <-].
Qed.

Lemma weight_fields_st_spec (self : Sample) (h : heap) :
  exists pre,
    weight_fields_st self h
    = (Ok (length (h ++ pre)), (h ++ pre) ++ [OList (weight_fields self)]).
Proof.
  unfold weight_fields_st, weight_fields. destruct (s_class self).
  - exists []. by rewrite app_nil_r.
  - exists []. by rewrite app_nil_r.
  - exists [OList []]. unfold new at 1.
    erewrite M_bind_Ok; [|done].
    rewrite (M_bind_Ok _ _ _ _ _ (get_list_last h [])).
    unfold new. by rewrite length_app.
Qed.

(** [weights] on the store returns a new list holding the value of [weights]
    on values, and only extends the store. *)
Lemma weights_st_spec (E : Env) (self : Sample) systematic (h : heap) :
  exists pre x',
    weights_st E self systematic h
    = ((fun _ => length (h ++ pre)) <$> weights E self systematic,
       (h ++ pre) ++ [OList x'])
    /\ forall wf, weights E self systematic = Ok wf -> x' = wf.
Proof.
  unfold weights_st, weights.
  destruct (weight_fields_st_spec self h) as (pre & Hwf).
  exists pre. rewrite (M_bind_Ok _ _ _ _ _ Hwf). set (h0 := h ++ pre).
  destruct (is_SystematicsSample self).
  - destruct (get_sys_term_variation systematic) as [[systerm variation]|e] eqn:Hg;
      simpl.
    + destruct (weights_loop_st h0 systerm variation
                  (dict_items E _ (weight_systematics self)) (weight_fields self))
        as (cur & Hrun & Hval).
      destruct (foldlM _ _ _) as [wf|e] eqn:Hfold; simpl in *.
      * rewrite (Hval wf eq_refl) in Hrun.
        erewrite M_bind_Ok; [|erewrite M_bind_Ok; [|reflexivity]; exact Hrun].
        destruct (trigger_hack_st_spec self h0 wf) as (x' & Hh & Hv).
        exists x'. split; [|exact Hv].
        destruct (trigger_hack self wf); simpl in *.
        -- by erewrite M_bind_Ok.
        -- by erewrite M_bind_Raise.
      * exists cur. split; [|done].
        erewrite M_bind_Raise; [done|].
        erewrite M_bind_Ok; [|reflexivity]. exact Hrun.
    + exists (weight_fields self). split; [|done].
      erewrite M_bind_Raise; [done|]. reflexivity.
  - erewrite M_bind_Ok; [|done]. simpl.
    destruct (trigger_hack_st_spec self h0 (weight_fields self)) as (x' & Hh & Hv).
    exists x'. split; [|exact Hv].
    destruct (trigger_hack self (weight_fields self)); simpl in *.
    + by erewrite M_bind_Ok.
    + by erewrite M_bind_Raise.
Qed.

(** [cuts] on the store returns a new cut holding the value of [cuts] on
    values, and only extends the store: [self._cuts] is left as it was. *)
Lemma cuts_st_spec (E : Env) (self : Sample) self_cuts category region systematic
    (h : heap) :
  h !! self_cuts = Some (OCut (s_cuts self)) ->
  exists c',
    cuts_st E self self_cuts category region systematic h
    = ((fun _ => length h) <$> cuts E self category region systematic,
       h ++ [OCut c'])
    /\ forall c, cuts E self category region systematic = Ok c -> c' = c.
Proof.
  intros Hself. unfold cuts_st, cuts.
  assert (get_cut self_cuts h = (Ok (s_cuts self), h)) as Hget.
  { unfold get_cut. by rewrite Hself. }
  rewrite (M_bind_Ok _ _ _ _ _ Hget). unfold new at 1.
  erewrite M_bind_Ok; [|done].
  set (c1 := match category with
             | Some cat => cut_and (s_cuts self) (get_cuts cat (s_year self))
             | None => s_cuts self
             end).
  assert (match category with
          | Some cat => cut_iand (length h) (get_cuts cat (s_year self))
          | None => mret tt
          end (h ++ [OCut (s_cuts self)]) = (Ok tt, h ++ [OCut c1])) as Hcat.
  { destruct category; [apply cut_iand_last|done]. }
  rewrite (M_bind_Ok _ _ _ _ _ Hcat).
  destruct region as [r|].
  - destruct (getitem (REGIONS E) r) as [reg|e] eqn:Hreg; simpl.
    2:{ exists c1. split; [|done]. erewrite M_bind_Raise; [done|].
        reflexivity. }
    erewrite M_bind_Ok; [|erewrite M_bind_Ok; [apply cut_iand_last|done]].
    set (c2 := cut_and c1 reg).
    set (c3 := if s_trigger self then cut_and c2 (CVar "trigger") else c2).
    assert ((if s_trigger self then cut_iand (length h) (CVar "trigger")
             else mret tt) (h ++ [OCut c2]) = (Ok tt, h ++ [OCut c3])) as Htrig.
    { unfold c3. destruct (s_trigger self); [apply cut_iand_last|done]. }
    rewrite (M_bind_Ok _ _ _ _ _ Htrig).
    destruct (is_SystematicsSample self).
    + destruct (get_sys_term_variation systematic) as [[systerm variation]|e];
        simpl.
      * destruct (cuts_loop_st h systerm variation
                    (dict_items E _ (cut_systematics self)) c3)
          as (cur & Hrun & Hval).
        exists cur. split; [|exact Hval].
        destruct (foldlM _ _ _) as [c|e]; simpl in *.
        -- erewrite M_bind_Ok; [done|].
           erewrite M_bind_Ok; [|reflexivity]. exact Hrun.
        -- erewrite M_bind_Raise; [done|].
           erewrite M_bind_Ok; [|reflexivity]. exact Hrun.
      * exists c3. split; [|done]. erewrite M_bind_Raise; [done|].
        reflexivity.
    + exists c3. split; [|by intros c [= <-]]. by erewrite M_bind_Ok.
  - erewrite M_bind_Ok; [|done].
    set (c3 := if s_trigger self then cut_and c1 (CVar "trigger") else c1).
    assert ((if s_trigger self then cut_iand (length h) (CVar "trigger")
             else mret tt) (h ++ [OCut c1]) = (Ok tt, h ++ [OCut c3])) as Htrig.
    { unfold c3. destruct (s_trigger self); [apply cut_iand_last|done]. }
    rewrite (M_bind_Ok _ _ _ _ _ Htrig).
    destruct (is_SystematicsSample self).
    + destruct (get_sys_term_variation systematic) as [[systerm variation]|e];
        simpl.
      * destruct (cuts_loop_st h systerm variation
                    (dict_items E _ (cut_systematics self)) c3)
          as (cur & Hrun & Hval).
        exists cur. split; [|exact Hval].
        destruct (foldlM _ _ _) as [c|e]; simpl in *.
        -- erewrite M_bind_Ok; [done|].
           erewrite M_bind_Ok; [|reflexivity]. exact Hrun.
        -- erewrite M_bind_Raise; [done|].
           erewrite M_bind_Ok; [|reflexivity]. exact Hrun.
      * exists c3. split; [|done]. erewrite M_bind_Raise; [done|].
        reflexivity.
    + exists c3. split; [|by intros c [= <-]]. by erewrite M_bind_Ok.
Qed.
End Store.

Section Determinism.
Import sample.

Lemma cut_at_new (h : heap) (r : res Cut) c' :
  (forall c, r = Ok c -> c' = c) ->
  cut_at (h ++ [OCut c']) ((fun _ => length h) <$> r) = r.
Proof.
  intros Hc. destruct r as [c|e]; simpl; [|done].
  unfold cut_at. simpl. rewrite list_lookup_middle by done. by rewrite (Hc c).
Qed.

Lemma list_at_new (h : heap) (r : res (list string)) x' :
  (forall x, r = Ok x -> x' = x) ->
  list_at (h ++ [OList x']) ((fun _ => length h) <$> r) = r.
Proof.
  intros Hx. destruct r as [x|e]; simpl; [|done].
  unfold list_at. simpl. rewrite list_lookup_middle by done. by rewrite (Hx x).
Qed.

Lemma cut_at_extend {A} (h k : heap) (r : res A) o :
  cut_at ((h ++ [o]) ++ k) ((fun _ => length h) <$> r)
  = cut_at (h ++ [o]) ((fun _ => length h) <$> r).
Proof.
  destruct r as [a|e]; simpl; [|done]. unfold cut_at. simpl.
  rewrite <- app_assoc. simpl. by rewrite !list_lookup_middle by done.
Qed.

Lemma list_at_extend {A} (h k : heap) (r : res A) o :
  list_at ((h ++ [o]) ++ k) ((fun _ => length h) <$> r)
  = list_at (h ++ [o]) ((fun _ => length h) <$> r).
Proof.
  destruct r as [a|e]; simpl; [|done]. unfold list_at. simpl.
  rewrite <- app_assoc. simpl. by rewrite !list_lookup_middle by done.
Qed.

(** C7. On a store in which [self._cuts] holds the base cut of the sample,
    two calls of [cuts] with the same arguments return cuts with the same
    value, which is the value [cuts] computes from its arguments alone, and
    so select the same rows of any table; two calls of [weights] return lists
    with the same weight branches in the same order.  A later call changes
    neither [self._cuts] nor a result returned before. *)
Theorem cuts_weights_deterministic (E : Env) (self : Sample) self_cuts category
    region systematic (h : heap) :
  h !! self_cuts = Some (OCut (s_cuts self)) ->
  let r1 := cuts_st E self self_cuts category region systematic h in
  let r2 := cuts_st E self self_cuts category region systematic r1.2 in
  let w1 := weights_st E self systematic r2.2 in
  let w2 := weights_st E self systematic w1.2 in
  cut_at r2.2 r2.1 = cut_at r1.2 r1.1
  /\ cut_at r1.2 r1.1 = cuts E self category region systematic
  /\ cut_at w2.2 r1.1 = cut_at r1.2 r1.1
  /\ w2.2 !! self_cuts = Some (OCut (s_cuts self))
  /\ list_at w2.2 w2.1 = list_at w1.2 w1.1
  /\ list_at w1.2 w1.1 = weights E self systematic
  /\ list_at w2.2 w1.1 = list_at w1.2 w1.1
  /\ (forall c1 c2 table kw,
        cut_at r1.2 r1.1 = Ok c1 -> cut_at r2.2 r2.1 = Ok c2 ->
        read_where table c1 kw = read_where table c2 kw).
Proof.
  intros Hself r1 r2 w1 w2.
  destruct (cuts_st_spec E self self_cuts category region systematic h Hself)
    as (c1' & Hr1 & Hc1).
  fold r1 in Hr1.
  assert (r1.2 !! self_cuts = Some (OCut (s_cuts self))) as Hself1.
  { rewrite Hr1. simpl. by apply lookup_app_l_Some. }
  destruct (cuts_st_spec E self self_cuts category region systematic r1.2 Hself1)
    as (c2' & Hr2 & Hc2).
  fold r2 in Hr2.
  destruct (weights_st_spec E self systematic r2.2) as (pre1 & x1 & Hw1 & Hx1).
  fold w1 in Hw1.
  destruct (weights_st_spec E self systematic w1.2) as (pre2 & x2 & Hw2 & Hx2).
  fold w2 in Hw2.
  assert (cut_at r1.2 r1.1 = cuts E self category region systematic) as E1.
  { rewrite Hr1. simpl. by apply cut_at_new. }
  assert (cut_at r2.2 r2.1 = cuts E self category region systematic) as E2.
  { rewrite Hr2. simpl. by apply cut_at_new. }
  assert (list_at w1.2 w1.1 = weights E self systematic) as E3.
  { rewrite Hw1. simpl. by apply list_at_new. }
  assert (list_at w2.2 w2.1 = weights E self systematic) as E4.
  { rewrite Hw2. simpl. by apply list_at_new. }
  assert (exists k, w2.2 = r1.2 ++ k) as [k Hk].
  { rewrite Hw2, Hw1, Hr2. simpl. eexists. by rewrite <- !app_assoc. }
  repeat split.
  - by rewrite E1, E2.
  - exact E1.
  - rewrite Hk. rewrite Hr1. simpl. apply cut_at_extend.
  - rewrite Hk. by apply lookup_app_l_Some.
  - by rewrite E3, E4.
  - exact E3.
  - rewrite Hw2. rewrite Hw1. simpl.
    rewrite <- (app_assoc _ pre2). apply list_at_extend.
  - intros c1 c2 table kw H1 H2. rewrite E1 in H1. rewrite E2 in H2. congruence.
Qed.
End Determinism.

Lemma cuts_weights_deterministic_witness :
  let r1 := sample.cuts_st demo.sample_env (demo.ztautau false) 0
              (Some demo.category) (Some "OS") (SysTuple ["TAUID_UP"])
              [sample.OCut CEmpty] in
  let r2 := sample.cuts_st demo.sample_env (demo.ztautau false) 0
              (Some demo.category) (Some "OS") (SysTuple ["TAUID_UP"]) r1.2 in
  sample.cut_at r2.2 r2.1 = sample.cut_at r1.2 r1.1.
Proof.
  refine (proj1 (cuts_weights_deterministic demo.sample_env (demo.ztautau false) 0
                   (Some demo.category) (Some "OS") (SysTuple ["TAUID_UP"])
                   [sample.OCut CEmpty] _)).
  reflexivity.
Defined.

(** ** Partitions *)

Section Reads.

Lemma indexed_fst {A} (l : list A) : (indexed l).*1 = seq 0 (length l).
Proof.
  unfold indexed. rewrite fmap_imap.
  transitivity (imap (fun (j : nat) (_ : A) => id j) l).
  - by apply imap_ext.
  - rewrite imap_seq_0. apply list_fmap_id.
Qed.



Lemma stride_mod (N i n : nat) :
  (i < N)%nat -> (i <= n /\ (n - i) mod N = 0)%nat <-> (n mod N = i)%nat.
Proof.
  intros Hi. split.
  - intros [Hle Hm]. symmetry. apply (Nat.mod_unique n N ((n - i) / N)); [done|].
    pose proof (Nat.div_mod_eq (n - i) N). lia.
  - intros <-. pose proof (Nat.div_mod_eq n N). split; [lia|].
    replace (n - n mod N)%nat with (n / N * N)%nat by lia.
    apply Nat.Div0.mod_mul.
Qed.

Lemma strided_filter {A} (N i : nat) (l : list (nat * A)) :
  (i < N)%nat ->
  strided i N l = filter (fun x => in_index_partition N i x = true) l.
Proof.
  intros Hi. unfold strided. apply list_filter_iff. intros x.
  unfold in_index_partition. rewrite bool_decide_eq_true. by apply stride_mod.
Qed.

Lemma table_range_partition (t : Table) (N i : nat) :
  (i < N)%nat ->
  table_range t (Some (i, N))
  = Ok (filter (fun x => in_index_partition N i x = true) (indexed (tbl_rows t))).
Proof.
  intros Hi. unfold table_range. destruct N as [|N]; [lia|].
  by rewrite strided_filter.
Qed.


Lemma filter_comm {A} (P Q : A -> Prop) `{forall x, Decision (P x)}
    `{forall x, Decision (Q x)} (l : list A) :
  filter P (filter Q l) = filter Q (filter P l).
Proof. rewrite !list_filter_filter. apply list_filter_iff. tauto. Qed.


Lemma cut_eval_and (a b : Cut) (r : Row) :
  cut_eval (cut_and a b) r = cut_eval a r && cut_eval b r.
Proof.
  unfold cut_and. destruct a; simpl; try done;
    destruct b; simpl; by rewrite ?andb_true_r.
Qed.



End Reads.

Section Partition_of_rows.






End Partition_of_rows.

Section Partitioned_records.
Import sample.

Lemma mapM_res_ext {A B} (f g : A -> res B) (l : list A) :
  (forall x, x ∈ l -> f x = g x) -> mapM_res f l = mapM_res g l.
Proof.
  induction l as [|x l IH]; intros H; simpl; [done|].
  rewrite (H x) by left. rewrite IH; [done|]. intros y Hy. apply H. by right.
Qed.

Lemma mapM_res_Ok {A B} (f : A -> res B) (g : A -> B) (l : list A) :
  (forall x, x ∈ l -> f x = Ok (g x)) -> mapM_res f l = Ok (g <$> l).
Proof.
  induction l as [|x l IH]; intros H; simpl; [done|].
  rewrite (H x) by left. simpl. rewrite IH; [done|]. intros y Hy. apply H. by right.
Qed.

Lemma foldlM_ext {A S} (f g : S -> A -> res S) (s : S) (l : list A) :
  (forall s x, x ∈ l -> f s x = g s x) -> foldlM f s l = foldlM g s l.
Proof.
  revert s. induction l as [|x l IH]; intros s H; simpl; [done|].
  rewrite (H s x) by left. destruct (g s x); simpl; [|done].
  apply IH. intros s' y Hy. apply H. by right.
Qed.









End Partitioned_records.

Section Partitions.
Import sample.

Lemma NoDup_fst_inj {A B} (l : list (A * B)) (x y : A * B) :
  NoDup l.*1 -> x ∈ l -> y ∈ l -> x.1 = y.1 -> x = y.
Proof.
  induction l as [|z l IH]; intros Hnd Hx Hy Heq.
  - by apply elem_of_nil in Hx.
  - simpl in Hnd. apply NoDup_cons in Hnd as [Hz Hnd].
    apply elem_of_cons in Hx as [->|Hx]; apply elem_of_cons in Hy as [->|Hy].
    + done.
    + exfalso. apply Hz. rewrite Heq. by apply list_elem_of_fmap_2.
    + exfalso. apply Hz. rewrite <- Heq. by apply list_elem_of_fmap_2.
    + by apply IH.
Qed.



End Partitions.


(** * Further properties *)

(** ** Parsing the name of a systematic *)

Section Splitting.
Context (sep : ascii).

Lemma split_on_ne (s : string) : split_on sep s <> [].
Proof.
  destruct s as [|c s]; simpl; [done|].
  case_decide; [done|]. by destruct (split_on sep s).
Qed.

Lemma split_on_none (s : string) : occurs sep s = false -> split_on sep s = [s].
Proof.
  induction s as [|c s IH]; simpl; [done|].
  intros H. apply orb_false_iff in H as [Hc Hs].
  apply bool_decide_eq_false in Hc. rewrite decide_False by done.
  by rewrite IH.
Qed.

Lemma split_on_app (a b : string) :
  split_on sep (a +:+ String sep b) = split_on sep a ++ split_on sep b.
Proof.
  induction a as [|c a IH]; simpl.
  - by rewrite decide_True.
  - case_decide; [by rewrite IH|].
    rewrite IH. pose proof (split_on_ne a).
    by destruct (split_on sep a).
Qed.

Lemma split_on_parts (s p : string) : p ∈ split_on sep s -> occurs sep p = false.
Proof.
  revert p. induction s as [|c s IH]; simpl; intros p Hp.
  - by apply list_elem_of_singleton in Hp as ->.
  - case_decide as Hc.
    + apply elem_of_cons in Hp as [->|Hp]; [done|]. by apply IH.
    + pose proof (split_on_ne s). destruct (split_on sep s) as [|q qs]; [done|].
      apply elem_of_cons in Hp as [->|Hp].
      * simpl. rewrite bool_decide_eq_false_2 by done. apply IH. by left.
      * apply IH. by right.
Qed.

Lemma join_split (s : string) :
  join_with (String sep EmptyString) (split_on sep s) = s.
Proof.
  induction s as [|c s IH]; simpl; [done|].
  case_decide as Hc.
  - subst. pose proof (split_on_ne s).
    destruct (split_on sep s) as [|q qs] eqn:Hq; [done|].
    change (join_with (String sep EmptyString) (EmptyString :: q :: qs))
      with (EmptyString +:+ String sep EmptyString
            +:+ join_with (String sep EmptyString) (q :: qs)).
    by rewrite IH.
  - pose proof (split_on_ne s).
    destruct (split_on sep s) as [|q qs] eqn:Hq; [done|].
    destruct qs as [|q' qs]; simpl in *; by rewrite <- IH.
Qed.

Lemma split_on_two (s a b : string) :
  split_on sep s = [a; b]
  <-> s = a +:+ String sep b /\ occurs sep a = false /\ occurs sep b = false.
Proof.
  split.
  - intros H. split; [|split].
    + rewrite <- (join_split s), H. done.
    + apply (split_on_parts s). rewrite H. by left.
    + apply (split_on_parts s). rewrite H. right. by left.
  - intros (-> & Ha & Hb). by rewrite split_on_app, !split_on_none.
Qed.

Lemma rsplit1_app (base var : string) :
  occurs sep var = false -> rsplit1 sep (base +:+ String sep var) = [base; var].
Proof.
  intros Hv. unfold rsplit1. rewrite split_on_app, (split_on_none var Hv).
  rewrite reverse_app. simpl.
  pose proof (split_on_ne base) as Hne.
  destruct (reverse (split_on sep base)) as [|x front] eqn:Hr.
  { exfalso. apply Hne. apply (f_equal reverse) in Hr.
    by rewrite reverse_involutive in Hr. }
  rewrite <- Hr, reverse_involutive. by rewrite join_split.
Qed.

Lemma rsplit1_none (s : string) : occurs sep s = false -> rsplit1 sep s = [s].
Proof. intros H. unfold rsplit1. by rewrite (split_on_none s H). Qed.
End Splitting.

Lemma sample_parse_last (base var : string) :
  occurs underscore var = false ->
  sample.get_sys_term_variation (SysTuple [base +:+ "_" +:+ var]) = Ok (Some base, var).
Proof.
  intros H. unfold sample.get_sys_term_variation.
  change (base +:+ "_" +:+ var) with (base +:+ String underscore var).
  by rewrite rsplit1_app.
Qed.

Lemma samples_parse_iff (t a b : string) :
  samples.get_sys_term_variation (SysTuple [t]) = Ok (Some a, b)
  <-> t = a +:+ "_" +:+ b
      /\ occurs underscore a = false /\ occurs underscore b = false.
Proof.
  rewrite <- (split_on_two underscore t a b).
  unfold samples.get_sys_term_variation. simpl.
  destruct (split_on underscore t) as [|x [|y [|z l]]]; split; try done.
  - by intros [= -> ->].
  - by intros [= -> ->].
Qed.

(** X1. [SystematicsSample.get_sys_term_variation] of [sample.py] splits the
    name of a one-name term at its last underscore: ['%s_%s' % (base, var)]
    gives [(base, var)] whenever [var] holds no underscore, whatever [base]
    holds.  A name without underscore cannot be unpacked and raises
    [ValueError]; a term of several names, like ['NOMINAL'], gives
    [(None, 'NOMINAL')]. *)
Theorem sample_parse_at_last_underscore (base var t t1 t2 : string) (ts : list string) :
  (occurs underscore var = false ->
   sample.get_sys_term_variation (SysTuple [base +:+ "_" +:+ var])
   = Ok (Some base, var))
  /\ (occurs underscore t = false ->
      sample.get_sys_term_variation (SysTuple [t])
      = Raise (ValueError "wrong number of values to unpack"))
  /\ sample.get_sys_term_variation (SysTuple (t1 :: t2 :: ts)) = Ok (None, "NOMINAL")
  /\ sample.get_sys_term_variation NOMINAL = Ok (None, "NOMINAL").
Proof.
  split; [|split; [|done]].
  - intros H. unfold sample.get_sys_term_variation.
    change (base +:+ "_" +:+ var) with (base +:+ String underscore var).
    by rewrite rsplit1_app.
  - intros H. unfold sample.get_sys_term_variation. by rewrite rsplit1_none.
Qed.

Lemma sample_parse_at_last_underscore_witness :
  sample.get_sys_term_variation (SysTuple ["MET_RESOSOFTTERMS_UP"])
  = Ok (Some "MET_RESOSOFTTERMS", "UP")
  /\ sample.get_sys_term_variation (SysTuple ["NOMINAL"])
     = Raise (ValueError "wrong number of values to unpack").
Proof.
  split.
  - apply (proj1 (sample_parse_at_last_underscore "MET_RESOSOFTTERMS" "UP"
                    "" "" "" [])).
    reflexivity.
  - apply (proj1 (proj2 (sample_parse_at_last_underscore "" "" "NOMINAL" "" "" []))).
    reflexivity.
Defined.

(** X2. [Sample.get_sys_term_variation] of [samples.py] splits at every
    underscore: it returns [(a, b)] exactly for the names [a_b] with no other
    underscore.  Whenever it returns, the method of [sample.py] returns the
    same pair; on a name with two underscores or more it raises [ValueError],
    where the method of [sample.py] still returns. *)
Theorem samples_parse_one_underscore (t : string) :
  (forall a b,
     samples.get_sys_term_variation (SysTuple [t]) = Ok (Some a, b)
     <-> t = a +:+ "_" +:+ b
         /\ occurs underscore a = false /\ occurs underscore b = false)
  /\ (forall r,
        samples.get_sys_term_variation (SysTuple [t]) = Ok r ->
        sample.get_sys_term_variation (SysTuple [t]) = Ok r)
  /\ (forall a b c,
        t = a +:+ "_" +:+ b +:+ "_" +:+ c ->
        samples.get_sys_term_variation (SysTuple [t])
        = Raise (ValueError "wrong number of values to unpack")).
Proof.
  pose proof (samples_parse_iff t) as Hiff.
  split; [exact Hiff|]. split.
  - intros [systerm variation] H.
    assert (exists a, systerm = Some a) as [a ->].
    { unfold samples.get_sys_term_variation in H. simpl in H.
      destruct (split_on underscore t) as [|x [|y [|z l]]]; try done.
      injection H as <- _. by eexists. }
    apply Hiff in H as (-> & _ & Hb).
    by apply sample_parse_last.
  - intros a b c ->. unfold samples.get_sys_term_variation. simpl.
    change (a +:+ "_" +:+ b +:+ "_" +:+ c)
      with (a +:+ String underscore (b +:+ String underscore c)).
    rewrite !split_on_app.
    pose proof (split_on_ne underscore a). pose proof (split_on_ne underscore b).
    pose proof (split_on_ne underscore c).
    set (l := split_on underscore a ++ split_on underscore b ++ split_on underscore c).
    assert (3 <= length l)%nat as Hl.
    { unfold l. rewrite !length_app.
      destruct (split_on underscore a), (split_on underscore b),
        (split_on underscore c); simpl; try done; lia. }
    destruct l as [|? [|? [|? ?]]]; simpl in *; try lia; done.
Qed.

Lemma samples_parse_one_underscore_witness :
  samples.get_sys_term_variation (SysTuple ["JES_UP"]) = Ok (Some "JES", "UP")
  /\ samples.get_sys_term_variation (SysTuple ["MET_RESOSOFTTERMS_UP"])
     = Raise (ValueError "wrong number of values to unpack").
Proof.
  split.
  - apply (proj1 (samples_parse_one_underscore "JES_UP")). by repeat split.
  - by apply (proj2 (proj2 (samples_parse_one_underscore "MET_RESOSOFTTERMS_UP"))
               "MET" "RESOSOFTTERMS" "UP").
Defined.

(** ** Cuts, data records and event counts *)

Section Selections.

Lemma resolved_cuts_loop {A} (f : A -> res Cut) (l : list A) (c0 c : Cut) :
  foldlM (fun c x => v ← f x; mret (cut_and c v)) c0 l = Ok c ->
  exists vs, Forall2 (fun x v => f x = Ok v) l vs
             /\ forall r, cut_eval c r = cut_eval c0 r && forallb (fun v => cut_eval v r) vs.
Proof.
  revert c0. induction l as [|x l IH]; intros c0 H; simpl in H.
  - injection H as <-. exists []. split; [constructor|].
    intros r. simpl. by rewrite andb_true_r.
  - apply bind_Ok in H as (c1 & H1 & H).
    apply bind_Ok in H1 as (v & Hv & [= <-]).
    destruct (IH _ H) as (vs & Hvs & Heval).
    exists (v :: vs). split; [by constructor|].
    intros r. rewrite Heval, cut_eval_and. simpl. by rewrite andb_assoc.
Qed.

(** X3. [Sample.cuts] of [samples.py]: when it returns, the region is a key
    of [REGIONS], and the cut selects the rows that pass the cuts of the
    category, of the region and of the sample and, for an embedded Ztautau
    sample, one cut of every family of [EMBEDDING_SYSTEMATICS]: the variation
    asked for in the family the systematic names, the nominal one in the
    others.  For the other classes no cut of these families is applied. *)
Theorem samples_cuts_conjunction (E : samples.Env) (self : samples.Sample)
    category region systematic c :
  samples.cuts E self category region systematic = Ok c ->
  exists reg sys_cuts,
    samples.REGIONS E !! region = Some reg
    /\ (if samples.issubclass (samples.s_class self) samples.C_Embedded_Ztautau then
          exists systerm variation,
            samples.get_sys_term_variation systematic = Ok (systerm, variation)
            /\ Forall2 (fun '(term, variations) v =>
                          pydict_get variations
                            (if samples.term_matches term systerm
                             then variation else "NOMINAL") = Ok v)
                       (samples.EMBEDDING_SYSTEMATICS E) sys_cuts
        else sys_cuts = [])
    /\ forall r,
         cut_eval c r
         = cut_eval (get_cuts category (samples.s_year self)) r
           && cut_eval reg r
           && cut_eval (samples.s_cuts self) r
           && forallb (fun v => cut_eval v r) sys_cuts.
Proof.
  unfold samples.cuts. intros H.
  apply bind_Ok in H as (sys_cut & Hsys & H).
  apply bind_Ok in H as (reg & Hreg & [= <-]).
  unfold getitem in Hreg. destruct (samples.REGIONS E !! region) as [reg'|] eqn:Hr; [|done].
  injection Hreg as ->.
  destruct (samples.issubclass _ _).
  - apply bind_Ok in Hsys as ([systerm variation] & Hparse & Hloop).
    destruct (resolved_cuts_loop
                (fun tv : string * pydict Cut =>
                   pydict_get tv.2 (if samples.term_matches tv.1 systerm
                                    then variation else "NOMINAL"))
                (samples.EMBEDDING_SYSTEMATICS E) CEmpty sys_cut)
      as (vs & Hvs & Heval).
    { rewrite <- Hloop. apply foldlM_ext. by intros ? [] _. }
    exists reg, vs. split; [done|]. split.
    + exists systerm, variation. split; [done|].
      eapply Forall2_impl; [exact Hvs|]. by intros [] ?.
    + intros r. rewrite !cut_eval_and, Heval. done.
  - injection Hsys as <-. exists reg, []. split; [done|]. split; [done|].
    intros r. by rewrite !cut_eval_and.
Qed.

Lemma samples_cuts_conjunction_witness :
  exists reg,
    samples.REGIONS demo.samples_env !! "OS" = Some reg
    /\ forall r,
         cut_eval (CVar "OS") r
         = cut_eval CEmpty r && cut_eval reg r && cut_eval CEmpty r && true.
Proof.
  destruct (samples_cuts_conjunction demo.samples_env (samples.data_base demo.data) demo.category "OS"
              NOMINAL (CVar "OS") eq_refl) as (reg & sys_cuts & Hreg & Hsys & Heval).
  simpl in Hsys. subst sys_cuts. by exists reg.
Defined.

(** X4. [Sample.cuts] of [sample.py], in whatever order the dicts are
    iterated: the cut returned selects the rows that pass the cuts of the
    sample, of the category and of the region when these are given, and that
    have a trigger when the sample asks for it.  A region that is given must
    be a key of [REGIONS].  [cut_systematics] being empty, the cut does not
    depend on the systematic: the nominal call returns the same cut. *)
Theorem sample_cuts_conjunction (E : sample.Env) (self : sample.Sample)
    category region systematic c :
  dict_order E ->
  sample.cuts E self category region systematic = Ok c ->
  (forall r,
     cut_eval c r
     = cut_eval (sample.s_cuts self) r
       && match category with
          | Some cat => cut_eval (get_cuts cat (sample.s_year self)) r
          | None => true
          end
       && match region ≫= (fun rg => sample.REGIONS E !! rg) with
          | Some reg => cut_eval reg r
          | None => true
          end
       && (if sample.s_trigger self then negb (bool_decide (row_get r "trigger" = 0))
           else true))
  /\ (forall rg, region = Some rg -> is_Some (sample.REGIONS E !! rg))
  /\ sample.cuts E self category region NOMINAL = Ok c.
Proof.
  intros Hord H. unfold sample.cuts in *.
  assert (sample.dict_items E _ (sample.cut_systematics self) = []) as Hitems.
  { apply Permutation_nil_r. apply Hord. }
  rewrite Hitems in *. simpl in *.
  destruct region as [rg|]; simpl in *.
  - unfold getitem in *. destruct (sample.REGIONS E !! rg) as [reg|] eqn:Hreg; [|done].
    simpl in *.
    assert (c = (if sample.s_trigger self
                 then cut_and (cut_and (match category with
                                         | Some cat => cut_and (sample.s_cuts self)
                                             (get_cuts cat (sample.s_year self))
                                         | None => sample.s_cuts self end) reg)
                              (CVar "trigger")
                 else cut_and (match category with
                               | Some cat => cut_and (sample.s_cuts self)
                                   (get_cuts cat (sample.s_year self))
                               | None => sample.s_cuts self end) reg)) as ->.
    { destruct (sample.is_SystematicsSample self).
      - apply bind_Ok in H as ([? ?] & _ & H). by injection H as <-.
      - by injection H as <-. }
    split; [|split].
    + intros r. destruct (sample.s_trigger self), category;
        rewrite ?cut_eval_and; simpl; by rewrite ?andb_true_r.
    + intros ? [= <-]. by rewrite Hreg.
    + by destruct (sample.is_SystematicsSample self).
  - assert (c = (if sample.s_trigger self
                 then cut_and (match category with
                               | Some cat => cut_and (sample.s_cuts self)
                                   (get_cuts cat (sample.s_year self))
                               | None => sample.s_cuts self end)
                              (CVar "trigger")
                 else match category with
                      | Some cat => cut_and (sample.s_cuts self)
                          (get_cuts cat (sample.s_year self))
                      | None => sample.s_cuts self end)) as ->.
    { destruct (sample.is_SystematicsSample self).
      - apply bind_Ok in H as ([? ?] & _ & H). by injection H as <-.
      - by injection H as <-. }
    split; [|split].
    + intros r. destruct (sample.s_trigger self), category;
        rewrite ?cut_eval_and; simpl; by rewrite ?andb_true_r.
    + done.
    + by destruct (sample.is_SystematicsSample self).
Qed.
End Selections.

Lemma sample_cuts_conjunction_witness :
  is_Some (sample.REGIONS demo.sample_env !! "OS")
  /\ sample.cuts demo.sample_env (demo.ztautau false) (Some demo.category)
       (Some "OS") NOMINAL = Ok (CVar "OS").
Proof.
  destruct (sample_cuts_conjunction demo.sample_env (demo.ztautau false)
              (Some demo.category) (Some "OS") (SysTuple ["JES_UP"]) (CVar "OS"))
    as (_ & Hreg & Hnom).
  - intros V d. reflexivity.
  - reflexivity.
  - split; [exact (Hreg "OS" eq_refl)|exact Hnom].
Defined.

Section Data_retrieval.
Import samples.

Lemma read_where_fst (t : Table) sel kw rows :
  read_where t sel kw = Ok rows ->
  exists all, table_range t kw = Ok all
              /\ rows = filter (fun x => cut_eval sel x.2 = true) all.
Proof.
  unfold read_where. destruct (_ || _); [done|].
  destruct (table_range t kw) as [all|]; simpl; [|done].
  intros [= <-]. by exists all.
Qed.

(** X5. [Data.records] of [samples.py] with the weight: one record array,
    with the rows that the nominal cuts select in the table of the data (the
    systematic is not used), and a field [weight] that is 1 in every row.
    With [fields], the columns are these fields and [weight]. *)
Theorem Data_records_unit_weights (E : Env) (self : Data) category region fields
    cuts_arg systematic kw recs :
  Data_records E self category region fields cuts_arg true systematic kw = Ok recs ->
  exists rec c rows,
    recs = [rec]
    /\ cuts E self category region NOMINAL = Ok c
    /\ read_where (data_h5data self) (cut_and_opt c cuts_arg) kw = Ok rows
    /\ (ra_rows rec).*1 = rows.*1
    /\ "weight" ∈ ra_cols rec
    /\ (forall fs, fields = Some fs -> forall col, col ∈ ra_cols rec <-> col ∈ fs ++ ["weight"])
    /\ forall x, x ∈ ra_rows rec -> x.2 !! "weight" = Some 1.
Proof.
  unfold Data_records. intros H.
  apply bind_Ok in H as ([] & _ & H).
  apply bind_Ok in H as (c & Hc & H).
  apply bind_Ok in H as (rows & Hrows & H).
  apply bind_Ok in H as (rec & Hrec & [= <-]).
  exists rec, c, rows. split; [done|]. split; [done|]. split; [done|].
  destruct fields as [fs|]; simpl in Hrec.
  - set (fs' := if negb (bool_decide ("weight" ∈ fs)) then fs ++ ["weight"] else fs).
    assert (rec_project
              (rec_append_weight
                 {| ra_source := 0; ra_cols := tbl_cols (data_h5data self);
                    ra_rows := rows |} (fun _ => 1)) fs' = Ok rec) as Hrec'.
    { unfold fs'. by destruct (negb _). }
    clear Hrec. unfold rec_project in Hrec'. case_decide as Hall; [|done].
    injection Hrec' as <-. simpl.
    assert (forall col, col ∈ fs' <-> col ∈ fs ++ ["weight"]) as Hfs.
    { intros col. unfold fs'. case_bool_decide; simpl; [|done].
      rewrite elem_of_app, list_elem_of_singleton. split; [by left|].
      by intros [?| ->]. }
    assert ("weight" ∈ fs') as Hw.
    { apply Hfs. apply elem_of_app. right. by left. }
    split; [|split; [done|split]].
    + rewrite <- !list_fmap_compose. by apply list_fmap_ext.
    + intros ? [= <-]. exact Hfs.
    + intros x Hx. apply list_elem_of_fmap in Hx as (y & -> & Hy).
      apply list_elem_of_fmap in Hy as (z & -> & Hz). simpl.
      apply map_lookup_filter_Some. split; [|done].
      by rewrite lookup_insert_eq.
  - injection Hrec as <-. simpl. split; [|split; [|split]].
    + rewrite <- !list_fmap_compose. by apply list_fmap_ext.
    + apply elem_of_app. right. by left.
    + done.
    + intros x Hx. apply list_elem_of_fmap in Hx as (y & -> & Hy). simpl.
      by rewrite lookup_insert_eq.
Qed.
End Data_retrieval.

Lemma Data_records_unit_weights_witness :
  exists rec,
    samples.Data_records demo.samples_env demo.data demo.category "OS" None None
      true (SysTuple ["JES_UP"]) None = Ok [rec]
    /\ forall x, x ∈ ra_rows rec -> x.2 !! "weight" = Some 1.
Proof.
  destruct (Data_records_unit_weights demo.samples_env demo.data demo.category "OS"
              None None (SysTuple ["JES_UP"]) None _ eq_refl)
    as (rec & c & rows & Hrecs & _ & _ & _ & _ & _ & Hw).
  exists rec. split; [|exact Hw]. by rewrite <- Hrecs.
Defined.

Section Raising_loops.
Context {A S : Type} (f : S -> A -> res S).

Lemma foldlM_raises (x : A) (l : list A) (s : S) :
  x ∈ l -> (forall s, exists e, f s x = Raise e) -> exists e, foldlM f s l = Raise e.
Proof.
  intros Hx Hf. revert s. induction l as [|y l IH]; intros s.
  - by apply elem_of_nil in Hx.
  - simpl. apply elem_of_cons in Hx as [<-|Hx].
    + destruct (Hf s) as [e ->]. by exists e.
    + destruct (f s y) as [s'|e]; simpl; [by apply IH|by exists e].
Qed.
End Raising_loops.

Section MC_counts.
Import samples.

(** X6. [MC.events] of [samples.py] does not fall back to the nominal tree:
    when a dataset of the sample has no tree for the systematic (no entry, or
    the entry [None] of a term the database does not have), the call raises,
    for the weighted count as for the raw one. *)
Theorem MC_events_no_fallback (E : Env) (self : MC) category region cuts_arg
    systematic weighted scale raw ds :
  ds ∈ mc_datasets self ->
  ds_trees ds !! systematic = None \/ ds_trees ds !! systematic = Some None ->
  exists e,
    MC_events E self category region cuts_arg systematic weighted scale raw = Raise e.
Proof.
  intros Hds Htree. unfold MC_events.
  destruct (foldlM_raises
    (fun total ds =>
      tree ← getitem (ds_trees ds) systematic;
      events ← getitem (ds_events ds) systematic;
      if raw then
        c ← cuts E self category region systematic;
        tree ← the_tree tree;
        mret (total + GetEntries E tree (cut_and_opt c cuts_arg))
      else
        weight ← div_events (LUMI E (s_year self) * s_scale self * ds_xs ds
                             * ds_kfact ds * ds_effic ds) events;
        wb ← get_weight_branches E (s_class self) systematic false false weighted;
        c ← cuts E self category region systematic;
        tree ← the_tree tree;
        mret (total + Integral (Draw E tree "1"
                {| wsel_weight := weight; wsel_branches := wb;
                   wsel_cut := cut_and_opt c cuts_arg |} [0])))
    ds (mc_datasets self) 0 Hds) as [e ->]; [|by exists e].
  intros total. destruct Htree as [Ht|Ht].
  - rewrite (getitem_None _ _ Ht). by eexists.
  - rewrite (getitem_Some _ _ _ Ht). simpl.
    destruct (getitem (ds_events ds) systematic) as [ev|e]; simpl; [|by eexists].
    destruct raw.
    + destruct (cuts E self category region systematic); simpl; by eexists.
    + destruct (div_events _ ev); simpl; [|by eexists].
      destruct (get_weight_branches _ _ _ _ _ _); simpl; [|by eexists].
      destruct (cuts E self category region systematic); simpl; by eexists.
Qed.
End MC_counts.

Lemma MC_events_no_fallback_witness :
  exists e,
    samples.MC_events demo.samples_env demo.ewk demo.category "OS" None
      (SysTuple ["JES_UP"]) true 1 false = Raise e.
Proof.
  apply (MC_events_no_fallback demo.samples_env demo.ewk demo.category "OS" None
           (SysTuple ["JES_UP"]) true 1 false demo.dataset).
  - apply list_elem_of_here.
  - left. reflexivity.
Defined.

(** ** Nominal bins and fit entries *)

Section Nominal_fill.

Lemma samples_dataset_nominal E (self : samples.MC) sel exprs weighted scale
    hb sh ds hb' sh' sh0 :
  samples.draw_into_dataset E self sel exprs weighted true scale (hb, sh) ds
  = Ok (hb', sh') ->
  samples.draw_into_dataset E self sel exprs weighted false scale (hb, sh0) ds
  = Ok (hb', sh0).
Proof.
  unfold samples.draw_into_dataset. simpl. intros H.
  apply bind_Ok in H as ([[tree w] cur] & -> & H). simpl in *.
  apply bind_Ok in H as (sh1 & _ & H).
  apply bind_Ok in H as (its & _ & H).
  apply bind_Ok in H as (sh2 & _ & H).
  apply bind_Ok in H as (sh3 & _ & [= <- _]). done.
Qed.

Lemma samples_loop_nominal E (self : samples.MC) sel exprs weighted scale
    (l : list samples.Dataset) hb sh hb' sh' sh0 :
  foldlM (samples.draw_into_dataset E self sel exprs weighted true scale) (hb, sh) l
  = Ok (hb', sh') ->
  foldlM (samples.draw_into_dataset E self sel exprs weighted false scale) (hb, sh0) l
  = Ok (hb', sh0).
Proof.
  revert hb sh. induction l as [|ds l IH]; intros hb sh H; simpl in *.
  - by injection H as <- _.
  - apply bind_Ok in H as ([hb1 sh1] & H1 & H).
    rewrite (samples_dataset_nominal _ _ _ _ _ _ _ _ _ _ _ sh0 H1). simpl.
    by eapply IH.
Qed.

Lemma sample_dataset_nominal E (self : sample.Sample) sel exprs components scale
    hb sh ds hb' sh' sh0 :
  sample.draw_into_dataset E self sel exprs true components scale (hb, sh) ds
  = Ok (hb', sh') ->
  sample.draw_into_dataset E self sel exprs false components scale (hb, sh0) ds
  = Ok (hb', sh0).
Proof.
  unfold sample.draw_into_dataset. simpl. intros H.
  apply bind_Ok in H as ([[tree w] cur] & -> & H). simpl in *.
  apply bind_Ok in H as (sh1 & _ & H).
  apply bind_Ok in H as (its & _ & [= <- _]). done.
Qed.

Lemma sample_loop_nominal E (self : sample.Sample) sel exprs components scale
    (l : list sample.Dataset) hb sh hb' sh' sh0 :
  foldlM (sample.draw_into_dataset E self sel exprs true components scale) (hb, sh) l
  = Ok (hb', sh') ->
  foldlM (sample.draw_into_dataset E self sel exprs false components scale) (hb, sh0) l
  = Ok (hb', sh0).
Proof.
  revert hb sh. induction l as [|ds l IH]; intros hb sh H; simpl in *.
  - by injection H as <- _.
  - apply bind_Ok in H as ([hb1 sh1] & H1 & H).
    rewrite (sample_dataset_nominal _ _ _ _ _ _ _ _ _ _ _ sh0 H1). simpl.
    by eapply IH.
Qed.

(** X7. In both modules the systematics do not change the nominal bins: when
    [draw_into] returns with [systematics=True], the call with
    [systematics=False] returns too, with the same bins, and leaves the
    attribute [systematics] of the histogram as it was. *)
Theorem nominal_bins_ignore_systematics :
  (forall (E : samples.Env) (self : samples.MC) hist expr category region cuts_arg
          weighted scale h,
     samples.MC_draw_into E self hist expr category region cuts_arg weighted true scale
     = Ok h ->
     samples.MC_draw_into E self hist expr category region cuts_arg weighted false scale
     = Ok {| h_bins := h_bins h; h_systematics := h_systematics hist |})
  /\ (forall (E : sample.Env) (self : sample.Sample) hist expr category region
             cuts_arg components scale h,
        sample.draw_into E self hist expr category region cuts_arg true components
          scale = Ok h ->
        sample.draw_into E self hist expr category region cuts_arg false components
          scale
        = Ok {| h_bins := h_bins h; h_systematics := h_systematics hist |}).
Proof.
  split.
  - intros E self hist expr category region cuts_arg weighted scale h.
    unfold samples.MC_draw_into. rewrite andb_false_r, andb_true_r.
    intros H. apply bind_Ok in H as (c & -> & H). simpl.
    apply bind_Ok in H as ([hb' sh'] & H & [= <-]). simpl.
    destruct (samples.mc_systematics self).
    + by rewrite (samples_loop_nominal _ _ _ _ _ _ _ _ _ _ _ _ H).
    + by rewrite H.
  - intros E self hist expr category region cuts_arg components scale h.
    unfold sample.draw_into. rewrite andb_false_r, andb_true_r.
    intros H. apply bind_Ok in H as (c & -> & H). simpl.
    apply bind_Ok in H as ([hb' sh'] & H & [= <-]). simpl.
    destruct (sample.s_systematics self).
    + by rewrite (sample_loop_nominal _ _ _ _ _ _ _ _ _ _ _ _ H).
    + by rewrite H.
Qed.
End Nominal_fill.

Lemma nominal_bins_ignore_systematics_witness :
  exists h,
    samples.MC_draw_into demo.samples_env demo.ewk demo.hist0 (Expr1 "x")
      demo.category "OS" None true true 1 = Ok h
    /\ samples.MC_draw_into demo.samples_env demo.ewk demo.hist0 (Expr1 "x")
         demo.category "OS" None true false 1
       = Ok {| h_bins := h_bins h; h_systematics := None |}.
Proof.
  eexists. split; [reflexivity|].
  apply (proj1 nominal_bins_ignore_systematics demo.samples_env demo.ewk demo.hist0
           (Expr1 "x") demo.category "OS" None true 1).
  reflexivity.
Defined.

Lemma foldl_accumulate_entry (d : gmap systematic bins) (l : list systematic) h k :
  NoDup l -> k ∈ l ->
  foldl (fun d t => sys_accumulate d t h) d l !! k
  = Some (match d !! k with None => h | Some h0 => bins_add h0 h end).
Proof.
  revert d. induction l as [|t l IH]; intros d Hnd Hk.
  - by apply elem_of_nil in Hk.
  - apply NoDup_cons in Hnd as [Ht Hnd]. simpl.
    apply elem_of_cons in Hk as [->|Hk].
    + rewrite foldl_accumulate_other by done. apply sys_accumulate_lookup_eq.
    + rewrite IH by done. rewrite sys_accumulate_lookup_ne; [done|].
      by intros ->.
Qed.

Section Fit_entries.
Import samples.

Lemma fit_step_nominal_entry (self : MC) (current_hist : bins) sh sh' k :
  fit_step self current_hist sh = Ok sh' ->
  k ∈ [QCDFIT_UP; QCDFIT_DOWN]
  \/ (is_Ztautau self = false /\ k ∈ [ZFIT_UP; ZFIT_DOWN]) ->
  sh' !! k
  = Some (match sh !! k with
          | None => current_hist
          | Some h0 => bins_add h0 current_hist
          end).
Proof.
  intros H Hk. unfold fit_step in H. apply bind_Ok in H as (sh1 & Hz & [= <-]).
  change (mret ?x = Ok ?y) with (Ok x = Ok y) in *.
  set (fits := fun (l : list systematic) d =>
                 foldl (fun d t => sys_accumulate d t current_hist) d l).
  change (sys_accumulate (sys_accumulate sh1 QCDFIT_UP current_hist) QCDFIT_DOWN
            current_hist) with (fits [QCDFIT_UP; QCDFIT_DOWN] sh1).
  unfold fits. clear fits.
  destruct Hk as [Hk|[Hz' Hk]].
  - rewrite foldl_accumulate_entry; [|by_compute|done].
    assert (sh1 !! k = sh !! k) as ->; [|done].
    assert (k <> ZFIT_UP /\ k <> ZFIT_DOWN) as [? ?].
    { apply elem_of_cons in Hk as [->|Hk]; [done|].
      by apply list_elem_of_singleton in Hk as ->. }
    destruct (is_Ztautau self).
    + apply bind_Ok in Hz as (up & _ & Hz). apply bind_Ok in Hz as (down & _ & Hz).
      destruct (sh !! ZFIT_UP).
      * apply bind_Ok in Hz as (h_down & _ & [= <-]).
        by rewrite !lookup_insert_ne.
      * injection Hz as <-. by rewrite !lookup_insert_ne.
    + injection Hz as <-. by rewrite !sys_accumulate_lookup_ne.
  - rewrite Hz' in Hz. injection Hz as <-.
    rewrite foldl_accumulate_other.
    + apply (foldl_accumulate_entry sh [ZFIT_UP; ZFIT_DOWN]); [by_compute|done].
    + apply elem_of_cons in Hk as [->|Hk]; [by_compute|].
      apply list_elem_of_singleton in Hk as ->. by_compute.
Qed.

(** X8. [MC.draw_into] of [samples.py], one dataset: for a fit term that no
    tree and no weight variation of the sample carries (a QCD fit term, or a
    Z fit term when the sample is not Ztautau), the entry of the systematics
    is the nominal histogram of the dataset, added to what the previous
    datasets left there; the nominal bins get the same histogram. *)
Theorem fit_entries_follow_nominal (E : Env) (self : MC) selection exprs weighted
    scale hb sh ds hb' sh' k :
  draw_into_dataset E self selection exprs weighted true scale (hb, sh) ds
  = Ok (hb', sh') ->
  k ∈ [QCDFIT_UP; QCDFIT_DOWN]
  \/ (is_Ztautau self = false /\ k ∈ [ZFIT_UP; ZFIT_DOWN]) ->
  ds_trees ds !! k = None ->
  (forall its, iter_weight_branches E (s_class self) = Ok its -> k ∉ its.*2) ->
  exists tree w current_hist,
    nominal_fill E self selection exprs weighted scale hb ds
    = Ok (tree, w, current_hist)
    /\ hb' = bins_add hb current_hist
    /\ sh' !! k
       = Some (match sh !! k with
               | None => current_hist
               | Some h0 => bins_add h0 current_hist
               end).
Proof.
  intros H Hk Ht Hw.
  destruct (samples_dataset_split _ _ _ _ _ _ _ _ _ _ _ H)
    as (tree & w & cur & sh1 & its & sh2 & Hfill & Hhb & H1 & Hits & H2 & H3).
  exists tree, w, cur. split; [done|]. split; [done|].
  assert (sh2 !! k = sh !! k) as Hsame.
  { rewrite (foldlM_other snd _
               (samples_weight_step_other E selection exprs tree w cur)
               _ _ _ k H2 (Hw its Hits)).
    apply (foldlM_other id _
             (sys_tree_step_other E self selection exprs weighted scale ds cur)
             _ _ _ k H1).
    rewrite list_fmap_id. by apply not_elem_of_map_keys. }
  by rewrite (fit_step_nominal_entry _ _ _ _ _ H3 Hk), Hsame.
Qed.
End Fit_entries.

Lemma fit_entries_follow_nominal_witness :
  exists current_hist hb' sh',
    samples.draw_into_dataset demo.samples_env demo.ewk (CVar "OS") ["x"] true true 1
      ([0], ∅) demo.dataset = Ok (hb', sh')
    /\ hb' = bins_add [0] current_hist
    /\ sh' !! QCDFIT_UP = Some current_hist.
Proof.
  destruct (fit_entries_follow_nominal demo.samples_env demo.ewk (CVar "OS") ["x"]
              true 1 [0] ∅ demo.dataset _ _ QCDFIT_UP eq_refl)
    as (tree & w & ch & _ & Hhb & Hsh).
  - left. by_compute.
  - reflexivity.
  - intros its [= <-]. apply not_elem_of_nil.
  - exists ch. eexists. eexists. split; [reflexivity|]. split; [exact Hhb|exact Hsh].
Defined.

(** ** Sources of the records and construction of a QCD sample *)

Section Record_sources.

Lemma rec_project_source (ra ra' : RecArray) fs :
  rec_project ra fs = Ok ra' -> ra_source ra' = ra_source ra.
Proof. unfold rec_project. case_decide; [|done]. by intros [= <-]. Qed.

Lemma samples_records_dataset_source E (self : samples.MC) sel wb fields iw
    systematic scale kw recs ids recs' :
  samples.records_dataset E self sel wb fields iw systematic scale kw recs ids
  = Ok recs' ->
  exists rec, recs' = recs ++ [rec] /\ ra_source rec = ids.1.
Proof.
  unfold samples.records_dataset. intros H.
  apply bind_Ok in H as ([table events] & _ & H).
  apply bind_Ok in H as (weight & _ & H).
  apply bind_Ok in H as (t & _ & H).
  apply bind_Ok in H as (rows & _ & H).
  apply bind_Ok in H as (rec & Hrec & H).
  apply bind_Ok in H as (rec' & Hrec' & [= <-]).
  exists rec'. split; [done|].
  assert (ra_source rec = ids.1) as <-.
  { destruct iw.
    - apply bind_Ok in Hrec as (prod & _ & [= <-]). done.
    - by injection Hrec as <-. }
  destruct fields as [fs|]; [by eapply rec_project_source|by injection Hrec' as <-].
Qed.

Lemma sample_records_dataset_source E (self : sample.Sample) sel wb fields iw
    systematic scale kw recs ids recs' :
  sample.records_dataset E self sel wb fields iw systematic scale kw recs ids
  = Ok recs' ->
  recs' = recs \/ exists rec, recs' = recs ++ [rec] /\ ra_source rec = ids.1.
Proof.
  unfold sample.records_dataset. intros H.
  apply bind_Ok in H as ([table events] & _ & H).
  apply bind_Ok in H as (weight & _ & H).
  destruct (sample.read_table _ _ _) as [rows|]; [|left; by injection H].
  apply bind_Ok in H as (rec & Hrec & [= <-]).
  right. exists rec. split; [done|].
  unfold sample.weighted_record in Hrec.
  apply bind_Ok in Hrec as (rec0 & Hrec0 & Hrec).
  assert (ra_source rec0 = ids.1) as <-.
  { destruct iw.
    - apply bind_Ok in Hrec0 as (prod & _ & [= <-]). done.
    - by injection Hrec0 as <-. }
  destruct fields as [fs|]; [by eapply rec_project_source|by injection Hrec as <-].
Qed.

(** X9. The record arrays of a retrieval follow the datasets.  [MC.records]
    of [samples.py] returns one array for every dataset of the sample, in the
    order of the datasets; [SystematicsSample.records] of [sample.py], which
    leaves out the datasets whose read fails, returns arrays of distinct
    datasets in the order of the datasets. *)
Theorem records_sources :
  (forall (E : samples.Env) (self : samples.MC) category region fields cuts_arg
          include_weight systematic scale kw recs,
     samples.MC_records E self category region fields cuts_arg include_weight
       systematic scale kw = Ok recs ->
     ra_source <$> recs = seq 0 (length (samples.mc_datasets self)))
  /\ (forall (E : sample.Env) (self : sample.Sample) category region fields cuts_arg
             include_weight systematic scale kw recs,
        sample.records E self category region fields cuts_arg include_weight
          systematic scale kw = Ok recs ->
        sublist (ra_source <$> recs) (seq 0 (length (sample.s_datasets self)))).
Proof.
  split.
  - intros E self category region fields cuts_arg include_weight systematic scale
      kw recs H. unfold samples.MC_records in H.
    apply bind_Ok in H as (c & _ & H). apply bind_Ok in H as (wb & _ & H).
    rewrite <- indexed_fst.
    assert (forall (l : list (nat * samples.Dataset)) recs0 recs,
      foldlM (samples.records_dataset E self (cut_and_opt c cuts_arg) wb
                (fields_with_weight include_weight fields) include_weight
                (if bool_decide (systematic ∈ samples.SYSTEMATICS_BY_WEIGHT E)
                 then NOMINAL else systematic) scale kw) recs0 l = Ok recs ->
      ra_source <$> recs = (ra_source <$> recs0) ++ l.*1) as Hloop.
    { clear. induction l as [|ids l IH]; intros recs0 recs H; simpl in H.
      - injection H as <-. by rewrite app_nil_r.
      - apply bind_Ok in H as (recs1 & H1 & H).
        apply samples_records_dataset_source in H1 as (rec & -> & Hsrc).
        rewrite (IH _ _ H), fmap_app, <- app_assoc. simpl. by rewrite Hsrc. }
    by rewrite (Hloop _ _ _ H).
  - intros E self category region fields cuts_arg include_weight systematic scale
      kw recs H. unfold sample.records in H.
    apply bind_Ok in H as (c & _ & H). apply bind_Ok in H as (wb & _ & H).
    rewrite <- indexed_fst.
    assert (forall (l : list (nat * sample.Dataset)) recs0 recs,
      foldlM (sample.records_dataset E self (cut_and_opt c cuts_arg) wb
                (fields_with_weight include_weight fields) include_weight
                (if bool_decide (systematic ∈ sample.SYSTEMATICS_BY_WEIGHT E)
                 then NOMINAL else systematic) scale kw) recs0 l = Ok recs ->
      exists l', sublist l' l.*1 /\ ra_source <$> recs = (ra_source <$> recs0) ++ l')
      as Hloop.
    { clear. induction l as [|ids l IH]; intros recs0 recs H; simpl in H.
      - injection H as <-. exists []. by rewrite app_nil_r.
      - apply bind_Ok in H as (recs1 & H1 & H).
        destruct (IH _ _ H) as (l' & Hl' & Heq).
        apply sample_records_dataset_source in H1 as [->|(rec & -> & Hsrc)].
        + exists l'. split; [by apply sublist_cons|done].
        + exists (ids.1 :: l'). split; [by apply sublist_skip|].
          rewrite Heq, fmap_app, <- app_assoc. simpl. by rewrite Hsrc. }
    destruct (Hloop _ _ _ H) as (l' & Hl' & ->). done.
Qed.
End Record_sources.

Lemma records_sources_witness :
  exists recs,
    samples.MC_records examples.samples_env examples.ewk demo.category "OS" None
      None true NOMINAL 1 None = Ok recs
    /\ ra_source <$> recs = [0%nat].
Proof.
  eexists. split; [reflexivity|].
  apply (proj1 records_sources examples.samples_env examples.ewk demo.category "OS"
           None None true NOMINAL 1 None).
  reflexivity.
Defined.

Lemma fmap_ones {A} (l : list A) :
  (fun _ : A => 1) <$> l = replicate (length l) 1.
Proof. induction l as [|x l IH]; [done|]. csimpl. by rewrite IH. Qed.

Section QCD_construction.
Import samples.

(** X10. What [QCD.__init__] of [samples.py] establishes when it returns:
    the scale of the sample is 1 whatever [scale] was given, there is at least
    one MC sample, there are as many MC scales as MC samples (all 1 when none
    were given), and every MC sample has the year of the data and the
    systematics flag that the QCD sample takes. *)
Theorem QCD_init_invariants (data : Data) (mc : list MC)
    (scale scale_error data_scale : Qc) mc_scales shape_region self :
  QCD_init data mc scale scale_error data_scale mc_scales shape_region = Ok self ->
  s_scale self = 1
  /\ s_year self = s_year data
  /\ qcd_mc self = mc
  /\ mc <> []
  /\ length (qcd_mc_scales self) = length mc
  /\ (mc_scales = None -> qcd_mc_scales self = replicate (length mc) 1)
  /\ (forall l, mc_scales = Some l -> qcd_mc_scales self = l)
  /\ Forall (fun m : MC => s_year m = s_year data
                           /\ mc_systematics m = qcd_systematics self) mc.
Proof.
  intros H.
  destruct (proj1 (proj2 (QCD_init_checks data mc scale scale_error data_scale
                            mc_scales shape_region)) self H) as [Hne Hall].
  unfold QCD_init in H.
  apply bind_Ok in H as ([] & _ & H).
  apply bind_Ok in H as (scales & Hscales & H).
  apply bind_Ok in H as (systematics & _ & [= <-]). simpl.
  repeat split; try done.
  - destruct mc_scales as [l|].
    + case_bool_decide as Hl; [done|]. injection Hscales as <-.
      destruct (decide (length l = length mc)); [done|]. by destruct Hl.
    + injection Hscales as <-. by rewrite length_fmap.
  - intros ->. injection Hscales as <-. apply fmap_ones.
  - intros l ->. case_bool_decide; [done|]. by injection Hscales as <-.
Qed.

(** X11. A QCD sample built with the default scales counts the data minus
    the MC: its weighted number of events is the number of events of the data
    in the shape region minus the sum of those of the MC samples there. *)
Theorem QCD_default_subtraction (E : Env) (data : Data) (mc : list MC)
    (scale scale_error : Qc) shape_region self category region cuts_arg systematic
    (data_events : Qc) (mc_events : list Qc) :
  QCD_init data mc scale scale_error 1 None shape_region = Ok self ->
  Data_events E data category shape_region cuts_arg = Ok data_events ->
  Forall2 (fun mc v =>
    MC_events E mc category shape_region cuts_arg systematic true 1 false = Ok v)
    mc mc_events ->
  QCD_events E self category region cuts_arg systematic false
  = Ok (data_events - qsum mc_events).
Proof.
  intros H Hd Hmc. unfold QCD_init in H.
  assert ((fun _ : MC => 1) <$> mc = replicate (length mc_events) 1) as Hones.
  { rewrite <- (Forall2_length _ _ _ Hmc). apply fmap_ones. }
  rewrite Hones in H.
  apply bind_Ok in H as ([] & _ & H).
  apply bind_Ok in H as (scales & [= <-] & H).
  apply bind_Ok in H as (systematics & _ & [= <-]).
  unfold QCD_events. simpl. rewrite Hd. simpl.
  rewrite (mc_subtract_loop E _ _ _ _ _ _ _ _ _ Hmc). simpl.
  rewrite zip_with_ones. f_equal. ring.
Qed.
End QCD_construction.

Lemma QCD_init_invariants_witness :
  exists self,
    samples.QCD_init demo.data [demo.ewk] demo.two demo.tenth 1 None "SS" = Ok self
    /\ samples.s_scale (samples.qcd_base self) = 1
    /\ samples.qcd_mc_scales self = [1].
Proof.
  eexists. split; [reflexivity|].
  destruct (QCD_init_invariants demo.data [demo.ewk] demo.two demo.tenth 1 None "SS"
              _ eq_refl) as (Hs & _ & _ & _ & _ & Hones & _).
  split; [exact Hs|]. exact (Hones eq_refl).
Defined.

Lemma QCD_default_subtraction_witness :
  exists self,
    samples.QCD_init demo.data [demo.ewk] 1 demo.tenth 1 None "SS" = Ok self
    /\ samples.QCD_events demo.samples_env self demo.category "OS" None NOMINAL false
       = Ok (demo.two + demo.two - qsum [demo.two]).
Proof.
  eexists. split; [reflexivity|].
  apply (QCD_default_subtraction demo.samples_env demo.data [demo.ewk] 1 demo.tenth
           "SS" _ demo.category "OS" None NOMINAL (demo.two + demo.two) [demo.two]).
  - reflexivity.
  - by_compute.
  - repeat constructor.
Defined.

(** ** Weight fields *)

Section Weight_fields.
Import sample.

Lemma elem_of_dict_items (E : Env) {V} (d : pydict V) (x : string * V) :
  dict_order E -> x ∈ dict_items E V d -> x ∈ d.
Proof. intros Hord Hx. by rewrite <- (Hord V d). Qed.

(** X12. [Sample.weights] of [sample.py], in whatever order the dict of the
    weight systematics is iterated: a systematic whose term is none of the
    families of [weight_systematics] (a tree systematic such as [JES_UP], or
    a term of several names) gets the weight fields of the nominal call. *)
Theorem weights_of_other_terms (E : Env) (self : Sample) systematic systerm variation :
  dict_order E ->
  get_sys_term_variation systematic = Ok (systerm, variation) ->
  (forall term, systerm = Some term -> term ∉ (weight_systematics self).*1) ->
  weights E self systematic = weights E self NOMINAL.
Proof.
  intros Hord Hparse Hterm. unfold weights.
  destruct (is_SystematicsSample self); [|done].
  rewrite Hparse. simpl. f_equal. apply foldlM_ext.
  intros wf [term variations] Hin.
  apply (elem_of_dict_items E _ _ Hord) in Hin.
  assert (term_matches term systerm = false) as ->.
  { unfold term_matches. apply bool_decide_eq_false. intros ->.
    apply (Hterm term eq_refl). apply list_elem_of_fmap. by exists (term, variations). }
  done.
Qed.

Lemma variations3_get (up down nominal : list string) (key : string) :
  pydict_get (variations3 up down nominal) key
  ∈ [Ok up; Ok down; Ok nominal; Raise KeyError].
Proof.
  unfold variations3. simpl. repeat case_decide; set_solver.
Qed.

Ltac resolve_variation H :=
  match type of H with
  | context [pydict_get [("UP", ?u); ("DOWN", ?d); ("NOMINAL", ?n)] ?k] =>
      let Hk := fresh "Hk" in
      let x := fresh "x" in
      pose proof (variations3_get u d n k) as Hk;
      change (variations3 u d n) with [("UP", u); ("DOWN", d); ("NOMINAL", n)] in Hk;
      set (x := pydict_get [("UP", u); ("DOWN", d); ("NOMINAL", n)] k) in *;
      clearbody x;
      repeat (apply elem_of_cons in Hk as [->|Hk]); [..|by apply elem_of_nil in Hk]
  end.

Ltac weights_cases E self Hord Hcls H :=
  let Hitems := fresh "Hitems" in
  pose proof (Hord _ (weight_systematics self)) as Hitems;
  symmetry in Hitems; apply permutations_Permutation in Hitems;
  unfold weights, weight_fields, weight_systematics, is_SystematicsSample,
    trigger_hack in *;
  rewrite Hcls in *;
  match type of Hitems with
  | ?l ∈ _ => set (items := l) in *; clearbody items
  end;
  vm_compute in Hitems;
  repeat (apply elem_of_cons in Hitems as [->|Hitems]);
  [..|by apply elem_of_nil in Hitems].

(** X13. The trigger fields of [Sample.weights] of [sample.py], in whatever
    order the dict of the weight systematics is iterated.  The nominal call
    returns.  A sample without trigger never gets the fields
    [tau1_trigger_sf] and [tau2_trigger_sf]: for an MC sample they are
    replaced by [tau1_trigger_eff] and [tau2_trigger_eff], unless a variation
    of the trigger is asked for, whose [_high] or [_low] fields are kept as
    they are.  A sample with trigger never gets the [_eff] fields. *)
Theorem weights_trigger_switch (E : Env) (self : Sample) :
  dict_order E ->
  (exists wf, weights E self NOMINAL = Ok wf)
  /\ forall systematic wf,
       weights E self systematic = Ok wf ->
       (s_trigger self = false ->
        ("tau1_trigger_sf" ∉ wf) /\ ("tau2_trigger_sf" ∉ wf))
       /\ (s_trigger self = false -> s_class self = C_MC ->
           "tau1_trigger_sf_high" ∉ wf -> "tau1_trigger_sf_low" ∉ wf ->
           ("tau1_trigger_eff" ∈ wf) /\ ("tau2_trigger_eff" ∈ wf))
       /\ (s_trigger self = true ->
           ("tau1_trigger_eff" ∉ wf) /\ ("tau2_trigger_eff" ∉ wf)).
Proof.
  intros Hord. split.
  - destruct (s_class self) eqn:Hcls.
    + exists []. unfold weights, is_SystematicsSample, weight_fields. rewrite Hcls.
      simpl. unfold trigger_hack. by rewrite andb_false_r.
    + assert (True) as H by done. weights_cases E self Hord Hcls H;
        destruct (s_trigger self); eexists; reflexivity.
    + assert (True) as H by done. weights_cases E self Hord Hcls H;
        destruct (s_trigger self); eexists; reflexivity.
  - intros systematic wf H. destruct (s_class self) eqn:Hcls.
    + unfold weights, is_SystematicsSample, weight_fields in H. rewrite Hcls in H.
      simpl in H. unfold trigger_hack in H. rewrite andb_false_r in H.
      injection H as <-. repeat split; try done; intros; apply not_elem_of_nil.
    + weights_cases E self Hord Hcls H;
        (destruct (get_sys_term_variation systematic) as [[systerm variation]|];
         [|done]); cbn [mbind res_bind foldlM] in H;
        resolve_variation H; cbn [mbind res_bind mret res_ret] in H; try done;
        resolve_variation H; cbn [mbind res_bind mret res_ret] in H; try done;
        destruct (s_trigger self);
        vm_compute in H; injection H as <-;
        (repeat split; try done; intros; by_compute).
    + weights_cases E self Hord Hcls H;
        (destruct (get_sys_term_variation systematic) as [[systerm variation]|];
         [|done]); cbn [mbind res_bind foldlM] in H;
        resolve_variation H; cbn [mbind res_bind mret res_ret] in H; try done;
        resolve_variation H; cbn [mbind res_bind mret res_ret] in H; try done;
        resolve_variation H; cbn [mbind res_bind mret res_ret] in H; try done;
        destruct (s_trigger self);
        vm_compute in H; injection H as <-;
        (repeat split; try done; intros;
         first [by_compute
               |match goal with
                | Hn : ?x ∉ ?l |- _ => exfalso; apply Hn; by_compute
                end]).
Qed.
End Weight_fields.

Lemma weights_of_other_terms_witness :
  sample.weights demo.sample_env (demo.ztautau false) (SysTuple ["JES_UP"])
  = sample.weights demo.sample_env (demo.ztautau false) NOMINAL.
Proof.
  apply (weights_of_other_terms demo.sample_env (demo.ztautau false)
           (SysTuple ["JES_UP"]) (Some "JES") "UP").
  - intros V d. reflexivity.
  - reflexivity.
  - intros term [= <-]. by_compute.
Defined.

Lemma weights_trigger_switch_witness :
  exists wf,
    sample.weights demo.sample_env examples.no_datasets NOMINAL = Ok wf
    /\ ("tau1_trigger_sf" ∉ wf)
    /\ ("tau1_trigger_eff" ∈ wf).
Proof.
  destruct (weights_trigger_switch demo.sample_env examples.no_datasets)
    as [[wf Hwf] Hall].
  - intros V d. reflexivity.
  - destruct (Hall NOMINAL wf Hwf) as (Hsf & Heff & _).
    exists wf. split; [exact Hwf|]. split.
    + exact (proj1 (Hsf eq_refl)).
    + vm_compute in Hwf. injection Hwf as <-.
      refine (proj1 (Heff eq_refl eq_refl _ _)); by_compute.
Defined.

(** ** Partitions of MC records and records of a QCD sample *)

Section Index_partitions.
Import samples.

Lemma read_where_index (t : Table) (sel : Cut) (N i : nat) :
  (i < N)%nat ->
  read_where t sel (Some (i, N))
  = filter (fun x => in_index_partition N i x = true) <$> read_where t sel None.
Proof.
  intros Hi. unfold read_where. destruct (_ || _); [done|].
  rewrite (table_range_partition t N i Hi). simpl. f_equal.
  apply filter_comm.
Qed.

Lemma filter_fmap_index {A B} (N i : nat) (f : nat * A -> nat * B) (l : list (nat * A)) :
  (forall x, (f x).1 = x.1) ->
  filter (fun x => in_index_partition N i x = true) (f <$> l)
  = f <$> filter (fun x => in_index_partition N i x = true) l.
Proof.
  intros Hf. induction l as [|a l IH]; [done|].
  csimpl. rewrite !filter_cons.
  assert (in_index_partition N i (f a) = in_index_partition N i a) as Heq.
  { unfold in_index_partition. by rewrite Hf. }
  rewrite Heq. case_decide; csimpl; by rewrite IH.
Qed.

Lemma restrict_append_weight N i ra w :
  rec_append_weight (restrict N i ra) w = restrict N i (rec_append_weight ra w).
Proof.
  unfold rec_append_weight, restrict. simpl. f_equal.
  by rewrite filter_fmap_index.
Qed.

Lemma restrict_drop_fields N i ra names :
  rec_drop_fields (restrict N i ra) names = restrict N i (rec_drop_fields ra names).
Proof.
  unfold rec_drop_fields, restrict. simpl. f_equal.
  by rewrite filter_fmap_index.
Qed.

Lemma restrict_project N i ra fs :
  rec_project (restrict N i ra) fs = restrict N i <$> rec_project ra fs.
Proof.
  unfold rec_project. simpl. case_decide; [|done]. simpl. f_equal.
  unfold restrict. simpl. f_equal.
  by rewrite filter_fmap_index.
Qed.

Lemma samples_branch_product_cols (rec rec' : RecArray) wb :
  ra_cols rec = ra_cols rec' -> branch_product rec wb = branch_product rec' wb.
Proof.
  intros Hc. unfold branch_product.
  rewrite (mapM_res_ext (branch_column rec) (branch_column rec')); [done|].
  intros [n|c] _; [|done]. unfold branch_column, rec_column. by rewrite Hc.
Qed.

Lemma records_dataset_restrict E (self : MC) sel wb fields iw systematic scale
    (N i : nat) recs0 recs0' ids recs1 :
  (i < N)%nat ->
  records_dataset E self sel wb fields iw systematic scale None recs0 ids = Ok recs1 ->
  exists rec,
    recs1 = recs0 ++ [rec]
    /\ records_dataset E self sel wb fields iw systematic scale (Some (i, N)) recs0' ids
       = Ok (recs0' ++ [restrict N i rec]).
Proof.
  intros Hi. unfold records_dataset.
  destruct (lookup_table _ _) as [[table events]|]; simpl; [|done].
  destruct (div_events _ _) as [weight|]; simpl; [|done].
  destruct table as [t|]; simpl; [|done].
  rewrite (read_where_index t sel N i Hi).
  destruct (read_where t sel None) as [rows|]; simpl; [|done].
  set (rec0 := {| ra_source := ids.1; ra_cols := tbl_cols t; ra_rows := rows |}).
  change {| ra_source := ids.1; ra_cols := tbl_cols t;
            ra_rows := filter (fun x => in_index_partition N i x = true) rows |}
    with (restrict N i rec0).
  assert (forall recA,
    (if iw then
       prod ← branch_product rec0 wb;
       mret (rec_drop_fields (rec_append_weight rec0 (fun r => weight * prod r))
                             (branch_names wb))
     else Ok rec0) = Ok recA ->
    (if iw then
       prod ← branch_product (restrict N i rec0) wb;
       mret (rec_drop_fields
               (rec_append_weight (restrict N i rec0) (fun r => weight * prod r))
               (branch_names wb))
     else Ok (restrict N i rec0)) = Ok (restrict N i recA)) as Hw.
  { intros recA. destruct iw; [|by intros [= <-]].
    rewrite (samples_branch_product_cols (restrict N i rec0) rec0) by done.
    destruct (branch_product rec0 wb) as [prod|]; simpl; [|done].
    intros [= <-]. by rewrite restrict_append_weight, restrict_drop_fields. }
  intros H. apply bind_Ok in H as (recA & HA & H).
  apply bind_Ok in H as (recB & HB & [= <-]).
  exists recB. split; [done|].
  rewrite (Hw recA HA). simpl.
  destruct fields as [fs|].
  - rewrite restrict_project, HB. done.
  - injection HB as <-. done.
Qed.

Lemma records_loop_restrict E (self : MC) sel wb fields iw systematic scale
    (N i : nat) (l : list (nat * Dataset)) recs0 recs :
  (i < N)%nat ->
  foldlM (records_dataset E self sel wb fields iw systematic scale None) recs0 l
  = Ok recs ->
  foldlM (records_dataset E self sel wb fields iw systematic scale (Some (i, N)))
         (restrict N i <$> recs0) l
  = Ok (restrict N i <$> recs).
Proof.
  intros Hi. revert recs0. induction l as [|ids l IH]; intros recs0 H; simpl in *.
  - by injection H as <-.
  - apply bind_Ok in H as (recs1 & H1 & H).
    destruct (records_dataset_restrict _ _ _ _ _ _ _ _ _ _ _ (restrict N i <$> recs0)
                _ _ Hi H1) as (rec & -> & ->).
    simpl. rewrite <- (IH _ H). by rewrite fmap_app.
Qed.

Lemma MC_records_restrict E (self : MC) category region fields cuts_arg iw systematic
    scale (N i : nat) recs :
  (i < N)%nat ->
  MC_records E self category region fields cuts_arg iw systematic scale None = Ok recs ->
  MC_records E self category region fields cuts_arg iw systematic scale (Some (i, N))
  = Ok (restrict N i <$> recs).
Proof.
  intros Hi. unfold MC_records.
  destruct (cuts _ _ _ _ _) as [c|]; simpl; [|done].
  destruct (get_weight_branches _ _ _ _ _ _) as [wb|]; simpl; [|done].
  intros H. by apply (records_loop_restrict _ _ _ _ _ _ _ _ N i _ [] recs Hi H).
Qed.

Lemma hstack_rows_restrict (N i src : nat) (rows : list (nat * Row)) :
  (fun x : nat * Row => (src, x.1, x.2))
    <$> filter (fun x => in_index_partition N i x = true) rows
  = filter (fun x : nat * nat * Row => (x.1.2 mod N = i)%nat)
           ((fun x : nat * Row => (src, x.1, x.2)) <$> rows).
Proof.
  induction rows as [|x rows IH]; [done|].
  csimpl. rewrite !filter_cons. simpl.
  unfold in_index_partition at 1.
  destruct (decide (x.1 mod N = i)%nat) as [Hx|Hx].
  - rewrite decide_True by (by apply bool_decide_eq_true). csimpl. by rewrite IH.
  - rewrite decide_False; [done|]. by intros ?%bool_decide_eq_true.
Qed.

Lemma hstack_restrict N i (recs : list RecArray) :
  hstack (restrict N i <$> recs)
  = filter (fun x : nat * nat * Row => (x.1.2 mod N = i)%nat) (hstack recs).
Proof.
  unfold hstack. induction recs as [|ra recs IH]; [done|].
  csimpl. rewrite filter_app, IH. f_equal. apply hstack_rows_restrict.
Qed.

(** X14. [MC.partitioned_records] of [samples.py] splits the merged records
    by row number: when [MC.records] returns at least one array, the call
    with [N] partitions returns [N] arrays, partition [i] holding, in the
    order of [MC.merged_records], the rows whose number in their table is [i]
    modulo [N].  Every merged row is in some partition, and no row of a
    dataset is in two of them. *)
Theorem MC_partitions_by_row_number (E : Env) (self : MC) category region fields
    cuts_arg include_weight systematic (N : nat) recs :
  (0 < N)%nat ->
  MC_records E self category region fields cuts_arg include_weight systematic 1 None
  = Ok recs ->
  recs <> [] ->
  exists parts,
    MC_partitioned_records E self category region fields cuts_arg include_weight
      systematic N = Ok parts
    /\ length parts = N
    /\ MC_merged_records E self category region fields cuts_arg include_weight
         systematic = Ok (hstack recs)
    /\ (forall i, (i < N)%nat ->
          parts !! i
          = Some (filter (fun x : nat * nat * Row => (x.1.2 mod N = i)%nat)
                         (hstack recs)))
    /\ (forall x, x ∈ hstack recs <-> exists i p, parts !! i = Some p /\ x ∈ p)
    /\ (forall i j p q x y,
          parts !! i = Some p -> parts !! j = Some q -> x ∈ p -> y ∈ q ->
          x.1 = y.1 -> i = j).
Proof.
  intros HN Hrec Hne.
  set (part := fun i => filter (fun x : nat * nat * Row => (x.1.2 mod N = i)%nat)
                               (hstack recs)).
  assert (forall i, (i < N)%nat -> ((fun i => part i) <$> seq 0 N) !! i = Some (part i))
    as Hlook.
  { intros i Hi. by rewrite list_lookup_fmap, lookup_seq_lt. }
  exists ((fun i => part i) <$> seq 0 N).
  split; [|split; [|split; [|split; [|split]]]].
  - unfold MC_partitioned_records, partitioned_records. apply mapM_res_Ok.
    intros i Hi. apply elem_of_seq in Hi.
    rewrite (MC_records_restrict _ _ _ _ _ _ _ _ _ N i _ ltac:(lia) Hrec). simpl.
    unfold np_hstack. destruct recs as [|ra recs']; [done|].
    unfold part. by rewrite <- hstack_restrict.
  - by rewrite length_fmap, length_seq.
  - unfold MC_merged_records, merged_records. rewrite Hrec. simpl.
    by destruct recs.
  - exact Hlook.
  - intros x. split.
    + intros Hx. exists (x.1.2 mod N)%nat, (part (x.1.2 mod N)%nat). split.
      * apply Hlook. apply Nat.mod_upper_bound. lia.
      * apply list_elem_of_filter. by split.
    + intros (i & p & Hp & Hx). rewrite list_lookup_fmap in Hp.
      destruct (seq 0 N !! i); [|done]. injection Hp as <-.
      by apply list_elem_of_filter in Hx as [_ ?].
  - intros i j p q x y Hp Hq Hx Hy Heq. rewrite list_lookup_fmap in Hp, Hq.
    destruct (seq 0 N !! i) as [i'|] eqn:Hi; [|done]. injection Hp as <-.
    destruct (seq 0 N !! j) as [j'|] eqn:Hj; [|done]. injection Hq as <-.
    apply lookup_seq in Hi as [-> _]. apply lookup_seq in Hj as [-> _]. simpl in *.
    apply list_elem_of_filter in Hx as [Hx _]. apply list_elem_of_filter in Hy as [Hy _].
    rewrite <- Hx, <- Hy. by rewrite Heq.
Qed.
End Index_partitions.

Lemma MC_partitions_by_row_number_witness :
  exists parts,
    samples.MC_partitioned_records examples.samples_env examples.ewk demo.category
      "OS" None None true NOMINAL 2 = Ok parts
    /\ length parts = 2%nat.
Proof.
  destruct (MC_partitions_by_row_number examples.samples_env examples.ewk
              demo.category "OS" None None true NOMINAL 2
              (default [] (match samples.MC_records examples.samples_env examples.ewk
                                   demo.category "OS" None None true NOMINAL 1 None with
                           | Ok recs => Some recs
                           | Raise _ => None
                           end)))
    as (parts & Hparts & Hlen & _).
  - lia.
  - reflexivity.
  - vm_compute. discriminate.
  - by exists parts.
Defined.

Section Empty_retrieval.
Import sample.

(** X15. [partitioned_records] of [sample.py] needs records: for a sample
    without datasets [records] returns the empty list, and a call with at
    least one partition raises the [ValueError] of [np.hstack] instead of
    returning empty partitions; only the call with no partition returns. *)
Theorem partitioned_records_needs_records (E : Env) (self : Sample) category region
    fields cuts_arg include_weight systematic key :
  partitioned_records E self category region fields cuts_arg include_weight
    systematic key 0 = Ok []
  /\ forall (N : nat) c wb,
       s_datasets self = [] ->
       cuts E self category region systematic = Ok c ->
       weights E self systematic = Ok wb ->
       records E self category region fields cuts_arg include_weight systematic 1 None
       = Ok []
       /\ partitioned_records E self category region fields cuts_arg include_weight
            systematic key (S N)
          = Raise (ValueError "need at least one array to concatenate").
Proof.
  split; [done|]. intros N c wb Hds Hc Hwb.
  assert (forall cuts_arg kw,
            records E self category region fields cuts_arg include_weight systematic
              1 kw = Ok []) as Hrec.
  { intros ca kw. unfold records. rewrite Hc, Hwb, Hds. done. }
  split; [apply Hrec|].
  unfold partitioned_records. simpl. by destruct key; rewrite Hrec.
Qed.
End Empty_retrieval.

Lemma partitioned_records_needs_records_witness :
  sample.partitioned_records demo.sample_env examples.no_datasets
    (Some demo.category) (Some "OS") None None true NOMINAL None 2
  = Raise (ValueError "need at least one array to concatenate").
Proof.
  refine (proj2 (proj2 (partitioned_records_needs_records demo.sample_env
                          examples.no_datasets (Some demo.category) (Some "OS")
                          None None true NOMINAL None) 1%nat _ _ _ _ _));
    reflexivity.
Defined.

Lemma qsum_app (l1 l2 : list Qc) : qsum (l1 ++ l2) = qsum l1 + qsum l2.
Proof.
  induction l2 as [|x l2 IH] using rev_ind.
  - rewrite app_nil_r. unfold qsum at 3. simpl. ring.
  - rewrite app_assoc, !qsum_snoc, IH. ring.
Qed.

Lemma qsum_scale (l : list Qc) (s : Qc) : qsum ((fun w => w * s) <$> l) = qsum l * s.
Proof.
  induction l as [|x l IH]; [unfold qsum; simpl; ring|].
  csimpl. rewrite !qsum_cons, IH. ring.
Qed.

Section QCD_retrieval.
Import samples.

Lemma weights_of_app (l1 l2 : list RecArray) :
  weights_of (l1 ++ l2) = weights_of l1 ++ weights_of l2.
Proof. unfold weights_of. by rewrite fmap_app, concat_app, fmap_app. Qed.

Lemma rec_imul_weight_spec (s : Qc) (ra : RecArray) :
  "weight" ∈ ra_cols ra ->
  exists ra',
    rec_imul_weight s ra = Ok ra'
    /\ ra_cols ra' = ra_cols ra
    /\ ra_source ra' = ra_source ra
    /\ (ra_rows ra').*1 = (ra_rows ra).*1
    /\ weights_of [ra'] = (fun w => w * s) <$> weights_of [ra].
Proof.
  intros Hw. unfold rec_imul_weight.
  destruct (ra_rows ra) as [|x rows] eqn:Hrows.
  - exists ra. repeat split; try done.
    + by rewrite Hrows.
    + unfold weights_of. simpl. by rewrite Hrows.
  - rewrite decide_True by done. rewrite <- Hrows. eexists. split; [done|].
    cbn [ra_cols ra_source ra_rows]. repeat split; try done.
    + rewrite <- list_fmap_compose. by apply list_fmap_ext.
    + unfold weights_of. cbn [fmap list_fmap concat ra_rows]. rewrite !app_nil_r.
      rewrite <- !list_fmap_compose. apply list_fmap_ext.
      intros ? y _. simpl. unfold row_get at 1. by rewrite lookup_insert_eq.
Qed.

Lemma imul_loop (s : Qc) (l : list RecArray) :
  Forall (fun ra => "weight" ∈ ra_cols ra) l ->
  exists l',
    mapM_res (rec_imul_weight s) l = Ok l'
    /\ Forall (fun ra => "weight" ∈ ra_cols ra) l'
    /\ Forall2 (fun ra ra' => ra_source ra' = ra_source ra
                              /\ (ra_rows ra').*1 = (ra_rows ra).*1) l l'
    /\ weights_of l' = (fun w => w * s) <$> weights_of l.
Proof.
  induction 1 as [|ra l Hw _ (l' & Hl' & Hall & Hrows & Hws)].
  - by exists [].
  - destruct (rec_imul_weight_spec s ra Hw) as (ra' & Hra' & Hc & Hsrc & Hr & Hwra).
    exists (ra' :: l'). simpl. rewrite Hra'. simpl. rewrite Hl'. simpl.
    split; [done|]. split; [constructor; [by rewrite Hc|done]|].
    split; [by constructor|].
    change (ra' :: l') with ([ra'] ++ l'). change (ra :: l) with ([ra] ++ l).
    by rewrite !weights_of_app, fmap_app, Hwra, Hws.
Qed.

(** X16. The weights of [QCD.records] of [samples.py]: when the records of
    the data and of the MC samples in the shape region have their weight
    field, the call returns their arrays in this order, row for row, with the
    weights of the data multiplied by the scale of the QCD sample for the
    systematic and those of the MC by minus that scale; the sum of the
    weights is that of the data minus that of the MC, times the scale. *)
Theorem QCD_records_weights (E : Env) (self : QCD) category region fields cuts_arg
    systematic kw (data_records : list RecArray) (mc_records : list (list RecArray)) :
  Data_records E (qcd_data self) category (qcd_shape_region self) fields cuts_arg
    true NOMINAL kw = Ok data_records ->
  Forall2 (fun '(mc_scale, mc) recs =>
             MC_records E mc category (qcd_shape_region self) fields cuts_arg true
               systematic mc_scale kw = Ok recs)
          (zip (qcd_mc_scales self) (qcd_mc self)) mc_records ->
  Forall (fun ra => "weight" ∈ ra_cols ra) (data_records ++ concat mc_records) ->
  exists arrays,
    QCD_records E self category region fields cuts_arg true systematic kw
    = Return arrays
    /\ Forall2 (fun ra ra' => ra_source ra' = ra_source ra
                              /\ (ra_rows ra').*1 = (ra_rows ra).*1)
               (data_records ++ concat mc_records) arrays
    /\ weights_of arrays
       = ((fun w => w * qcd_term_scale self systematic) <$> weights_of data_records)
         ++ ((fun w => w * - (1) * qcd_term_scale self systematic)
               <$> weights_of (concat mc_records))
    /\ qsum (weights_of arrays)
       = (qsum (weights_of data_records) - qsum (weights_of (concat mc_records)))
         * qcd_term_scale self systematic.
Proof.
  intros Hd Hmc Hcols. unfold QCD_records. simpl. rewrite Hd. simpl.
  apply Forall_app in Hcols as [Hdc Hmcc].
  assert (forall (l : list (Qc * MC)) (mrs : list (list RecArray)) acc,
    Forall2 (fun '(mc_scale, mc) recs =>
               MC_records E mc category (qcd_shape_region self) fields cuts_arg true
                 systematic mc_scale kw = Ok recs) l mrs ->
    Forall (fun ra => "weight" ∈ ra_cols ra) (concat mrs) ->
    exists negs,
      foldlM (fun arrays '(mc_scale, mc) =>
        _arrays ← MC_records E mc category (qcd_shape_region self) fields cuts_arg
                    true systematic mc_scale kw;
        _arrays ← mapM_res (rec_imul_weight (- (1))) _arrays;
        mret (arrays ++ _arrays)) acc l = Ok (acc ++ negs)
      /\ Forall (fun ra => "weight" ∈ ra_cols ra) negs
      /\ Forall2 (fun ra ra' => ra_source ra' = ra_source ra
                                /\ (ra_rows ra').*1 = (ra_rows ra).*1)
                 (concat mrs) negs
      /\ weights_of negs = (fun w => w * - (1)) <$> weights_of (concat mrs)) as Hloop.
  { clear. intros l mrs acc H. revert acc.
    induction H as [|[s mc] recs l mrs Hrec _ IH]; intros acc Hall.
    - exists []. by rewrite app_nil_r.
    - simpl in Hall. apply Forall_app in Hall as [Hr Hall].
      destruct (imul_loop (- (1)) recs Hr) as (recs' & Hneg & Hc' & Hrows' & Hw').
      destruct (IH (acc ++ recs') Hall) as (negs & Hfold & Hc & Hrows & Hw).
      exists (recs' ++ negs). simpl. rewrite Hrec. simpl. rewrite Hneg. simpl.
      rewrite Hfold, <- app_assoc. split; [done|].
      split; [by apply Forall_app|]. split; [by apply Forall2_app|].
      by rewrite !weights_of_app, fmap_app, Hw', Hw. }
  destruct (Hloop _ _ data_records Hmc Hmcc) as (negs & -> & Hnc & Hnrows & Hnw).
  simpl.
  destruct (imul_loop (qcd_term_scale self systematic) (data_records ++ negs))
    as (arrays & -> & _ & Hrows & Hw); [by apply Forall_app|].
  exists arrays. split; [done|]. split; [|split].
  - assert (Forall2 (fun ra ra' : RecArray =>
                       ra_source ra' = ra_source ra
                       /\ (ra_rows ra').*1 = (ra_rows ra).*1)
                    (data_records ++ concat mc_records) (data_records ++ negs)) as H1.
    { apply Forall2_app; [|done]. clear. by induction data_records; constructor. }
    clear -H1 Hrows. revert arrays Hrows.
    induction H1 as [|a b l1 l2 [Ha Hb] _ IH]; intros arrays Hrows.
    + by apply Forall2_nil_inv_l in Hrows as ->.
    + apply Forall2_cons_inv_l in Hrows as (c & arrays' & [Hc1 Hc2] & Hrows & ->).
      constructor; [|by apply IH]. split; congruence.
  - rewrite Hw, weights_of_app, fmap_app, Hnw. f_equal.
    rewrite <- list_fmap_compose. done.
  - rewrite Hw, qsum_scale, weights_of_app, qsum_app, Hnw, qsum_scale. ring.
Qed.
End QCD_retrieval.

Lemma QCD_records_weights_witness :
  exists arrays,
    samples.QCD_records examples.samples_env examples.qcd demo.category "OS" None
      None true NOMINAL None = Return arrays
    /\ qsum (weights_of arrays) = (qsum [1; 1; 1; 1] - qsum [1; 1; 1]) * demo.two.
Proof.
  destruct (QCD_records_weights examples.samples_env examples.qcd demo.category "OS"
              None None NOMINAL None
              (default [] (match samples.Data_records examples.samples_env demo.data
                                   demo.category "SS" None None true NOMINAL None with
                           | Ok recs => Some recs
                           | Raise _ => None
                           end))
              [default [] (match samples.MC_records examples.samples_env examples.ewk
                                   demo.category "SS" None None true NOMINAL 1 None with
                           | Ok recs => Some recs
                           | Raise _ => None
                           end)])
    as (arrays & Harrays & _ & _ & Hsum).
  - reflexivity.
  - repeat constructor.
  - by_compute.
  - exists arrays. split; [exact Harrays|]. rewrite Hsum. by_compute.
Defined.

(** ** Construction of MC and Higgs samples *)

Section Construction.
Import samples.
Context (F : Files).

Lemma read_entry_ok events_bin d k name d' :
  read_entry F events_bin d k name = Ok d' ->
  (k = NOMINAL \/ dicts_ok d) ->
  aligned (d_trees d) (d_tables d) (d_events d) ->
  dicts_ok d'
  /\ is_Some (d_trees d' !! k)
  /\ forall k', is_Some (d_trees d !! k') -> is_Some (d_trees d' !! k').
Proof.
  unfold read_entry. intros H Hk Hal.
  apply bind_Ok in H as (tree & _ & H). apply bind_Ok in H as (table & _ & H).
  apply bind_Ok in H as (events & _ & [= <-]). simpl.
  split; [split|split].
  - intros k'. simpl. destruct (decide (k = k')) as [->|Hne].
    + by rewrite !lookup_insert_eq.
    + rewrite !lookup_insert_ne by done. apply Hal.
  - simpl. destruct (decide (k = NOMINAL)) as [->|Hne].
    + rewrite lookup_insert_eq. by eexists.
    + rewrite lookup_insert_ne by done. destruct Hk as [?|[_ Ht]]; done.
  - by rewrite lookup_insert_eq.
  - intros k' Hk'. destruct (decide (k = k')) as [->|Hne].
    + by rewrite lookup_insert_eq.
    + by rewrite lookup_insert_ne.
Qed.

Lemma pylist_remove_elem `{EqDecision A} (x : A) (l l' : list A) :
  pylist_remove x l = Ok l' ->
  x ∈ l /\ (forall y, y ∈ l -> y = x \/ y ∈ l') /\ (forall y, y ∈ l' -> y ∈ l).
Proof.
  revert l'. induction l as [|z l IH]; intros l' H; simpl in H; [done|].
  case_decide as Hz.
  - injection H as <-. subst. split; [by left|]. split.
    + intros y Hy. apply elem_of_cons in Hy as [->|Hy]; [by left|by right].
    + intros y Hy. by right.
  - destruct (pylist_remove x l) as [l0|] eqn:Hl; [|done]. injection H as <-.
    destruct (IH l0 eq_refl) as (Hx & H1 & H2). split; [by right|]. split.
    + intros y Hy. apply elem_of_cons in Hy as [->|Hy]; [right; by left|].
      destruct (H1 y Hy) as [?|?]; [by left|right; by right].
    + intros y Hy. apply elem_of_cons in Hy as [->|Hy]; [by left|].
      right. by apply H2.
Qed.

Lemma terms_step_ok events_bin d unused k name d' x unused' :
  terms_ok F (d, unused) ->
  read_entry F events_bin d (SysTuple x) name = Ok d' ->
  pylist_remove x unused = Ok unused' ->
  k = SysTuple x ->
  terms_ok F (d', unused').
Proof.
  intros ([Hal Hnom] & Hcover & Hsub) Hread Hrem ->. simpl in *.
  destruct (read_entry_ok _ _ _ _ _ Hread (or_intror (conj Hal Hnom)) Hal)
    as (Hok & Hk & Hmono).
  destruct (pylist_remove_elem _ _ _ Hrem) as (_ & H1 & H2).
  split; [done|]. split; simpl.
  - intros term Hterm. destruct (Hcover term Hterm) as [Hin|Hsome].
    + destruct (H1 term Hin) as [->|?]; [by right|by left].
    + right. by apply Hmono.
  - intros term Hterm. apply Hsub. by apply H2.
Qed.

Lemma add_term_ok events_bin treename st sys_term st' :
  terms_ok F st -> add_systematics_term F events_bin treename st sys_term = Ok st' ->
  terms_ok F st'.
Proof.
  destruct st as [d unused]. unfold add_systematics_term. simpl. intros Hok H.
  apply bind_Ok in H as (d' & Hread & H).
  apply bind_Ok in H as (unused' & Hrem & [= <-]).
  by eapply terms_step_ok.
Qed.

Lemma add_sample_ok events_bin st it st' :
  terms_ok F st -> add_systematics_sample F events_bin st it = Ok st' ->
  terms_ok F st'.
Proof.
  destruct st as [d unused]. unfold add_systematics_sample. simpl. intros Hok H.
  apply bind_Ok in H as (? & _ & H).
  apply bind_Ok in H as (d' & Hread & H).
  apply bind_Ok in H as (unused' & Hrem & [= <-]).
  by eapply terms_step_ok.
Qed.

Lemma foldlM_invariant {A S} (f : S -> A -> res S) (Inv : S -> Prop)
    (l : list A) (s s' : S) :
  (forall s x s', Inv s -> f s x = Ok s' -> Inv s') ->
  Inv s -> foldlM f s l = Ok s' -> Inv s'.
Proof.
  intros Hstep. revert s. induction l as [|x l IH]; intros s Hs H; simpl in H.
  - by injection H as <-.
  - apply bind_Ok in H as (s1 & H1 & H). eapply IH; [|done]. by eapply Hstep.
Qed.

Lemma flag_loop_ok (unused : list (list string)) (d : Dicts) :
  dicts_ok d ->
  dicts_ok (foldl flag_entry d unused)
  /\ (forall k, is_Some (d_trees d !! k) ->
                is_Some (d_trees (foldl flag_entry d unused) !! k))
  /\ (forall term, term ∈ unused ->
                   is_Some (d_trees (foldl flag_entry d unused) !! SysTuple term)).
Proof.
  revert d. induction unused as [|t unused IH]; intros d Hd; simpl.
  - split; [done|]. split; [done|]. by intros ? ?%elem_of_nil.
  - assert (dicts_ok (flag_entry d t)) as Hd'.
    { destruct Hd as [Hal [tr Hnom]]. split.
      - intros k. simpl. destruct (decide (SysTuple t = k)) as [<-|Hne].
        + by rewrite !lookup_insert_eq.
        + rewrite !lookup_insert_ne by done. apply Hal.
      - exists tr. simpl. by rewrite lookup_insert_ne. }
    destruct (IH _ Hd') as (Hok & Hmono & Hflag).
    split; [done|]. split.
    + intros k Hk. apply Hmono. simpl.
      destruct (decide (SysTuple t = k)) as [<-|Hne].
      * by rewrite lookup_insert_eq.
      * by rewrite lookup_insert_ne.
    + intros term Hterm. apply elem_of_cons in Hterm as [->|Hterm].
      * apply Hmono. simpl. by rewrite lookup_insert_eq.
      * by apply Hflag.
Qed.

Lemma init_dataset_ok cls year systematics masses modes it ds :
  init_dataset F cls year systematics masses modes it = Ok ds ->
  aligned (ds_trees ds) (ds_tables ds) (ds_events ds)
  /\ (exists t, ds_trees ds !! NOMINAL = Some (Some t))
  /\ (systematics = true -> forall term, term ∈ SYSTEMATICS_TERMS F ->
        is_Some (ds_trees ds !! SysTuple term))
  /\ (systematics = false -> forall k, k <> NOMINAL -> ds_trees ds !! k = None).
Proof.
  unfold init_dataset. intros H.
  apply bind_Ok in H as (xke & _ & H).
  apply bind_Ok in H as (d0 & Hread & H).
  apply bind_Ok in H as (d & Hd & H).
  apply bind_Ok in H as ([[xs kfact] effic] & _ & [= <-]). simpl.
  assert (dicts_ok d0 /\ forall k, k <> NOMINAL -> d_trees d0 !! k = None) as [Hd0 Hnone].
  { split.
    - apply (read_entry_ok _ _ _ _ _ Hread); [by left|]. intros k. simpl.
      by rewrite !lookup_empty.
    - unfold read_entry in Hread.
      apply bind_Ok in Hread as (tree & _ & Hread).
      apply bind_Ok in Hread as (table & _ & Hread).
      apply bind_Ok in Hread as (events & _ & [= <-]). simpl.
      intros k Hk. by rewrite lookup_insert_ne. }
  destruct systematics.
  - destruct (get_systematics F year it.2) as [terms samples].
    apply bind_Ok in Hd as (st1 & H1 & Hd).
    apply bind_Ok in Hd as (st2 & H2 & [= <-]).
    assert (terms_ok F (d0, SYSTEMATICS_TERMS F)) as Hinv0.
    { split; [done|]. split; [by left|done]. }
    pose proof (foldlM_invariant _ (terms_ok F) _ _ _
                  (fun s x s' => add_term_ok _ _ s x s') Hinv0 H1) as Hinv1.
    pose proof (foldlM_invariant _ (terms_ok F) _ _ _
                  (fun s x s' => add_sample_ok _ s x s') Hinv1 H2) as Hinv2.
    destruct Hinv2 as (Hok2 & Hcover & _).
    destruct (flag_loop_ok st2.2 st2.1 Hok2) as ([Hal Hnom] & Hmono & Hflag).
    split; [done|]. split; [done|]. split; [|done].
    intros _ term Hterm. destruct (Hcover term Hterm) as [?|?]; [by apply Hflag|].
    by apply Hmono.
  - injection Hd as <-. destruct Hd0 as [Hal Hnom].
    split; [done|]. split; [done|]. split; [done|]. by intros _.
Qed.

Lemma mapM_res_elem {A B} (f : A -> res B) (l : list A) (l' : list B) (y : B) :
  mapM_res f l = Ok l' -> y ∈ l' -> exists x, x ∈ l /\ f x = Ok y.
Proof.
  revert l'. induction l as [|x l IH]; intros l' H Hy; simpl in H.
  - injection H as <-. by apply elem_of_nil in Hy.
  - apply bind_Ok in H as (y0 & Hy0 & H). apply bind_Ok in H as (ys & Hys & [= <-]).
    apply elem_of_cons in Hy as [->|Hy].
    + exists x. split; [by left|done].
    + destruct (IH ys Hys Hy) as (x' & ? & ?). exists x'. split; [by right|done].
Qed.

Lemma mapM_res_length {A B} (f : A -> res B) (l : list A) (l' : list B) :
  mapM_res f l = Ok l' -> length l' = length l.
Proof.
  revert l'. induction l as [|x l IH]; intros l' H; simpl in H.
  - by injection H as <-.
  - apply bind_Ok in H as (y0 & Hy0 & H). apply bind_Ok in H as (ys & Hys & [= <-]).
    simpl. by rewrite (IH ys).
Qed.

Lemma outcome_bind_Return {A B} (m : outcome A) (f : A -> outcome B) (b : B) :
  m ≫= f = Return b <-> exists a, m = Return a /\ f a = Return b.
Proof.
  destruct m as [a|e]; simpl.
  - split; [eauto|]. by intros (a' & [= <-] & ?).
  - split; [done|]. by intros (? & ? & _).
Qed.

Lemma of_res_Return {A} (r : res A) (a : A) : of_res r = Return a <-> r = Ok a.
Proof. destruct r; simpl; split; congruence. Qed.

(** X17. The datasets that [MC.__init__] of [samples.py] builds.  In every
    dataset the dicts of the trees, of the tables and of the numbers of events
    have the same keys, and a key holds [None] in all three or in none; the
    nominal entry is read.  With [systematics] every term of
    [SYSTEMATICS_TERMS] has an entry (the terms the database does not list
    hold [None]); without, the nominal entry is the only one.  Hence the
    lookup of [MC.records] finds a table and a number of events for the
    nominal term, for the fit terms and, with [systematics], for every term
    of [SYSTEMATICS_TERMS], the nominal ones standing in where the entry
    holds [None]. *)
Theorem constructed_datasets cls year systematics scale cuts samples masses modes
    self ds :
  MC_init F cls year systematics scale cuts samples masses modes = Return self ->
  ds ∈ mc_datasets self ->
  aligned (ds_trees ds) (ds_tables ds) (ds_events ds)
  /\ (exists t, ds_trees ds !! NOMINAL = Some (Some t))
  /\ (systematics = true -> forall term, term ∈ SYSTEMATICS_TERMS F ->
        is_Some (ds_trees ds !! SysTuple term))
  /\ (systematics = false -> forall k, k <> NOMINAL -> ds_trees ds !! k = None)
  /\ (forall k,
        k = NOMINAL \/ is_fit_term k = true
        \/ (systematics = true
            /\ exists term, term ∈ SYSTEMATICS_TERMS F /\ k = SysTuple term) ->
        exists t ev, lookup_table ds k = Ok (Some t, Some ev)).
Proof.
  unfold MC_init. intros H Hds.
  apply outcome_bind_Return in H as (samples' & _ & H).
  apply outcome_bind_Return in H as (datasets & Hdatasets & [= <-]).
  apply of_res_Return in Hdatasets. simpl in Hds.
  destruct (mapM_res_elem _ _ _ _ Hdatasets Hds) as (it & _ & Hit).
  destruct (init_dataset_ok _ _ _ _ _ _ _ Hit) as (Hal & [t Hnom] & Hterms & Hoff).
  split; [done|]. split; [by exists t|]. split; [done|]. split; [done|].
  assert (exists t ev, getitem (ds_tables ds) NOMINAL = Ok (Some t)
                       /\ getitem (ds_events ds) NOMINAL = Ok (Some ev))
    as (tb & ev & Htb & Hev).
  { pose proof (Hal NOMINAL) as Hk. rewrite Hnom in Hk.
    destruct (ds_tables ds !! NOMINAL) as [[tb|]|] eqn:H1; try done.
    destruct (ds_events ds !! NOMINAL) as [[ev|]|] eqn:H2; try done.
    exists tb, ev. by rewrite (getitem_Some _ _ _ H1), (getitem_Some _ _ _ H2). }
  intros k Hk. unfold lookup_table.
  destruct (is_fit_term k) eqn:Hfit.
  { rewrite Htb, Hev. by exists tb, ev. }
  assert (is_Some (ds_trees ds !! k)) as [tr Htr].
  { destruct Hk as [->|[?|[-> (term & Hterm & ->)]]]; [by eexists|done|by apply Hterms]. }
  pose proof (Hal k) as Hk'. rewrite Htr in Hk'.
  destruct tr as [tr|].
  - destruct (ds_tables ds !! k) as [[tb'|]|] eqn:H1; try done.
    destruct (ds_events ds !! k) as [[ev'|]|] eqn:H2; try done.
    rewrite (getitem_Some _ _ _ H1), (getitem_Some _ _ _ H2). by exists tb', ev'.
  - destruct (ds_tables ds !! k) as [[tb'|]|] eqn:H1; try done.
    destruct (ds_events ds !! k) as [[ev'|]|] eqn:H2; try done.
    rewrite (getitem_Some _ _ _ H1), (getitem_Some _ _ _ H2). simpl.
    rewrite Htb, Hev. by exists tb, ev.
Qed.
End Construction.

Lemma constructed_datasets_witness :
  exists self ds,
    samples.MC_init (examples.files examples.jes_terms) samples.C_EWK 2012 true 1 None
      [] [] [] = Return self
    /\ samples.mc_datasets self = [ds]
    /\ (exists t, samples.ds_trees ds !! NOMINAL = Some (Some t))
    /\ is_Some (samples.ds_trees ds !! SysTuple ["TAUID_UP"]).
Proof.
  assert (exists self,
            samples.MC_init (examples.files examples.jes_terms) samples.C_EWK 2012
              true 1 None [] [] [] = Return self
            /\ exists ds, samples.mc_datasets self = [ds])
    as (self & Hself & ds & Hds).
  { eexists. split; [reflexivity|]. eexists. reflexivity. }
  exists self, ds. split; [exact Hself|]. split; [exact Hds|].
  destruct (constructed_datasets (examples.files examples.jes_terms) samples.C_EWK
              2012 true 1 None [] [] [] self ds Hself) as (_ & Hnom & Hterms & _).
  - rewrite Hds. apply list_elem_of_here.
  - split; [exact Hnom|]. apply (Hterms eq_refl). by_compute.
Defined.

Section Construction_errors.
Import samples.
Context (F : Files).

Lemma pylist_remove_absent `{EqDecision A} (x : A) (l : list A) :
  x ∉ l -> pylist_remove x l = Raise (ValueError "list.remove(x): x not in list").
Proof.
  induction l as [|y l IH]; [done|]. intros Hx.
  apply not_elem_of_cons in Hx as [Hne Hx]. simpl.
  rewrite decide_False by done. by rewrite IH.
Qed.

Lemma mapM_res_raises {A B} (f : A -> res B) (l : list A) (x : A) :
  x ∈ l -> (exists e, f x = Raise e) -> exists e, mapM_res f l = Raise e.
Proof.
  intros Hx [e He]. induction l as [|y l IH]; [by apply elem_of_nil in Hx|].
  simpl. apply elem_of_cons in Hx as [<-|Hx].
  - rewrite He. by exists e.
  - destruct (f y); simpl; [|by eexists].
    destruct (IH Hx) as [e' ->]. by exists e'.
Qed.

Lemma foldlM_raises_inv {A S} (f : S -> A -> res S) (Inv : S -> Prop)
    (x : A) (l : list A) (s : S) :
  x ∈ l ->
  (forall s, Inv s -> exists e, f s x = Raise e) ->
  (forall s y s', Inv s -> f s y = Ok s' -> Inv s') ->
  Inv s -> exists e, foldlM f s l = Raise e.
Proof.
  intros Hx Hf Hstep. revert s. induction l as [|y l IH]; intros s Hs.
  - by apply elem_of_nil in Hx.
  - simpl. apply elem_of_cons in Hx as [<-|Hx].
    + destruct (Hf s Hs) as [e ->]. by exists e.
    + destruct (f s y) as [s'|e] eqn:Hy; simpl; [|by exists e].
      apply IH; [done|]. by eapply Hstep.
Qed.

Lemma unknown_term_step events_bin treename (st : Dicts * list (list string)) t :
  (forall u, u ∈ st.2 -> u ∈ SYSTEMATICS_TERMS F) ->
  t ∉ SYSTEMATICS_TERMS F ->
  (forall u, u ∈ SYSTEMATICS_TERMS F -> overlap u t = false) ->
  exists e, add_systematics_term F events_bin treename st t = Raise e.
Proof.
  intros Hsub Ht Hover. unfold add_systematics_term.
  assert (merge_term st.2 t = t) as ->.
  { unfold merge_term.
    destruct (list_find _ _) as [[i u]|] eqn:Hfind; [|done].
    apply list_find_Some in Hfind as (Hu & Hov & _).
    apply list_elem_of_lookup_2 in Hu. by rewrite (Hover u (Hsub u Hu)) in Hov. }
  destruct (read_entry _ _ _ _ _); simpl; [|by eexists].
  rewrite pylist_remove_absent; [by eexists|].
  intros Hin. by apply Ht, Hsub.
Qed.

(** X18. [MC.__init__] of [samples.py] does not return when the database
    lists, for one of the samples, a term of systematics that is not in
    [SYSTEMATICS_TERMS] and shares no name with a term of it: removing it from
    the unused terms fails. *)
Theorem unknown_term_aborts cls year scale cuts samples masses modes
    (names : list string) name terms sys_samples t :
  (if issubclass cls C_Background
   then get_sample F year (lower (class_name cls)) = Ok names
   else names = samples) ->
  name ∈ names ->
  get_systematics F year name = (terms, sys_samples) ->
  t ∈ terms ->
  t ∉ SYSTEMATICS_TERMS F ->
  (forall u, u ∈ SYSTEMATICS_TERMS F -> overlap u t = false) ->
  exists e, MC_init F cls year true scale cuts samples masses modes = Fail e.
Proof.
  intros Hnames Hname Hsys Ht Hnew Hover. unfold MC_init.
  assert (forall i, exists e,
            init_dataset F cls year true masses modes (i, name) = Raise e) as Hds.
  { intros i. unfold init_dataset. simpl.
    destruct (db F name); simpl; [|by eexists].
    destruct (read_entry _ _ _ _ _) as [d0|]; simpl; [|by eexists].
    rewrite Hsys.
    destruct (foldlM_raises_inv (add_systematics_term F (events_bin cls)
                                   (treename_of name))
                (fun st => forall u, u ∈ st.2 -> u ∈ SYSTEMATICS_TERMS F)
                t terms (d0, SYSTEMATICS_TERMS F) Ht) as [e ->]; [..|by eexists].
    - intros st Hst. by apply unknown_term_step.
    - intros [d unused] y [d' unused'] Hst Hy u Hu. simpl in *. apply Hst.
      unfold add_systematics_term in Hy. simpl in Hy.
      apply bind_Ok in Hy as (? & _ & Hy).
      apply bind_Ok in Hy as (unused1 & Hrem & [= _ <-]).
      by apply (pylist_remove_elem _ _ _ Hrem).
    - done. }
  assert (exists e, mapM_res (init_dataset F cls year true masses modes)
                      (indexed names) = Raise e) as [e He].
  { apply list_elem_of_lookup in Hname as [i Hi].
    apply (mapM_res_raises _ _ (i, name)); [|apply Hds].
    apply list_elem_of_lookup. exists i. unfold indexed.
    by rewrite list_lookup_imap, Hi. }
  destruct (issubclass cls C_Background).
  - rewrite Hnames. simpl. rewrite He. by eexists.
  - subst names. destruct (issubclass cls C_Signal); simpl; [|by eexists].
    destruct (py_assert _); simpl; [|by eexists]. rewrite He. by eexists.
Qed.
End Construction_errors.

Lemma unknown_term_aborts_witness :
  exists e,
    samples.MC_init (examples.files [["MET_UP"]]) samples.C_EWK 2012 true 1 None
      [] [] [] = Fail e.
Proof.
  apply (unknown_term_aborts (examples.files [["MET_UP"]]) samples.C_EWK 2012 1 None
           [] [] [] ["ewk.mc12a"] "ewk.mc12a" [["MET_UP"]] [] ["MET_UP"]).
  - reflexivity.
  - by_compute.
  - reflexivity.
  - by_compute.
  - by_compute.
  - apply Forall_forall. by_compute.
Defined.

Section Higgs_construction.
Import samples.
Context (F : Files).

Lemma remove_dups_length_le `{EqDecision A} (l : list A) :
  (length (remove_dups l) <= length l)%nat.
Proof.
  induction l as [|x l IH]; simpl; [done|]. case_decide; simpl; lia.
Qed.

Lemma remove_dups_length_NoDup `{EqDecision A} (l : list A) :
  length (remove_dups l) = length l -> NoDup l.
Proof.
  induction l as [|x l IH]; simpl; [constructor|].
  pose proof (remove_dups_length_le l). case_decide as Hx; simpl; [lia|].
  intros [= Hl]. constructor; [done|by apply IH].
Qed.

Lemma choose_spec `{EqDecision A} (points : list A) one many (xs : list A) :
  NoDup points -> points <> [] ->
  choose points one many = Return xs ->
  xs <> [] /\ NoDup xs /\ Forall (fun x => x ∈ points) xs.
Proof.
  intros Hnd Hne. unfold choose. destruct many as [ys|].
  - intros H.
    apply outcome_bind_Return in H as ([] & H1 & H).
    apply outcome_bind_Return in H as ([] & H2 & H).
    apply outcome_bind_Return in H as ([] & H3 & [= <-]).
    unfold py_assert in *.
    destruct (bool_decide (0 < length ys)%nat) eqn:Hlen; [|done].
    apply bool_decide_eq_true in Hlen.
    destruct (forallb _ ys) eqn:Hall; [|done].
    destruct (bool_decide (length (remove_dups ys) = length ys)) eqn:Hdup; [|done].
    apply bool_decide_eq_true in Hdup.
    split; [intros ->; simpl in Hlen; lia|].
    split; [by apply remove_dups_length_NoDup|].
    apply Forall_forall. intros x Hx.
    rewrite forallb_forall in Hall. apply list_elem_of_In in Hx.
    specialize (Hall x Hx). by apply bool_decide_eq_true in Hall.
  - destruct one as [x|].
    + intros H. apply outcome_bind_Return in H as ([] & H1 & [= <-]).
      unfold py_assert in H1. destruct (bool_decide (x ∈ points)) eqn:Hx; [|done].
      apply bool_decide_eq_true in Hx.
      split; [done|]. split; [apply NoDup_singleton|]. by constructor.
    + intros [= <-]. split; [done|]. split; [done|].
      by apply Forall_forall.
Qed.

Lemma entries_loop (generator_index : nat) suffix (masses : list Z) (modes : list string)
    acc :
  Forall (fun x => x ∈ MODES) modes ->
  foldlM (fun acc mode =>
      m ← pydict_get MODES_DICT mode;
      let generator := if decide (generator_index = 1%nat) then m.1.2 else m.2 in
      mret (acc ++ ((fun mass => (sample_name generator mode mass suffix, mass, mode))
                      <$> masses)))
    acc modes
  = Ok (acc ++ (mode ← modes;
                mass ← masses;
                match pydict_get MODES_DICT mode with
                | Ok m =>
                    [(sample_name (if decide (generator_index = 1%nat)
                                   then m.1.2 else m.2) mode mass suffix,
                      mass, mode)]
                | Raise _ => []
                end)).
Proof.
  intros Hmodes. revert acc. induction Hmodes as [|mode modes Hmode _ IH]; intros acc.
  - simpl. by rewrite app_nil_r.
  - cbn [foldlM]. assert (exists m, pydict_get MODES_DICT mode = Ok m) as [m Hm].
    { unfold MODES in Hmode. repeat (apply elem_of_cons in Hmode as [->|Hmode]);
        [by eexists..|by apply elem_of_nil in Hmode]. }
    rewrite Hm. cbn [mbind res_bind mret res_ret]. rewrite IH, <- app_assoc.
    rewrite bind_cons, Hm. reflexivity.
Qed.

Lemma NoDup_fmap_inj_on {A B} (f : A -> B) (l : list A) (x y : A) :
  NoDup (f <$> l) -> x ∈ l -> y ∈ l -> f x = f y -> x = y.
Proof.
  induction l as [|z l IH]; intros Hnd Hx Hy Heq; [by apply elem_of_nil in Hx|].
  csimpl in Hnd. apply NoDup_cons in Hnd as [Hz Hnd].
  apply elem_of_cons in Hx as [->|Hx]; apply elem_of_cons in Hy as [->|Hy].
  - done.
  - exfalso. apply Hz. rewrite Heq. by apply list_elem_of_fmap_2.
  - exfalso. apply Hz. rewrite <- Heq. by apply list_elem_of_fmap_2.
  - by apply IH.
Qed.

Lemma full_grid_names (year : Z) :
  year = 2011%Z \/ year = 2012%Z ->
  NoDup ((fun e : string * Z * string => e.1.1) <$> grid year MODES MASS_POINTS).
Proof. intros [->| ->]; by_compute. Qed.

Lemma elem_of_grid year modes masses e :
  e ∈ grid year modes masses <->
  e.2 ∈ modes /\ e.1.2 ∈ masses
  /\ exists m, pydict_get MODES_DICT e.2 = Ok m
               /\ e.1.1 = sample_name (if decide (year = 2011%Z) then m.1.2 else m.2)
                            e.2 e.1.2
                            (if decide (year = 2011%Z) then "mc11c" else "mc12a").
Proof.
  unfold grid. rewrite list_elem_of_bind. split.
  - intros (mode & He & Hmode). apply list_elem_of_bind in He as (mass & He & Hmass).
    destruct (pydict_get MODES_DICT mode) as [m|] eqn:Hm; [|by apply elem_of_nil in He].
    apply list_elem_of_singleton in He as ->. simpl. by eauto.
  - intros (Hmode & Hmass & m & Hm & Hname). exists e.2. split; [|done].
    apply list_elem_of_bind. exists e.1.2. split; [|done]. rewrite Hm.
    apply list_elem_of_singleton. destruct e as [[n ms] md]. simpl in *. by subst.
Qed.

Lemma NoDup_grid year modes masses :
  NoDup modes -> NoDup masses -> NoDup (grid year modes masses).
Proof.
  intros Hmodes Hmasses. unfold grid.
  apply NoDup_bind; [|intros mode _; apply NoDup_bind|done].
  - intros mode mode' e _ _ H1 H2.
    apply list_elem_of_bind in H1 as (mass & H1 & _).
    apply list_elem_of_bind in H2 as (mass' & H2 & _).
    destruct (pydict_get MODES_DICT mode); [|by apply elem_of_nil in H1].
    destruct (pydict_get MODES_DICT mode'); [|by apply elem_of_nil in H2].
    apply list_elem_of_singleton in H1, H2. by simplify_eq.
  - intros mass mass' e _ _ H1 H2.
    destruct (pydict_get MODES_DICT mode); [|by apply elem_of_nil in H1].
    apply list_elem_of_singleton in H1, H2. by simplify_eq.
  - intros mass _. destruct (pydict_get MODES_DICT mode); [apply NoDup_singleton|constructor].
  - done.
Qed.

(** X19. The samples of a [Higgs] of [samples.py].  When the constructor
    returns, the year is 2011 or 2012 and the sample has one dataset for every
    pair of a chosen mode and a chosen mass, mode by mode, with the masses and
    the modes recorded in step; there is at least one sample and no name
    occurs twice.  The property [mode] returns only for one mode with one
    mass: [modes] holds one entry for every sample, not for every mode. *)
Theorem Higgs_samples year mode modes mass masses systematics scale cuts self :
  Higgs_init F year mode modes mass masses systematics scale cuts = Return self ->
  exists (the_masses : list Z) (the_modes : list string),
    choose MASS_POINTS mass masses = Return the_masses
    /\ choose MODES mode modes = Return the_modes
    /\ (year = 2011%Z \/ year = 2012%Z)
    /\ higgs_samples self
       = (fun e : string * Z * string => e.1.1) <$> grid year the_modes the_masses
    /\ higgs_masses self = (_ ← the_modes; the_masses)
    /\ higgs_modes self = (m ← the_modes; replicate (length the_masses) m)
    /\ length (higgs_samples self) = (length the_modes * length the_masses)%nat
    /\ length (mc_datasets self) = length (higgs_samples self)
    /\ higgs_samples self <> []
    /\ NoDup (higgs_samples self)
    /\ (forall m, Higgs_mode self = Return m
                  <-> the_modes = [m] /\ length the_masses = 1%nat).
Proof.
  unfold Higgs_init. intros H.
  apply outcome_bind_Return in H as (ms & Hms & H).
  apply outcome_bind_Return in H as (mds & Hmds & H).
  apply outcome_bind_Return in H as ([suffix gi] & Hyear & H).
  apply outcome_bind_Return in H as (entries & Hentries & H).
  apply outcome_bind_Return in H as (mc & Hmc & [= <-]). simpl.
  destruct (choose_spec MASS_POINTS mass masses ms ltac:(by_compute) ltac:(done) Hms)
    as (Hms_ne & Hms_nd & Hms_in).
  destruct (choose_spec MODES mode modes mds ltac:(by_compute) ltac:(done) Hmds)
    as (Hmds_ne & Hmds_nd & Hmds_in).
  assert (year = 2011%Z \/ year = 2012%Z) as Hy.
  { repeat case_decide; try done; auto. }
  assert (entries = grid year mds ms) as ->.
  { apply of_res_Return in Hentries. rewrite entries_loop in Hentries by done.
    injection Hentries as <-. unfold grid.
    repeat case_decide; try done; simplify_eq; done. }
  exists ms, mds. split; [done|]. split; [done|]. split; [done|]. split; [done|].
  assert (forall (A : Type) (g : string * Z * string -> A) (h : string -> Z -> A),
            (forall e, g e = h e.2 e.1.2) ->
            g <$> grid year mds ms = (mode ← mds; mass ← ms; [h mode mass])) as Hproj.
  { intros A g h Hg. unfold grid. clear -Hmds_in Hg.
    induction Hmds_in as [|mode mds Hmode _ IH]; [done|].
    rewrite !bind_cons, fmap_app, IH. f_equal.
    assert (exists m, pydict_get MODES_DICT mode = Ok m) as [m ->].
    { unfold MODES in Hmode. repeat (apply elem_of_cons in Hmode as [->|Hmode]);
        [by eexists..|by apply elem_of_nil in Hmode]. }
    clear -Hg. induction ms as [|mass ms IH]; [done|].
    rewrite !bind_cons, fmap_app, IH. by rewrite list_fmap_singleton, Hg. }
  assert (forall A (f : string -> Z -> A),
            length (mode ← mds; mass ← ms; [f mode mass])
            = (length mds * length ms)%nat) as Hlen.
  { intros A f. clear. induction mds as [|mode mds IH]; [done|].
    rewrite bind_cons, length_app, IH. simpl. f_equal.
    clear. induction ms as [|mass ms IH]; [done|].
    rewrite bind_cons, length_app, IH. done. }
  assert (length ((fun e : string * Z * string => e.1.1) <$> grid year mds ms)
          = (length mds * length ms)%nat) as Hlen_samples.
  { rewrite length_fmap, <- (length_fmap (fun e : string * Z * string => e.2)).
    rewrite (Hproj _ _ (fun mode _ => mode)) by done. apply Hlen. }
  split; [|split; [|split; [|split; [|split; [|split]]]]].
  - rewrite (Hproj _ _ (fun _ mass => mass)) by done.
    clear. induction mds as [|mode mds IH]; [done|].
    rewrite !bind_cons. f_equal; [|exact IH].
    clear. induction ms as [|mass ms IHm]; [done|]. rewrite bind_cons, IHm. done.
  - rewrite (Hproj _ _ (fun mode _ => mode)) by done.
    clear. induction mds as [|mode mds IH]; [done|].
    rewrite !bind_cons. f_equal; [|exact IH].
    clear. induction ms as [|mass ms IHm]; [done|]. rewrite bind_cons, IHm. done.
  - done.
  - unfold MC_init in Hmc. simpl in Hmc.
    apply outcome_bind_Return in Hmc as (samples' & Hs & Hmc).
    apply outcome_bind_Return in Hs as ([] & _ & [= <-]).
    apply outcome_bind_Return in Hmc as (datasets & Hd & [= <-]). simpl.
    apply of_res_Return in Hd. apply mapM_res_length in Hd. rewrite Hd.
    unfold indexed. by rewrite length_imap.
  - intros Hnil. apply (f_equal length) in Hnil. rewrite Hlen_samples in Hnil.
    destruct mds, ms; simpl in *; done.
  - apply NoDup_fmap_2_strong; [|by apply NoDup_grid].
    intros e e' He He' Heq.
    apply (NoDup_fmap_inj_on (fun e : string * Z * string => e.1.1)
             (grid year MODES MASS_POINTS)); [by apply full_grid_names| | |done].
    + apply elem_of_grid. apply elem_of_grid in He as (H1 & H2 & H3).
      rewrite Forall_forall in Hmds_in. rewrite Forall_forall in Hms_in. by auto.
    + apply elem_of_grid. apply elem_of_grid in He' as (H1 & H2 & H3).
      rewrite Forall_forall in Hmds_in. rewrite Forall_forall in Hms_in. by auto.
  - intros m. unfold Higgs_mode. simpl.
    rewrite (Hproj _ _ (fun mode _ => mode)) by done.
    destruct mds as [|md [|md' mds]]; [done| |].
    + csimpl. rewrite app_nil_r.
      destruct ms as [|x [|y ms]]; [done| |]; csimpl.
      * split; [by intros [= <-]|by intros [[= <-] _]].
      * split; [done|]. by intros [_ ?].
    + csimpl. destruct ms as [|x [|y ms]]; [done| |]; csimpl.
      * split; [done|]. by intros [? _].
      * split; [done|]. by intros [? _].
Qed.
End Higgs_construction.

Lemma Higgs_samples_witness :
  exists self,
    samples.Higgs_init (examples.files []) 2012 (Some "gg") None None
      (Some [125; 130]%Z) false 1 None = Return self
    /\ samples.higgs_samples self
       = ["PowHegPythia8_AU2CT10_ggH125_tautauhh.mc12a";
          "PowHegPythia8_AU2CT10_ggH130_tautauhh.mc12a"]
    /\ samples.higgs_modes self = ["gg"; "gg"]
    /\ forall m, samples.Higgs_mode self <> Return m.
Proof.
  assert (exists self,
            samples.Higgs_init (examples.files []) 2012 (Some "gg") None None
              (Some [125; 130]%Z) false 1 None = Return self) as [self Hself].
  { eexists. reflexivity. }
  exists self. split; [exact Hself|].
  destruct (Higgs_samples (examples.files []) 2012 (Some "gg") None None
              (Some [125; 130]%Z) false 1 None self Hself)
    as (masses & modes & Hmasses & Hmodes & _ & Hs & _ & Hm & _ & _ & _ & _ & Hmode).
  injection Hmasses as <-. injection Hmodes as <-.
  split; [rewrite Hs; reflexivity|]. split; [rewrite Hm; reflexivity|].
  intros m H. apply Hmode in H as [_ H]. discriminate H.
Defined.

(** ** Construction of the samples of [sample.py], and their event counts *)

Section Sample_construction.
Import sample.
Context (F : samples.Files).

Lemma sample_read_entry_ok events_bin d k name d' :
  read_entry F events_bin d k name = Ok d' ->
  same_keys d ->
  same_keys d'
  /\ is_Some (d_trees d' !! k)
  /\ (forall k', is_Some (d_trees d !! k') -> is_Some (d_trees d' !! k'))
  /\ (forall k', k' <> k -> d_trees d' !! k' = d_trees d !! k').
Proof.
  unfold read_entry. intros H Hd.
  apply bind_Ok in H as (tree & _ & H). apply bind_Ok in H as (table & _ & H).
  apply bind_Ok in H as (events & _ & [= <-]). simpl.
  split; [|split; [|split]].
  - intros k'. simpl. destruct (decide (k = k')) as [->|Hne].
    + rewrite !lookup_insert_eq. by split.
    + rewrite !lookup_insert_ne by done. apply Hd.
  - by rewrite lookup_insert_eq.
  - intros k' Hk'. destruct (decide (k = k')) as [->|Hne].
    + by rewrite lookup_insert_eq.
    + by rewrite lookup_insert_ne.
  - intros k' Hne. by rewrite lookup_insert_ne.
Qed.

Lemma sample_init_dataset_ok embedded year systematics method it ds :
  init_dataset F embedded year systematics method it = Ok ds ->
  (forall k, (is_Some (ds_trees ds !! k) <-> is_Some (ds_tables ds !! k))
             /\ (is_Some (ds_tables ds !! k) <-> is_Some (ds_events ds !! k)))
  /\ is_Some (ds_trees ds !! NOMINAL)
  /\ (systematics = false -> forall k, k <> NOMINAL -> ds_trees ds !! k = None).
Proof.
  unfold init_dataset. intros H.
  apply bind_Ok in H as (xke & _ & H).
  apply bind_Ok in H as (d0 & Hread & H).
  apply bind_Ok in H as (d & Hd & H).
  apply bind_Ok in H as ([[xs kfact] effic] & _ & [= <-]). simpl.
  destruct (sample_read_entry_ok _ _ _ _ _ Hread) as (Hk0 & Hnom0 & _ & Hother0).
  { intros k. simpl. rewrite !lookup_empty. split; by split. }
  set (Inv := fun d : Dicts => same_keys d /\ is_Some (d_trees d !! NOMINAL)).
  assert (forall events_bin d k name d',
            Inv d -> read_entry F events_bin d k name = Ok d' -> Inv d') as Hstep.
  { intros eb d1 k name d2 [H1 H2] Hr.
    destruct (sample_read_entry_ok _ _ _ _ _ Hr H1) as (? & _ & Hmono & _).
    split; [done|by apply Hmono]. }
  destruct systematics.
  - destruct (samples.get_systematics F year it.2) as [terms sys_samples].
    apply bind_Ok in Hd as (d1 & H1 & H2).
    assert (Inv d1) as Hinv1.
    { eapply (foldlM_invariant _ Inv); [|exact (conj Hk0 Hnom0)|exact H1].
      intros s x s' Hs Hx. exact (Hstep _ _ _ _ _ Hs Hx). }
    assert (Inv d) as [Hk Hnom].
    { eapply (foldlM_invariant _ Inv); [|exact Hinv1|exact H2].
      intros s x s' Hs Hx. apply bind_Ok in Hx as (? & _ & Hx).
      exact (Hstep _ _ _ _ _ Hs Hx). }
    split; [exact Hk|]. split; [done|done].
  - injection Hd as <-. split; [exact Hk0|]. split; [done|].
    intros _ k Hk. rewrite Hother0 by done. simpl. apply lookup_empty.
Qed.

(** X20. The datasets that [SystematicsSample.__init__] of [sample.py]
    builds: in every dataset the dicts of the trees, of the tables and of the
    numbers of events have the same keys, the nominal entry among them, and
    without [systematics] no other.  So the lookups of [draw_into], [events]
    and [records] never fail on a constructed sample: for every systematic
    they find a tree, a table and a number of events, those of the
    systematic when it has an entry and the nominal ones when it has none. *)
Theorem constructed_sample_datasets cls background signal Ztautau embedded class_name
    method year systematics scale scale_error cuts trigger samples self ds :
  SystematicsSample_init F cls background signal Ztautau embedded class_name method
    year systematics scale scale_error cuts trigger samples = Return self ->
  ds ∈ s_datasets self ->
  (forall k, (is_Some (ds_trees ds !! k) <-> is_Some (ds_tables ds !! k))
             /\ (is_Some (ds_tables ds !! k) <-> is_Some (ds_events ds !! k)))
  /\ is_Some (ds_trees ds !! NOMINAL)
  /\ (systematics = false -> forall k, k <> NOMINAL -> ds_trees ds !! k = None)
  /\ (forall k, exists tree table ev,
        lookup_or_nominal (ds_trees ds) (ds_events ds) k = Ok (tree, ev)
        /\ lookup_or_nominal (ds_tables ds) (ds_events ds) k = Ok (table, ev)
        /\ (ds_events ds !! k = Some ev \/
            (ds_events ds !! k = None /\ ds_events ds !! NOMINAL = Some ev))).
Proof.
  unfold SystematicsSample_init. intros H Hds.
  apply outcome_bind_Return in H as (samples' & _ & H).
  apply outcome_bind_Return in H as (datasets & Hdatasets & [= <-]).
  apply of_res_Return in Hdatasets. simpl in Hds.
  destruct (mapM_res_elem _ _ _ _ Hdatasets Hds) as (it & _ & Hit).
  destruct (sample_init_dataset_ok _ _ _ _ _ _ Hit) as (Hk & Hnom & Hoff).
  split; [done|]. split; [done|]. split; [done|].
  intros k. unfold lookup_or_nominal.
  destruct (Hk k) as [H1 H2]. destruct (Hk NOMINAL) as [H3 H4].
  destruct (ds_trees ds !! k) as [tree|] eqn:Htree.
  - destruct (proj1 H1 ltac:(by eexists)) as [table Htable].
    destruct (proj1 H2 ltac:(by eexists)) as [ev Hev].
    rewrite Htable, Hev. exists tree, table, ev. by auto.
  - assert (ds_tables ds !! k = None) as ->.
    { apply eq_None_not_Some. intros Hs. apply H1 in Hs. by destruct Hs. }
    assert (ds_events ds !! k = None) as Hev.
    { apply eq_None_not_Some. intros Hs. apply H2, H1 in Hs. by destruct Hs. }
    destruct Hnom as [tree Htree'].
    destruct (proj1 H3 ltac:(by eexists)) as [table Htable].
    destruct (proj1 H4 ltac:(by eexists)) as [ev Hev'].
    rewrite (getitem_Some _ _ _ Htree'), (getitem_Some _ _ _ Htable),
      (getitem_Some _ _ _ Hev'). simpl.
    exists tree, table, ev. by auto.
Qed.
End Sample_construction.

Lemma constructed_sample_datasets_witness :
  exists self ds,
    sample.SystematicsSample_init (examples.files examples.jes_terms) sample.C_MC
      true false false false "EWK" None 2012 true 1 0 None false [] = Return self
    /\ sample.s_datasets self = [ds]
    /\ is_Some (sample.ds_trees ds !! NOMINAL)
    /\ exists tree ev,
         sample.lookup_or_nominal (sample.ds_trees ds) (sample.ds_events ds)
           (SysTuple ["TAUID_UP"]) = Ok (tree, ev).
Proof.
  assert (exists self,
            sample.SystematicsSample_init (examples.files examples.jes_terms)
              sample.C_MC true false false false "EWK" None 2012 true 1 0 None false []
            = Return self
            /\ exists ds, sample.s_datasets self = [ds])
    as (self & Hself & ds & Hds).
  { eexists. split; [reflexivity|]. eexists. reflexivity. }
  exists self, ds. split; [exact Hself|]. split; [exact Hds|].
  destruct (constructed_sample_datasets (examples.files examples.jes_terms)
              sample.C_MC true false false false "EWK" None 2012 true 1 0 None false
              [] self ds Hself) as (_ & Hnom & _ & Hlookup).
  - rewrite Hds. apply list_elem_of_here.
  - split; [exact Hnom|].
    destruct (Hlookup (SysTuple ["TAUID_UP"])) as (tree & table & ev & Ht & _).
    by exists tree, ev.
Defined.

Section Event_counts.
Import sample.

Lemma weights_other_terms (E : Env) (self : Sample) systematic systerm variation :
  dict_order E ->
  get_sys_term_variation systematic = Ok (systerm, variation) ->
  (forall term, systerm = Some term -> term ∉ (weight_systematics self).*1) ->
  weights E self systematic = weights E self NOMINAL.
Proof.
  intros Hord Hparse Hterm. unfold weights.
  destruct (is_SystematicsSample self); [|done].
  rewrite Hparse. simpl. f_equal. apply foldlM_ext.
  intros wf [term variations] Hin.
  rewrite (Hord _ (weight_systematics self)) in Hin.
  assert (term_matches term systerm = false) as ->.
  { unfold term_matches. apply bool_decide_eq_false. intros ->.
    apply (Hterm term eq_refl). apply list_elem_of_fmap. by exists (term, variations). }
  done.
Qed.

Lemma cuts_other_terms (E : Env) (self : Sample) category region systematic r :
  dict_order E ->
  get_sys_term_variation systematic = Ok r ->
  cuts E self category region systematic = cuts E self category region NOMINAL.
Proof.
  intros Hord Hparse. unfold cuts.
  assert (dict_items E _ (cut_systematics self) = []) as ->.
  { apply Permutation_nil_r. apply Hord. }
  destruct (match region with Some _ => _ | None => _ end); simpl; [|done].
  destruct (is_SystematicsSample self); [|done].
  rewrite Hparse. by destruct r.
Qed.

(** X21. [SystematicsSample.events] of [sample.py], in whatever order the
    dicts are iterated: for a systematic that no dataset of the sample has a
    tree for and that is no family of the weight systematics, the call is the
    nominal call, whether it returns or raises. *)
Theorem events_fall_back_to_nominal (E : Env) Draw_cut (self : Sample) category
    region cuts_arg systematic weighted hist scale systerm variation :
  dict_order E ->
  get_sys_term_variation systematic = Ok (systerm, variation) ->
  (forall term, systerm = Some term -> term ∉ (weight_systematics self).*1) ->
  (forall ds, ds ∈ s_datasets self -> ds_trees ds !! systematic = None) ->
  events E Draw_cut self category region cuts_arg systematic weighted hist scale
  = events E Draw_cut self category region cuts_arg NOMINAL weighted hist scale.
Proof.
  intros Hord Hparse Hterm Htrees. unfold events.
  apply foldlM_ext. intros h ds Hds.
  rewrite (lookup_or_nominal_missing _ _ _ (Htrees ds Hds)).
  rewrite (weights_other_terms E self systematic systerm variation Hord Hparse Hterm).
  by rewrite (cuts_other_terms E self category region systematic _ Hord Hparse).
Qed.
End Event_counts.

Lemma events_fall_back_to_nominal_witness :
  sample.events demo.sample_env (fun _ _ _ h => h) (demo.ztautau false)
    (Some demo.category) (Some "OS") None (SysTuple ["JES_UP"]) true None 1
  = sample.events demo.sample_env (fun _ _ _ h => h) (demo.ztautau false)
      (Some demo.category) (Some "OS") None NOMINAL true None 1.
Proof.
  apply (events_fall_back_to_nominal demo.sample_env (fun _ _ _ h => h)
           (demo.ztautau false) (Some demo.category) (Some "OS") None
           (SysTuple ["JES_UP"]) true None 1 (Some "JES") "UP").
  - intros V d. reflexivity.
  - reflexivity.
  - intros term [= <-]. by_compute.
  - intros ds Hds. apply list_elem_of_singleton in Hds as ->. reflexivity.
Defined.

(** ** The weight variations iterated *)

Section Weight_branches.
Import samples.

Lemma pydict_get_elem {V} (d : pydict V) (k : string) (v : V) :
  (k, v) ∈ d -> exists v', pydict_get d k = Ok v'.
Proof.
  induction d as [|[k' v'] d IH]; intros Hin; [by apply elem_of_nil in Hin|].
  simpl. case_decide; [by eexists|].
  apply elem_of_cons in Hin as [[= -> ->]|Hin]; [done|by apply IH].
Qed.

Lemma foldlM_total {A S} (f : S -> A -> res S) (l : list A) (s : S) :
  (forall s x, x ∈ l -> exists s', f s x = Ok s') -> exists r, foldlM f s l = Ok r.
Proof.
  revert s. induction l as [|x l IH]; intros s H; simpl; [by eexists|].
  destruct (H s x) as [s' ->]; [by left|]. simpl. apply IH.
  intros s0 y Hy. apply H. by right.
Qed.

Lemma mapM_res_total {A B} (f : A -> res B) (l : list A) :
  (forall x, x ∈ l -> exists y, f x = Ok y) ->
  exists ys, mapM_res f l = Ok ys /\ Forall2 (fun x y => f x = Ok y) l ys.
Proof.
  induction l as [|x l IH]; intros H; simpl; [by exists []|].
  destruct (H x) as [y Hy]; [by left|].
  destruct IH as (ys & Hys & Hall); [intros z Hz; apply H; by right|].
  exists (y :: ys). rewrite Hy. simpl. rewrite Hys. simpl. split; [done|].
  by constructor.
Qed.

Lemma elem_of_variation_terms {V} (d : pydict (pydict V)) (term : systematic) :
  term ∈ variation_terms d <->
  exists type variations variation x,
    (type, variations) ∈ d /\ (variation, x) ∈ variations
    /\ variation <> "NOMINAL"
    /\ term = SysTuple [type +:+ "_" +:+ variation].
Proof.
  unfold variation_terms. rewrite list_elem_of_bind. split.
  - intros ([type variations] & Hin & Hd).
    apply list_elem_of_bind in Hin as ([variation x] & Hin & Hv).
    case_decide; [by apply elem_of_nil in Hin|].
    apply list_elem_of_singleton in Hin as ->. by exists type, variations, variation, x.
  - intros (type & variations & variation & x & Hd & Hv & Hne & ->).
    exists (type, variations). split; [|done].
    apply list_elem_of_bind. exists (variation, x). split; [|done].
    rewrite decide_False by done. by left.
Qed.

Lemma family_loop_total {V S} (d : pydict (pydict V)) (g : S -> V -> S) (s : S)
    (type : option string) (variation : string) :
  families_ok d ->
  (forall t variations, type = Some t -> (t, variations) ∈ d ->
                        exists x, (variation, x) ∈ variations) ->
  exists r,
    foldlM (fun s '(term, variations) =>
              v ← pydict_get variations
                    (if term_matches term type then variation else "NOMINAL");
              mret (g s v)) s d = Ok r.
Proof.
  intros [_ Hok] Hv. apply foldlM_total.
  intros s0 [term variations] Hin.
  destruct (Hok term variations Hin) as (_ & [v0 Hnom] & _).
  unfold term_matches. case_bool_decide as Ht.
  - destruct (Hv term variations Ht Hin) as [x Hx].
    destruct (pydict_get_elem _ _ _ Hx) as [v ->]. by eexists.
  - rewrite Hnom. by eexists.
Qed.

(** X22. [Sample.iter_weight_branches] of [samples.py] on well-formed
    families of systematics (distinct names, a nominal entry in every family,
    no underscore in the names, no family in both dicts): the iteration
    completes and yields one pair for every non-nominal variation of every
    family, the weight families first and, for an embedded Ztautau sample,
    the embedding families after them.  Every term yielded is a one-name
    term [type_variation] that [get_sys_term_variation] parses back into the
    family and the variation, and comes with the weight branches of that
    term. *)
Theorem iter_weight_branches_terms (E : Env) (cls : pyclass) :
  families_ok (WEIGHT_SYSTEMATICS E) ->
  families_ok (EMBEDDING_SYSTEMATICS E) ->
  (forall t, t ∈ (WEIGHT_SYSTEMATICS E).*1 -> t ∉ (EMBEDDING_SYSTEMATICS E).*1) ->
  exists its,
    iter_weight_branches E cls = Ok its
    /\ its.*2
       = variation_terms (WEIGHT_SYSTEMATICS E)
         ++ (if issubclass cls C_Embedded_Ztautau
             then variation_terms (EMBEDDING_SYSTEMATICS E) else [])
    /\ forall wb term, (wb, term) ∈ its ->
         get_weight_branches E cls term false false true = Ok wb
         /\ exists type variation,
              term = SysTuple [type +:+ "_" +:+ variation]
              /\ get_sys_term_variation term = Ok (Some type, variation).
Proof.
  intros Hw He Hdisj. unfold iter_weight_branches.
  set (terms := variation_terms (WEIGHT_SYSTEMATICS E)
                ++ (if issubclass cls C_Embedded_Ztautau
                    then variation_terms (EMBEDDING_SYSTEMATICS E) else [])).
  assert (forall term, term ∈ terms ->
            exists type variation,
              term = SysTuple [type +:+ "_" +:+ variation]
              /\ get_sys_term_variation term = Ok (Some type, variation)
              /\ (forall variations, (type, variations) ∈ WEIGHT_SYSTEMATICS E ->
                                     exists x, (variation, x) ∈ variations)
              /\ (forall variations, (type, variations) ∈ EMBEDDING_SYSTEMATICS E ->
                                     exists x, (variation, x) ∈ variations)) as Hterm.
  { intros term Hin. unfold terms in Hin. apply elem_of_app in Hin as [Hin|Hin].
    - apply elem_of_variation_terms in Hin
        as (type & variations & variation & x & Hd & Hv & Hne & ->).
      destruct (proj2 Hw type variations Hd) as (Ht & _ & Hvs).
      exists type, variation. split; [done|]. split; [|split].
      + apply samples_parse_iff. split; [done|].
        split; [done|]. by apply (Hvs variation x).
      + intros variations' Hd'.
        assert ((type, variations) = (type, variations')) as [= <-].
        { by apply (NoDup_fst_inj (WEIGHT_SYSTEMATICS E)); [apply Hw|..]. }
        by exists x.
      + intros variations' Hd'. exfalso. apply (Hdisj type).
        * apply list_elem_of_fmap. by exists (type, variations).
        * apply list_elem_of_fmap. by exists (type, variations').
    - destruct (issubclass cls C_Embedded_Ztautau); [|by apply elem_of_nil in Hin].
      apply elem_of_variation_terms in Hin
        as (type & variations & variation & x & Hd & Hv & Hne & ->).
      destruct (proj2 He type variations Hd) as (Ht & _ & Hvs).
      exists type, variation. split; [done|]. split; [|split].
      + apply samples_parse_iff. split; [done|].
        split; [done|]. by apply (Hvs variation x).
      + intros variations' Hd'. exfalso. apply (Hdisj type).
        * apply list_elem_of_fmap. by exists (type, variations').
        * apply list_elem_of_fmap. by exists (type, variations).
      + intros variations' Hd'.
        assert ((type, variations) = (type, variations')) as [= <-].
        { by apply (NoDup_fst_inj (EMBEDDING_SYSTEMATICS E)); [apply He|..]. }
        by exists x. }
  destruct (mapM_res_total
              (fun term => wb ← get_weight_branches E cls term false false true;
                           mret (wb, term)) terms) as (its & Hits & Hall).
  { intros term Hin.
    destruct (Hterm term Hin) as (type & variation & -> & Hparse & Hwv & Hev).
    unfold get_weight_branches. simpl negb. cbn iota. rewrite Hparse.
    cbn [mbind res_bind].
    destruct (family_loop_total (WEIGHT_SYSTEMATICS E)
                (fun wb v => wb ++ (BName <$> v)) (BName <$> WEIGHT_BRANCHES)
                (Some type) variation Hw) as [wb Hwb].
    { intros t variations [= <-]. apply Hwv. }
    rewrite Hwb. cbn [mbind res_bind].
    destruct (issubclass cls C_Embedded_Ztautau); simpl; [|by eexists].
    destruct (family_loop_total (EMBEDDING_SYSTEMATICS E)
                (fun wb v => if cut_is_empty v then wb else wb ++ [BCut v]) wb
                (Some type) variation He) as [wb' Hwb'].
    { intros t variations [= <-]. apply Hev. }
    rewrite Hwb'. by eexists. }
  exists its. split; [done|]. split.
  - clear -Hall. induction Hall as [|term it terms its Hit _ IH]; [done|].
    csimpl. rewrite IH. f_equal.
    apply bind_Ok in Hit as (wb & _ & [= <-]). done.
  - intros wb term Hin.
    assert (exists term', term' ∈ terms
              /\ (wb' ← get_weight_branches E cls term' false false true;
                  mret (wb', term')) = Ok (wb, term)) as (term' & Hin' & Hit).
    { clear -Hall Hin. induction Hall as [|t it ts its' Hit _ IH];
        [by apply elem_of_nil in Hin|].
      apply elem_of_cons in Hin as [<-|Hin].
      - exists t. split; [by left|done].
      - destruct (IH Hin) as (t' & ? & ?). exists t'. split; [by right|done]. }
    apply bind_Ok in Hit as (wb' & Hwb & [= <- <-]). split; [done|].
    destruct (Hterm term' Hin') as (type & variation & -> & Hparse & _).
    by exists type, variation.
Qed.
End Weight_branches.

Lemma iter_weight_branches_terms_witness :
  exists its,
    samples.iter_weight_branches examples.samples_env samples.C_EWK = Ok its
    /\ its.*2 = [SysTuple ["TAUID_UP"]; SysTuple ["TAUID_DOWN"]].
Proof.
  destruct (iter_weight_branches_terms examples.samples_env samples.C_EWK)
    as (its & Hits & Hterms & _).
  - split; [by_compute|]. intros type variations Hin.
    apply list_elem_of_singleton in Hin. injection Hin as -> ->.
    split; [reflexivity|]. split; [eexists; reflexivity|].
    intros variation x Hx.
    repeat (apply elem_of_cons in Hx as [Hx|Hx]; [by injection Hx as -> _|]).
    by apply elem_of_nil in Hx.
  - split; [constructor|]. intros type variations Hin. by apply elem_of_nil in Hin.
  - intros t _. apply not_elem_of_nil.
  - exists its. split; [exact Hits|]. rewrite Hterms. reflexivity.
Defined.

(** ** Scale of the records *)

Section Scale_of_records.

Lemma alter_insert_weight (s w : Qc) (r : Row) :
  alter (fun w => w * s) "weight" (<["weight" := w]> r) = <["weight" := w * s]> r.
Proof.
  apply map_eq. intros k. destruct (decide (k = "weight")) as [->|Hne].
  - by rewrite lookup_alter_eq, !lookup_insert_eq.
  - by rewrite lookup_alter_ne, !lookup_insert_ne.
Qed.

Lemma alter_filter_keys (s : Qc) (P : string * Qc -> Prop)
    `{forall x, Decision (P x)} (r : Row) :
  (forall k v v', P (k, v) -> P (k, v')) ->
  filter P (alter (fun w => w * s) "weight" r)
  = alter (fun w => w * s) "weight" (filter P r).
Proof.
  intros HP. apply map_eq. intros k. apply option_eq. intros v.
  rewrite map_lookup_filter_Some.
  destruct (decide (k = "weight")) as [->|Hne].
  - rewrite !lookup_alter_eq. rewrite !fmap_Some. split.
    + intros [(w & Hw & ->) Hv]. exists w. split; [|done].
      apply map_lookup_filter_Some. split; [done|]. by eapply HP.
    + intros (w & Hw & ->). apply map_lookup_filter_Some in Hw as [Hw Hv].
      split; [by exists w|]. by eapply HP.
  - rewrite !lookup_alter_ne by done. by rewrite map_lookup_filter_Some.
Qed.

Lemma rescale_append_weight (s : Qc) (ra : RecArray) (w w' : Row -> Qc) :
  (forall r, w' r = w r * s) ->
  rec_append_weight ra w' = rescale s (rec_append_weight ra w).
Proof.
  intros Hw. unfold rec_append_weight, rescale. simpl. f_equal.
  rewrite <- list_fmap_compose. apply list_fmap_ext. intros ? x _. simpl.
  by rewrite alter_insert_weight, Hw.
Qed.

Lemma rescale_drop_fields (s : Qc) (ra : RecArray) names :
  rec_drop_fields (rescale s ra) names = rescale s (rec_drop_fields ra names).
Proof.
  unfold rec_drop_fields, rescale. simpl. f_equal.
  rewrite <- !list_fmap_compose. apply list_fmap_ext. intros ? x _. simpl.
  f_equal. by apply alter_filter_keys.
Qed.

Lemma rescale_project (s : Qc) (ra : RecArray) fs :
  rec_project (rescale s ra) fs = rescale s <$> rec_project ra fs.
Proof.
  unfold rec_project. simpl. case_decide; [|done]. simpl. f_equal.
  unfold rescale. simpl. f_equal.
  rewrite <- !list_fmap_compose. apply list_fmap_ext. intros ? x _. simpl.
  f_equal. by apply alter_filter_keys.
Qed.

Lemma weights_of_rescale (s : Qc) (recs : list RecArray) :
  weights_of (rescale s <$> recs) = (fun w => w * s) <$> weights_of recs.
Proof.
  unfold weights_of. induction recs as [|ra recs IH]; [done|].
  rewrite !fmap_cons. cbn [concat]. rewrite !fmap_app, IH. f_equal.
  unfold rescale. simpl. rewrite <- !list_fmap_compose. apply list_fmap_ext.
  intros ? x _. simpl. unfold row_get. rewrite lookup_alter_eq.
  destruct (x.2 !! "weight"); simpl; [done|]. ring.
Qed.

Lemma pydiv_scale (s a ev : Qc) :
  pydiv (s * a) ev = (fun w => w * s) <$> pydiv (1 * a) ev.
Proof.
  unfold pydiv. case_decide; [done|]. simpl. f_equal. field. done.
Qed.

Lemma samples_records_dataset_scale E (self : samples.MC) sel wb fields iw systematic
    kw (s : Qc) recs0 recs0' ids recs1 :
  samples.records_dataset E self sel wb fields iw systematic 1 kw recs0 ids = Ok recs1 ->
  exists rec,
    recs1 = recs0 ++ [rec]
    /\ samples.records_dataset E self sel wb fields iw systematic s kw recs0' ids
       = Ok (recs0' ++ [if iw then rescale s rec else rec]).
Proof.
  unfold samples.records_dataset.
  destruct (samples.lookup_table _ _) as [[table events]|]; simpl; [|done].
  unfold samples.div_events. destruct events as [ev|]; simpl; [|done].
  rewrite <- !Qcmult_assoc. rewrite (pydiv_scale s).
  destruct (pydiv _ ev) as [weight|]; simpl; [|done].
  destruct table as [t|]; simpl; [|done].
  destruct (read_where t sel kw) as [rows|]; simpl; [|done].
  set (rec0 := {| ra_source := ids.1; ra_cols := tbl_cols t; ra_rows := rows |}).
  destruct iw.
  - destruct (samples.branch_product rec0 wb) as [prod|]; simpl; [|done].
    rewrite (rescale_append_weight s rec0 (fun r => weight * prod r)
               (fun r => weight * s * prod r)) by (intros; ring).
    rewrite rescale_drop_fields.
    set (recA := rec_drop_fields _ _).
    destruct fields as [fs|].
    + rewrite rescale_project. destruct (rec_project recA fs) as [recB|]; simpl; [|done].
      intros [= <-]. by exists recB.
    + simpl. intros [= <-]. by exists recA.
  - simpl. destruct fields as [fs|].
    + destruct (rec_project rec0 fs) as [recB|]; simpl; [|done].
      intros [= <-]. by exists recB.
    + simpl. intros [= <-]. by exists rec0.
Qed.

Lemma sample_records_dataset_scale E (self : sample.Sample) sel wb fields iw systematic
    kw (s : Qc) recs0 recs1 :
  forall ids,
  sample.records_dataset E self sel wb fields iw systematic 1 kw recs0 ids = Ok recs1 ->
  sample.records_dataset E self sel wb fields iw systematic s kw
    ((if iw then rescale s else id) <$> recs0) ids
  = Ok ((if iw then rescale s else id) <$> recs1).
Proof.
  intros ids. unfold sample.records_dataset.
  destruct (sample.lookup_or_nominal _ _ _) as [[table events]|]; simpl; [|done].
  rewrite <- !Qcmult_assoc. rewrite (pydiv_scale s).
  destruct (pydiv _ events) as [weight|]; simpl; [|done].
  destruct (sample.read_table table sel kw) as [rows|]; [|by intros [= <-]].
  unfold sample.weighted_record.
  set (rec0 := {| ra_source := ids.1; ra_cols := tbl_cols table; ra_rows := rows |}).
  destruct iw.
  - destruct (sample.branch_product rec0 wb) as [prod|]; simpl; [|done].
    rewrite (rescale_append_weight s rec0 (fun r => weight * prod r)
               (fun r => weight * s * prod r)) by (intros; ring).
    set (recA := rec_append_weight _ _).
    destruct fields as [fs|].
    + rewrite rescale_project. destruct (rec_project recA fs) as [recB|]; simpl; [|done].
      intros [= <-]. by rewrite fmap_app.
    + simpl. intros [= <-]. by rewrite fmap_app.
  - simpl. destruct fields as [fs|].
    + destruct (rec_project rec0 fs) as [recB|]; simpl; [|done].
      intros [= <-]. by rewrite fmap_app.
    + simpl. intros [= <-]. by rewrite fmap_app.
Qed.

(** X23. The weights of the records are linear in [scale], in both modules:
    when the retrieval with the weight returns for the scale 1, it returns
    for every scale [s], with the same arrays, rows and columns, and every
    weight multiplied by [s]. *)
Theorem records_weights_follow_scale :
  (forall (E : samples.Env) (self : samples.MC) category region fields cuts_arg
          systematic (s : Qc) kw recs,
     samples.MC_records E self category region fields cuts_arg true systematic 1 kw
     = Ok recs ->
     samples.MC_records E self category region fields cuts_arg true systematic s kw
     = Ok (rescale s <$> recs)
     /\ weights_of (rescale s <$> recs) = (fun w => w * s) <$> weights_of recs)
  /\ (forall (E : sample.Env) (self : sample.Sample) category region fields cuts_arg
             systematic (s : Qc) kw recs,
        sample.records E self category region fields cuts_arg true systematic 1 kw
        = Ok recs ->
        sample.records E self category region fields cuts_arg true systematic s kw
        = Ok (rescale s <$> recs)
        /\ weights_of (rescale s <$> recs) = (fun w => w * s) <$> weights_of recs).
Proof.
  split.
  - intros E self category region fields cuts_arg systematic s kw recs H.
    split; [|apply weights_of_rescale].
    unfold samples.MC_records in *.
    destruct (samples.cuts _ _ _ _ _) as [c|]; simpl in *; [|done].
    destruct (samples.get_weight_branches _ _ _ _ _ _) as [wb|]; simpl in *; [|done].
    change [] with (rescale s <$> ([] : list RecArray)).
    revert H. generalize ([] : list RecArray) as recs0.
    generalize (indexed (samples.mc_datasets self)) as l.
    induction l as [|ids l IH]; intros recs0 H; simpl in *.
    + by injection H as <-.
    + apply bind_Ok in H as (recs1 & H1 & H).
      destruct (samples_records_dataset_scale _ _ _ _ _ _ _ _ s _
                  (rescale s <$> recs0) _ _ H1) as (rec & -> & ->).
      simpl. rewrite <- (IH _ H). by rewrite fmap_app.
  - intros E self category region fields cuts_arg systematic s kw recs H.
    split; [|apply weights_of_rescale].
    unfold sample.records in *.
    destruct (sample.cuts _ _ _ _ _) as [c|]; simpl in *; [|done].
    destruct (sample.weights _ _ _) as [wb|]; simpl in *; [|done].
    change [] with (rescale s <$> ([] : list RecArray)).
    revert H. generalize ([] : list RecArray) as recs0.
    generalize (indexed (sample.s_datasets self)) as l.
    induction l as [|ids l IH]; intros recs0 H; simpl in *.
    + by injection H as <-.
    + apply bind_Ok in H as (recs1 & H1 & H).
      rewrite (sample_records_dataset_scale _ _ _ _ _ true _ _ s _ _ _ H1). simpl.
      by apply IH.
Qed.
End Scale_of_records.

Lemma records_weights_follow_scale_witness :
  exists recs,
    samples.MC_records examples.samples_env examples.ewk demo.category "OS" None
      None true NOMINAL 1 None = Ok recs
    /\ samples.MC_records examples.samples_env examples.ewk demo.category "OS" None
         None true NOMINAL demo.three None = Ok (rescale demo.three <$> recs)
    /\ weights_of (rescale demo.three <$> recs) = [demo.three; demo.three].
Proof.
  eexists. split; [reflexivity|].
  destruct (proj1 records_weights_follow_scale examples.samples_env examples.ewk
              demo.category "OS" None None NOMINAL demo.three None _ eq_refl)
    as [Hrecs Hweights].
  split; [exact Hrecs|]. rewrite Hweights. by_compute.
Defined.

(** ** Higgs samples of [higgs.py] *)

Section Higgs_attributes.
Import higgs.

Lemma known_mode (mode : string) :
  mode ∈ MODES -> exists m, pydict_get MODES_DICT mode = Ok m.
Proof.
  intros Hmode. unfold MODES in Hmode.
  repeat (apply elem_of_cons in Hmode as [->|Hmode]);
    [by eexists..|by apply elem_of_nil in Hmode].
Qed.

Lemma higgs_entries_loop (year : Z) (generator_index : nat) suffix
    (masses : list Z) (modes : list string) acc :
  (generator_index = 1%nat <-> year = 2011%Z) ->
  suffix = higgs_suffix year ->
  Forall (fun x => x ∈ MODES) modes ->
  foldlM (fun acc mode =>
      m ← pydict_get MODES_DICT mode;
      let generator := if decide (generator_index = 1%nat) then m.1.2 else m.2 in
      mret (acc ++ ((fun mass =>
                       (samples.sample_name generator mode mass suffix, mass, mode))
                      <$> masses)))
    acc modes
  = Ok (acc ++ higgs_grid year modes masses).
Proof.
  intros Hgi -> Hmodes. revert acc.
  induction Hmodes as [|mode modes Hmode _ IH]; intros acc.
  - simpl. by rewrite app_nil_r.
  - cbn [foldlM]. destruct (known_mode mode Hmode) as [m Hm].
    rewrite Hm. cbn [mbind res_bind mret res_ret]. rewrite IH, <- app_assoc.
    f_equal. f_equal. unfold higgs_grid. rewrite bind_cons. f_equal.
    unfold higgs_generator. rewrite Hm.
    assert ((if decide (generator_index = 1%nat) then m.1.2 else m.2)
            = (if decide (year = 2011%Z) then m.1.2 else m.2)) as ->.
    { repeat case_decide; try done; by intuition. }
    clear. induction masses as [|mass masses IHm]; [done|].
    rewrite bind_cons, fmap_cons, IHm. done.
Qed.

Lemma pattern_entries_loop (format : Z -> res string) suffix (m : string)
    (masses : list Z) acc entries :
  foldlM (fun acc mass =>
            mode ← list_getitem [m] 0;
            name ← format mass;
            mret (acc ++ [(name +:+ "." +:+ suffix, mass, mode)]))
         acc masses = Ok entries ->
  exists new,
    entries = acc ++ new
    /\ Forall2 (fun mass e => exists name, format mass = Ok name
                                           /\ e = (name +:+ "." +:+ suffix, mass, m))
               masses new.
Proof.
  revert acc. induction masses as [|mass masses IH]; intros acc H.
  - injection H as <-. exists []. by rewrite app_nil_r.
  - cbn [foldlM] in H. apply bind_Ok in H as (acc1 & H1 & H).
    simpl in H1. destruct (format mass) as [name|] eqn:Hname; [|done].
    injection H1 as <-. destruct (IH _ H) as (new & -> & Hnew).
    exists ((name +:+ "." +:+ suffix, mass, m) :: new).
    split; [by rewrite <- app_assoc|]. constructor; [by exists name|done].
Qed.

Lemma grid_masses {A} (f : string -> Z -> A) (g : A -> Z) modes (masses : list Z) :
  (forall mode mass, g (f mode mass) = mass) ->
  g <$> (mode ← modes; mass ← masses; [f mode mass]) = (_ ← modes; masses).
Proof.
  intros Hg. induction modes as [|mode modes IH]; [done|].
  rewrite !bind_cons, fmap_app, IH. f_equal.
  clear IH. induction masses as [|mass masses IH]; [done|].
  rewrite bind_cons, fmap_app, IH. by rewrite list_fmap_singleton, Hg.
Qed.

Lemma grid_modes {A} (f : string -> Z -> A) (g : A -> string) (modes : list string)
    (masses : list Z) :
  (forall mode mass, g (f mode mass) = mode) ->
  g <$> (mode ← modes; mass ← masses; [f mode mass])
  = (mode ← modes; replicate (length masses) mode).
Proof.
  intros Hg. induction modes as [|mode modes IH]; [done|].
  rewrite !bind_cons, fmap_app, IH. f_equal.
  clear IH. induction masses as [|mass masses IH]; [done|].
  rewrite bind_cons, fmap_app, IH. by rewrite list_fmap_singleton, Hg.
Qed.

Lemma bind_const_length {A B} (l : list A) (k : list B) :
  length (_ ← l; k) = (length l * length k)%nat.
Proof.
  induction l as [|x l IH]; [done|]. rewrite bind_cons, length_app, IH. done.
Qed.

Lemma bind_const_singleton {A B} (l : list A) (k : list B) (y : B) :
  (_ ← l; k) = [y] <-> k = [y] /\ length l = 1%nat.
Proof.
  split.
  - intros H. pose proof (f_equal length H) as Hlen.
    rewrite bind_const_length in Hlen. simpl in Hlen.
    assert (length l = 1 /\ length k = 1)%nat as [Hl Hk].
    { destruct (length l) as [|[|?]], (length k) as [|[|?]]; simpl in Hlen; lia. }
    destruct l as [|x [|? ?]]; try done. destruct k as [|y' [|? ?]]; try done.
  - intros [-> Hl]. by destruct l as [|x [|x' l]].
Qed.

Lemma bind_replicate_singleton {A} (l : list A) (n : nat) (y : A) :
  (x ← l; replicate n x) = [y] <-> l = [y] /\ n = 1%nat.
Proof.
  split.
  - intros H. destruct l as [|x l]; [done|]. rewrite bind_cons in H.
    destruct n as [|[|n]]; simpl in H.
    + exfalso. clear -H. induction l as [|x' l IH]; [done|].
      rewrite bind_cons in H. simpl in H. by apply IH.
    + injection H as -> H. split; [|done]. f_equal.
      destruct l as [|x' l]; [done|]. by rewrite bind_cons in H.
    + done.
  - intros [-> ->]. done.
Qed.

Lemma Higgs_init_returns year mode modes mass masses pattern self :
  Higgs_init year mode modes mass masses pattern = Return self ->
  exists (the_masses : list Z) (the_modes : list string)
         (entries : list (string * Z * string)),
    samples.choose MASS_POINTS mass masses = Return the_masses
    /\ samples.choose MODES mode modes = Return the_modes
    /\ (year = 2011%Z \/ year = 2012%Z)
    /\ hg_samples self = (fun e : string * Z * string => e.1.1) <$> entries
    /\ hg_masses self = (fun e : string * Z * string => e.1.2) <$> entries
    /\ hg_modes self = (fun e : string * Z * string => e.2) <$> entries
    /\ hg_mode self = match hg_modes self with [m] => Some m | _ => None end
    /\ hg_mass self = match hg_masses self with [m] => Some m | _ => None end
    /\ match pattern with
       | None => entries = higgs_grid year the_modes the_masses
       | Some format =>
           exists m, the_modes = [m]
             /\ Forall2 (fun mass e =>
                           exists name, format mass = Ok name
                             /\ e = (name +:+ "." +:+ higgs_suffix year, mass, m))
                        the_masses entries
       end.
Proof.
  unfold Higgs_init. intros H.
  apply outcome_bind_Return in H as (ms & Hms & H).
  apply outcome_bind_Return in H as (mds & Hmds & H).
  apply outcome_bind_Return in H as ([suffix gi] & Hyear & H).
  apply outcome_bind_Return in H as (entries & Hentries & [= <-]). simpl.
  destruct (choose_spec MODES mode modes mds ltac:(by_compute) ltac:(done) Hmds)
    as (_ & _ & Hmds_in).
  assert ((year = 2011%Z \/ year = 2012%Z)
          /\ (gi = 1%nat <-> year = 2011%Z) /\ suffix = higgs_suffix year)
    as (Hy & Hgi & Hsuffix).
  { unfold higgs_suffix. destruct (decide (year = 2011%Z)) as [->|Hne].
    - injection Hyear as <- <-. by repeat split; auto.
    - destruct (decide (year = 2012%Z)) as [->|]; [|done].
      injection Hyear as <- <-. by repeat split; auto. }
  exists ms, mds, entries. do 8 (split; [done|]).
  destruct pattern as [format|].
  - apply outcome_bind_Return in Hentries as ([] & Hone & Hentries).
    unfold py_assert in Hone. case_bool_decide as Hlen; [|done].
    destruct mds as [|m [|m' mds]]; try done.
    apply of_res_Return in Hentries.
    destruct (pattern_entries_loop _ _ _ _ _ _ Hentries) as (new & -> & Hnew).
    exists m. split; [done|]. by rewrite <- Hsuffix.
  - apply of_res_Return in Hentries.
    rewrite (higgs_entries_loop year) in Hentries by done.
    by injection Hentries as <-.
Qed.

(** X24. The attributes that [Higgs.__init__] of [higgs.py] sets.  When it
    returns, the year is 2011 or 2012, there is at least one sample, and
    [samples], [masses] and [modes] have one entry for every pair of a chosen
    mode and a chosen mass, mode by mode.  Without a pattern the names are
    those of the generator of the mode and the year; with a pattern exactly
    one mode is chosen and the names are the formatted pattern with the
    suffix of the year.  The attribute [mode] is set only for one mode with
    one mass, and likewise [mass]: a sample of one mode and several masses
    has no [mode]. *)
Theorem Higgs_attributes year mode modes mass masses pattern self :
  Higgs_init year mode modes mass masses pattern = Return self ->
  exists (the_masses : list Z) (the_modes : list string),
    samples.choose MASS_POINTS mass masses = Return the_masses
    /\ samples.choose MODES mode modes = Return the_modes
    /\ (year = 2011%Z \/ year = 2012%Z)
    /\ hg_samples self <> []
    /\ length (hg_masses self) = length (hg_samples self)
    /\ length (hg_modes self) = length (hg_samples self)
    /\ hg_masses self = (_ ← the_modes; the_masses)
    /\ hg_modes self = (m ← the_modes; replicate (length the_masses) m)
    /\ (pattern = None ->
        hg_samples self
        = (fun e : string * Z * string => e.1.1)
            <$> higgs_grid year the_modes the_masses)
    /\ (forall format, pattern = Some format ->
          length the_modes = 1%nat
          /\ Forall2 (fun mass s => exists name,
                        format mass = Ok name
                        /\ s = name +:+ "." +:+ higgs_suffix year)
                     the_masses (hg_samples self))
    /\ (forall m, hg_mode self = Some m
                  <-> the_modes = [m] /\ length the_masses = 1%nat)
    /\ (forall x, hg_mass self = Some x
                  <-> the_masses = [x] /\ length the_modes = 1%nat).
Proof.
  intros H.
  destruct (Higgs_init_returns _ _ _ _ _ _ _ H)
    as (ms & mds & entries & Hms & Hmds & Hy & Hs & Hm & Hd & Hmode & Hmass & Hentries).
  destruct (choose_spec MASS_POINTS mass masses ms ltac:(by_compute) ltac:(done) Hms)
    as (Hms_ne & _ & _).
  destruct (choose_spec MODES mode modes mds ltac:(by_compute) ltac:(done) Hmds)
    as (Hmds_ne & _ & _).
  assert ((fun e : string * Z * string => e.1.2) <$> entries = (_ ← mds; ms)
          /\ (fun e : string * Z * string => e.2) <$> entries
             = (m ← mds; replicate (length ms) m)) as [Hm' Hd'].
  { destruct pattern as [format|].
    - destruct Hentries as (m & -> & Hall). rewrite !bind_cons, !app_nil_r.
      clear -Hall. induction Hall as [|x e masses entries (name & _ & ->) _ [IH1 IH2]];
        [done|].
      rewrite !fmap_cons. simpl. by rewrite IH1, IH2.
    - subst entries. unfold higgs_grid. split.
      + by apply (grid_masses (fun mode mass => (_, mass, mode))).
      + by apply (grid_modes (fun mode mass => (_, mass, mode))). }
  rewrite Hm' in Hm. rewrite Hd' in Hd.
  exists ms, mds. do 3 (split; [done|]).
  assert (length (hg_masses self) = length (hg_samples self)) as Hlen1.
  { by rewrite Hm, <- Hm', Hs, !length_fmap. }
  assert (length (hg_modes self) = length (hg_samples self)) as Hlen2.
  { by rewrite Hd, <- Hd', Hs, !length_fmap. }
  split; [|split; [done|split; [done|split; [done|split; [done|split; [|split; [|split]]]]]]].
  - intros Hnil. rewrite Hnil in Hlen1. rewrite Hm, bind_const_length in Hlen1.
    simpl in Hlen1. destruct ms, mds; simpl in *; try done; lia.
  - intros ->. by rewrite Hs, Hentries.
  - intros format ->. destruct Hentries as (m & -> & Hall). split; [done|].
    rewrite Hs. clear -Hall.
    induction Hall as [|x e masses entries (name & Hname & ->) _ IH]; [constructor|].
    rewrite fmap_cons. constructor; [by exists name|done].
  - intros m. rewrite Hmode, Hd. rewrite <- bind_replicate_singleton.
    destruct (m0 ← mds; replicate (length ms) m0) as [|m1 [|m2 l]]; split;
      try done; by intros [= ->].
  - intros x. rewrite Hmass, Hm. rewrite <- bind_const_singleton.
    destruct (_ ← mds; ms) as [|m1 [|m2 l]]; split; try done; by intros [= ->].
Qed.

(** X25. [Higgs.xsec_kfact_effic] of [higgs.py] on a constructed sample: for
    the number of a sample it finds the mass, the mode and the key of the
    mode, so it fails only if [yellowhiggs.xsbr] does, and it returns that
    cross section times [TAUTAUHADHADBR] with a k-factor and an efficiency of
    1; for a number past the last sample it raises [IndexError]. *)
Theorem Higgs_cross_sections year mode modes mass masses pattern self
    (xsbr : Z -> Z -> string -> res Qc) (energy : Z) (i : nat) :
  Higgs_init year mode modes mass masses pattern = Return self ->
  ((i < length (hg_samples self))%nat ->
   exists x m code,
     hg_masses self !! i = Some x
     /\ hg_modes self !! i = Some m
     /\ x ∈ MASS_POINTS
     /\ (exists g, pydict_get MODES_DICT m = Ok (code, g.1, g.2))
     /\ xsec_kfact_effic xsbr energy self i
        = (xs ← xsbr energy x code; mret (xs * TAUTAUHADHADBR, 1, 1)))
  /\ ((length (hg_samples self) <= i)%nat ->
      xsec_kfact_effic xsbr energy self i = Raise IndexError).
Proof.
  intros H.
  destruct (Higgs_init_returns _ _ _ _ _ _ _ H)
    as (ms & mds & entries & Hms & Hmds & Hy & Hs & Hm & Hd & _ & _ & Hentries).
  destruct (choose_spec MASS_POINTS mass masses ms ltac:(by_compute) ltac:(done) Hms)
    as (_ & _ & Hms_in).
  destruct (choose_spec MODES mode modes mds ltac:(by_compute) ltac:(done) Hmds)
    as (_ & _ & Hmds_in).
  assert (Forall (fun e : string * Z * string => e.1.2 ∈ MASS_POINTS /\ e.2 ∈ MODES)
                 entries) as Hall.
  { destruct pattern as [format|].
    - destruct Hentries as (m & -> & Hall). apply Forall_cons in Hmds_in as [Hm_in _].
      clear -Hall Hms_in Hm_in. induction Hall as [|x e ? ? (name & _ & ->) _ IH];
        [constructor|].
      apply Forall_cons in Hms_in as [Hx Hms_in]. constructor; [done|by apply IH].
    - subst entries. apply Forall_forall. intros e He. unfold higgs_grid in He.
      apply list_elem_of_bind in He as (md & He & Hmd).
      apply list_elem_of_bind in He as (x & He & Hx).
      apply list_elem_of_singleton in He as ->. simpl.
      rewrite Forall_forall in Hms_in. rewrite Forall_forall in Hmds_in. by auto. }
  unfold xsec_kfact_effic, list_getitem. rewrite Hs, Hm, Hd, !length_fmap, !list_lookup_fmap.
  split.
  - intros Hi. apply lookup_lt_is_Some_2 in Hi as [e He].
    rewrite Forall_forall in Hall.
    destruct (Hall e) as [Hx Hmd]; [by eapply list_elem_of_lookup_2|].
    destruct (known_mode _ Hmd) as [[[code g1] g2] Hcode].
    exists e.1.2, e.2, code. remember MODES_DICT as dict eqn:Hdict.
    rewrite He. simpl. rewrite Hcode. simpl.
    split; [done|]. split; [done|]. split; [done|]. split; [by exists (g1, g2)|].
    by destruct (xsbr energy e.1.2 code).
  - intros Hi. by rewrite (lookup_ge_None_2 _ _ Hi).
Qed.
End Higgs_attributes.

Lemma Higgs_attributes_witness :
  exists self,
    higgs.Higgs_init 2012 (Some "gg") None None (Some [125; 130]%Z) None = Return self
    /\ higgs.hg_modes self = ["gg"; "gg"]
    /\ higgs.hg_mode self = None.
Proof.
  assert (exists self,
            higgs.Higgs_init 2012 (Some "gg") None None (Some [125; 130]%Z) None
            = Return self) as [self Hself].
  { eexists. reflexivity. }
  exists self. split; [exact Hself|].
  destruct (Higgs_attributes 2012 (Some "gg") None None (Some [125; 130]%Z) None self
              Hself)
    as (ms & mds & Hms & Hmds & _ & _ & _ & _ & _ & Hd & _ & _ & Hmode & _).
  injection Hms as <-. injection Hmds as <-. split; [rewrite Hd; reflexivity|].
  destruct (higgs.hg_mode self) as [m|]; [|reflexivity].
  destruct (proj1 (Hmode m) eq_refl) as [_ Hm]. discriminate Hm.
Defined.

Lemma Higgs_cross_sections_witness :
  exists self,
    higgs.Higgs_init 2012 (Some "gg") None None (Some [125; 130]%Z) None = Return self
    /\ higgs.xsec_kfact_effic (fun _ _ _ => Ok demo.tenth) 8 self 2 = Raise IndexError.
Proof.
  assert (exists self,
            higgs.Higgs_init 2012 (Some "gg") None None (Some [125; 130]%Z) None
            = Return self
            /\ length (higgs.hg_samples self) = 2%nat) as (self & Hself & Hlen).
  { eexists. split; reflexivity. }
  exists self. split; [exact Hself|].
  apply (proj2 (Higgs_cross_sections 2012 (Some "gg") None None (Some [125; 130]%Z)
                  None self (fun _ _ _ => Ok demo.tenth) 8 2 Hself)).
  rewrite Hlen. lia.
Defined.

Section Higgs_versions.

Lemma bind_skeleton {A} (f : string -> Z -> A) (modes : list string) (masses : list Z) :
  (mode ← modes; mass ← masses; [f mode mass])
  = (fun p : string * Z => f p.1 p.2) <$> (mode ← modes; mass ← masses; [(mode, mass)]).
Proof.
  induction modes as [|mode modes IH]; [done|].
  rewrite !bind_cons, fmap_app, IH. f_equal.
  clear. induction masses as [|mass masses IH]; [done|].
  rewrite !bind_cons, fmap_app, IH. done.
Qed.

Lemma elem_of_skeleton (modes : list string) (masses : list Z) (p : string * Z) :
  p ∈ (mode ← modes; mass ← masses; [(mode, mass)]) -> p.1 ∈ modes /\ p.2 ∈ masses.
Proof.
  intros Hp. apply list_elem_of_bind in Hp as (mode & Hp & Hmode).
  apply list_elem_of_bind in Hp as (mass & Hp & Hmass).
  by apply list_elem_of_singleton in Hp as ->.
Qed.

Lemma grid_skeleton (year : Z) (modes : list string) (masses : list Z) :
  Forall (fun x => x ∈ samples.MODES) modes ->
  grid year modes masses
  = (fun p : string * Z =>
       (samples.sample_name
          (match pydict_get samples.MODES_DICT p.1 with
           | Ok m => if decide (year = 2011%Z) then m.1.2 else m.2
           | Raise _ => ""
           end) p.1 p.2 (higgs_suffix year), p.2, p.1))
      <$> (mode ← modes; mass ← masses; [(mode, mass)]).
Proof.
  intros Hmodes. unfold grid. induction Hmodes as [|mode modes Hmode _ IH]; [done|].
  rewrite !bind_cons, fmap_app, <- IH. f_equal.
  assert (exists m, pydict_get samples.MODES_DICT mode = Ok m) as [m Hm].
  { unfold samples.MODES in Hmode.
    repeat (apply elem_of_cons in Hmode as [->|Hmode]);
      [by eexists..|by apply elem_of_nil in Hmode]. }
  clear IH. induction masses as [|mass masses IH]; [done|].
  rewrite !bind_cons, fmap_app, <- IH, list_fmap_singleton. cbn [fst snd].
  rewrite Hm. unfold higgs_suffix. done.
Qed.

Lemma names_differ (year : Z) (mode : string) (mass : Z) :
  year = 2011%Z \/ year = 2012%Z ->
  mode ∈ samples.MODES ->
  samples.sample_name
    (match pydict_get samples.MODES_DICT mode with
     | Ok m => if decide (year = 2011%Z) then m.1.2 else m.2
     | Raise _ => ""
     end) mode mass (higgs_suffix year)
  = samples.sample_name (higgs_generator year mode) mode mass (higgs_suffix year)
  <-> year = 2011%Z \/ mode <> "gg".
Proof.
  intros Hy Hmode. unfold samples.MODES in Hmode. unfold higgs_generator.
  repeat (apply elem_of_cons in Hmode as [->|Hmode]); [..|by apply elem_of_nil in Hmode];
    destruct Hy as [-> | ->]; simpl;
    try (split; [intros _; first [by left|by right]|by intros _]).
  split.
  - intros H. exfalso. unfold samples.sample_name in H. simpl in H. done.
  - by intros [?|?].
Qed.

Lemma samples_Higgs_init_returns (F : samples.Files) year mode modes mass masses
    systematics scale cuts (a : samples.Higgs) :
  samples.Higgs_init F year mode modes mass masses systematics scale cuts = Return a ->
  exists (the_masses : list Z) (the_modes : list string),
    samples.choose samples.MASS_POINTS mass masses = Return the_masses
    /\ samples.choose samples.MODES mode modes = Return the_modes
    /\ (year = 2011%Z \/ year = 2012%Z)
    /\ Forall (fun x => x ∈ samples.MODES) the_modes
    /\ the_masses <> []
    /\ samples.higgs_samples a
       = (fun e : string * Z * string => e.1.1) <$> grid year the_modes the_masses
    /\ samples.higgs_masses a
       = (fun e : string * Z * string => e.1.2) <$> grid year the_modes the_masses
    /\ samples.higgs_modes a
       = (fun e : string * Z * string => e.2) <$> grid year the_modes the_masses.
Proof.
  unfold samples.Higgs_init. intros H.
  apply outcome_bind_Return in H as (ms & Hms & H).
  apply outcome_bind_Return in H as (mds & Hmds & H).
  apply outcome_bind_Return in H as ([suffix gi] & Hyear & H).
  apply outcome_bind_Return in H as (entries & Hentries & H).
  apply outcome_bind_Return in H as (mc & Hmc & [= <-]). simpl.
  destruct (choose_spec samples.MASS_POINTS mass masses ms ltac:(by_compute)
              ltac:(done) Hms) as (Hms_ne & _ & _).
  destruct (choose_spec samples.MODES mode modes mds ltac:(by_compute) ltac:(done)
              Hmds) as (_ & _ & Hmds_in).
  assert (year = 2011%Z \/ year = 2012%Z) as Hy.
  { repeat case_decide; try done; auto. }
  assert (entries = grid year mds ms) as ->.
  { apply of_res_Return in Hentries. rewrite entries_loop in Hentries by done.
    injection Hentries as <-. unfold grid.
    repeat case_decide; try done; simplify_eq; done. }
  by exists ms, mds.
Qed.

(** X26. The two versions of [Higgs.__init__].  Whenever the constructor of
    [samples.py] returns, the attributes of [higgs.py] for the same arguments
    (and no pattern) are set too, with the same masses and modes and as many
    samples.  The name of a sample is the same in both versions except for
    the mode [gg] in 2012, whose generator is spelled differently: the two
    lists of names are equal exactly when the year is 2011 or [gg] is not
    among the modes. *)
Theorem Higgs_versions (F : samples.Files) year mode modes mass masses systematics
    scale cuts (a : samples.Higgs) :
  samples.Higgs_init F year mode modes mass masses systematics scale cuts = Return a ->
  exists b,
    higgs.Higgs_init year mode modes mass masses None = Return b
    /\ higgs.hg_masses b = samples.higgs_masses a
    /\ higgs.hg_modes b = samples.higgs_modes a
    /\ length (higgs.hg_samples b) = length (samples.higgs_samples a)
    /\ (forall i s s' m,
          samples.higgs_samples a !! i = Some s ->
          higgs.hg_samples b !! i = Some s' ->
          samples.higgs_modes a !! i = Some m ->
          s = s' <-> year = 2011%Z \/ m <> "gg")
    /\ (higgs.hg_samples b = samples.higgs_samples a
        <-> year = 2011%Z \/ "gg" ∉ samples.higgs_modes a).
Proof.
  intros H.
  destruct (samples_Higgs_init_returns _ _ _ _ _ _ _ _ _ _ H)
    as (ms & mds & Hms & Hmds & Hy & Hmds_in & Hms_ne & Hs & Hm & Hd).
  rewrite Hs, Hm, Hd. clear Hs Hm Hd H.
  assert (exists b, higgs.Higgs_init year mode modes mass masses None = Return b
            /\ higgs.hg_samples b
               = (fun e : string * Z * string => e.1.1) <$> higgs_grid year mds ms
            /\ higgs.hg_masses b
               = (fun e : string * Z * string => e.1.2) <$> higgs_grid year mds ms
            /\ higgs.hg_modes b
               = (fun e : string * Z * string => e.2) <$> higgs_grid year mds ms)
    as (b & Hb & Hbs & Hbm & Hbd).
  { unfold higgs.Higgs_init.
    change higgs.MASS_POINTS with samples.MASS_POINTS.
    change higgs.MODES with samples.MODES. rewrite Hms, Hmds.
    cbn [mbind outcome_bind].
    destruct Hy as [-> | ->].
    - destruct (decide (2011 = 2011)%Z); [|done]. cbn [mbind outcome_bind].
      pose proof (higgs_entries_loop 2011 1 "mc11c" ms mds []) as Hloop.
      cbv zeta in Hloop. rewrite Hloop by done.
      eexists. split; [reflexivity|]. done.
    - destruct (decide (2012 = 2011)%Z); [done|].
      destruct (decide (2012 = 2012)%Z); [|done]. cbn [mbind outcome_bind].
      pose proof (higgs_entries_loop 2012 2 "mc12a" ms mds []) as Hloop.
      cbv zeta in Hloop. rewrite Hloop by done.
      eexists. split; [reflexivity|]. done. }
  exists b. split; [done|]. rewrite Hbs, Hbm, Hbd. clear Hb Hbs Hbm Hbd.
  rewrite (grid_skeleton year mds ms Hmds_in). unfold higgs_grid.
  rewrite (bind_skeleton (fun mode mass => (_, mass, mode))).
  rewrite <- !list_fmap_compose.
  set (pairs := mode ← mds; mass ← ms; [(mode, mass)]).
  assert (forall p, p ∈ pairs -> p.1 ∈ samples.MODES) as Hpairs.
  { intros p Hp. apply elem_of_skeleton in Hp as [Hp _].
    rewrite Forall_forall in Hmds_in. by apply Hmds_in. }
  split; [done|]. split; [done|]. split; [by rewrite !length_fmap|]. split.
  - intros i s s' m. rewrite !list_lookup_fmap.
    destruct (pairs !! i) as [p|] eqn:Hp; [|done].
    cbn [fmap option_fmap option_map compose].
    intros [= <-] [= <-] [= <-].
    apply (names_differ year p.1 p.2 Hy). by eapply Hpairs, list_elem_of_lookup_2.
  - rewrite <- Forall_fmap_ext. rewrite Forall_forall. split.
    + intros Hall.
      assert (year = 2011%Z \/ year <> 2011%Z) as [?|Hne] by lia; [by left|]. right.
      intros Hgg. apply list_elem_of_fmap in Hgg as (p & Hp1 & Hp). simpl in Hp1.
      specialize (Hall p Hp). cbn [compose fst snd] in Hall. symmetry in Hall.
      apply (names_differ year p.1 p.2 Hy (Hpairs p Hp)) in Hall as [?|?]; done.
    + intros Hcase p Hp. cbn [compose fst snd]. symmetry.
      apply (names_differ year p.1 p.2 Hy (Hpairs p Hp)).
      destruct Hcase as [?|Hgg]; [by left|]. right. intros Hp1. apply Hgg.
      apply list_elem_of_fmap. by exists p.
Qed.
End Higgs_versions.

Lemma Higgs_versions_witness :
  exists a b,
    samples.Higgs_init (examples.files []) 2012 (Some "gg") None None
      (Some [125; 130]%Z) false 1 None = Return a
    /\ higgs.Higgs_init 2012 (Some "gg") None None (Some [125; 130]%Z) None = Return b
    /\ higgs.hg_samples b <> samples.higgs_samples a.
Proof.
  assert (exists a,
            samples.Higgs_init (examples.files []) 2012 (Some "gg") None None
              (Some [125; 130]%Z) false 1 None = Return a
            /\ samples.higgs_modes a = ["gg"; "gg"]) as (a & Ha & Hmodes).
  { eexists. split; reflexivity. }
  destruct (Higgs_versions (examples.files []) 2012 (Some "gg") None None
              (Some [125; 130]%Z) false 1 None a Ha) as (b & Hb & _ & _ & _ & _ & Hiff).
  exists a, b. split; [exact Ha|]. split; [exact Hb|].
  intros Heq. apply Hiff in Heq as [Hy|Hgg]; [discriminate Hy|].
  apply Hgg. rewrite Hmodes. by_compute.
Defined.

(** ** Names of the nuisance parameters *)

Section Nuisance_parameters.
Import sample.

(** X27. The names of the nuisance parameters of the systematics components
    of a sample of [sample.py], for the years 2011 and 2012.  The names that
    [get_workspace_np_name] gives to the components of the sample are
    pairwise distinct and start with [ATLAS_].  In 2011 no renaming applies
    but that of the trigger: the name is [ATLAS_], the component and the
    year.  The trigger is named [TRIGGER_EMB_HH] for an embedded Ztautau
    sample and [TRIGGER_HH] for the others. *)
Theorem np_names_distinct (self : Sample) :
  s_class self <> C_Sample ->
  s_year self = 2011%Z \/ s_year self = 2012%Z ->
  exists components,
    systematics_components self = Ok components
    /\ NoDup ((fun syst => get_workspace_np_name self syst (s_year self))
                <$> components)
    /\ Forall (fun syst =>
                 String.prefix "ATLAS_"
                   (get_workspace_np_name self syst (s_year self)) = true)
              components
    /\ (s_year self = 2011%Z ->
        Forall (fun syst =>
                  syst = "TRIGGER"
                  \/ get_workspace_np_name self syst (s_year self)
                     = "ATLAS_" +:+ syst +:+ "_2011")
               components)
    /\ get_workspace_np_name self "TRIGGER" (s_year self)
       = "ATLAS_TRIGGER_" +:+ (if s_Embedded_Ztautau self then "EMB_HH" else "HH")
         +:+ "_" +:+ pretty (s_year self).
Proof.
  destruct self as [cls zt emb year sc sce c tr sy ds]. simpl.
  intros Hcls Hy. unfold systematics_components. simpl.
  destruct cls; [done| |]; destruct Hy as [-> | ->]; destruct emb;
    (eexists; split; [reflexivity|]);
    (split; [by_compute|]); (split; [by_compute|]);
    (split; [|by_compute]); first [intros _; by_compute|by intros ?].
Qed.
End Nuisance_parameters.

Lemma np_names_distinct_witness :
  exists components,
    sample.systematics_components examples.no_datasets = Ok components
    /\ NoDup ((fun syst => sample.get_workspace_np_name examples.no_datasets syst 2012)
                <$> components).
Proof.
  destruct (np_names_distinct examples.no_datasets) as (components & Hc & Hnd & _).
  - discriminate.
  - right. reflexivity.
  - by exists components.
Defined.
